(** * Match Validation & Reward Engine: a shallow embedding

    The development follows the four TypeScript modules of the reward
    pipeline:

    - [_shared/reward-calculator.ts]   -> [Module RewardCalculator]
    - [_shared/mcp-security-db.ts]     -> [Module SecurityDb]
    - [_shared/match-validator.ts]     -> [Module MatchValidator]
    - [mcp-match-submit/index.ts]      -> [Module MatchSubmit]

    Conventions of the embedding.

    - In the four modules above a JavaScript [number] is a rational
      ([Q]): arithmetic is exact and every value is finite, so [NaN], the
      infinities and IEEE rounding are outside that model; it gives the
      value of every formula, and what the pipeline does with numbers
      that the arithmetic of the source represents exactly.  The one
      place where the source can divide by zero is written out case by
      case.  Counters and scores that the code only ever builds from
      integer literals are [Z].
    - Where overflow, [NaN] or rounding decide the result,
      [calculateReward] and [checkDailyCap] are embedded a second time on
      IEEE 754 doubles ([Module Double], [Module RewardCalculator64],
      [Module SecurityDb64]).
    - Timestamps ([Date.now()], [used_at], ISO [created_at] strings) are
      integers of milliseconds since the epoch; a request sees one clock
      value, and the server's local day is the UTC day.
    - Strings are sequences of 8-bit characters.
    - A template literal is kept as its template and the values spliced
      into it ([Tpl]); a plain literal is [Lit].
    - The Supabase client is a world of four tables threaded through a
      state monad.  Every round trip to the store pops one entry of a
      script of injected infrastructure errors; the UNIQUE constraints of
      [docs/MCP_SECURITY_TABLES.sql] are enforced by the inserts.  A
      round trip answers [{ data, error }]; exceptions thrown by the
      client are outside the model.
    - Requests are served one after the other: an [await] completes before
      the next statement runs, and the nonce cleanup that the source
      issues without awaiting it completes where it is issued. *)

From Stdlib Require Import ZArith QArith Qminmax Qround Qabs Bool List Ascii String Lia
  RelationClasses.
From Stdlib Require Import Lqa.
From Stdlib Require HexadecimalString HexadecimalN Strings.Byte.
From Stdlib Require Import SpecFloat.
Import ListNotations.

Local Open Scope Z_scope.
Local Open Scope Q_scope.

(** ** JavaScript helpers *)

Module Js.

(** [a < b], [a > b], [a >= b] on numbers *)
Definition ltb (a b : Q) : bool := negb (Qle_bool b a).
Definition gtb (a b : Q) : bool := negb (Qle_bool a b).
Definition geb (a b : Q) : bool := Qle_bool b a.
Definition leb (a b : Q) : bool := Qle_bool a b.
Definition eqb (a b : Q) : bool := Qeq_bool a b.

(** [table[key] || dflt] where the table lookup gave [o]: the default
    replaces a missing entry and a zero one. *)
Definition or_num (o : option Q) (dflt : Q) : Q :=
  match o with
  | Some v => if Qeq_bool v 0 then dflt else v
  | None => dflt
  end.

(** [Math.round]: to the nearest integer, halves upwards. *)
Definition round (x : Q) : Z := Qfloor (x + (1 # 2)).

(** Lookup in an object literal whose keys are integer literals. *)
Fixpoint lookup {A : Type} (tbl : list (Z * A)) (key : Q) : option A :=
  match tbl with
  | [] => None
  | (k, v) :: rest => if Qeq_bool key (inject_Z k) then Some v else lookup rest key
  end.

(** [xs.push(x)] *)
Definition push {A : Type} (xs : list A) (x : A) : list A := xs ++ [x].

(** A string built by the program: a literal, or a template literal
    together with the values interpolated into it, in order. *)
Inductive arg : Type :=
| Num (q : Q)
| Int (z : Z)
| Fixed0 (q : Q)          (* [q.toFixed(0)] *)
| Str (s : string).

Inductive text : Type :=
| Lit (s : string)
| Tpl (template : string) (args : list arg).

(** Truthiness of a string: only the empty one is falsy.  No template of
    the program is empty. *)
Definition truthy (t : text) : bool :=
  match t with
  | Lit s => negb (String.eqb s "")
  | Tpl s _ => negb (String.eqb s "")
  end.

(** [a || b] on an optional string ([undefined] is [None]). *)
Definition or_text (a : option text) (b : text) : option text :=
  match a with
  | Some t => if truthy t then Some t else Some b
  | None => Some b
  end.

(** [n.toString(16)] of a non-negative integer: lower-case digits, no
    leading zero. *)
Definition toString16 (n : N) : string :=
  HexadecimalString.NilZero.string_of_uint (N.to_hex_uint n).

(** [s.padStart(n, c)] with a filler [c] of one character. *)
Definition padStart (n : nat) (c : Ascii.ascii) (s : string) : string :=
  String.append (string_of_list_ascii (repeat c (n - String.length s))) s.

(** [s.charCodeAt(i)] as an operand of a bitwise operator: past the end of
    the string it is [NaN], which such an operator reads as 0. *)
Definition charCodeAt (s : string) (i : nat) : N :=
  match String.get i s with
  | Some c => N_of_ascii c
  | None => 0%N
  end.

(** [new TextEncoder().encode(s)]: one byte per character. *)
Definition encode (s : string) : list Byte.byte := list_byte_of_string s.

End Js.

(** ** [reward-calculator.ts] *)

Module RewardCalculator.

Record MatchData : Type := {
  placement : Q;
  playerCount : Q;
  kills : Q;
  durationMs : Q;
  antiCheatPassed : bool;
  botConfidence : Q
}.

Record RewardBreakdown : Type := {
  base : Q;
  placement_part : Q;   (* field [placement] of the breakdown *)
  kills_part : Q;       (* field [kills] *)
  survival : Q;
  penalties : Q;
  final : Q
}.

Record RewardCalculation : Type := {
  baseReward : Q;
  placementMultiplier : Q;
  killBonus : Q;
  survivalBonus : Q;
  antiCheatModifier : Q;
  totalReward : Q;
  breakdown : RewardBreakdown
}.

(** [REWARD_CONFIG] *)
Definition BASE_REWARD : list (Z * Q) := [(2%Z, 10); (3%Z, 15); (5%Z, 25)].
Definition PLACEMENT_MULTIPLIERS : list (Z * Q) :=
  [(1%Z, 2); (2%Z, 1); (3%Z, 1 # 2); (4%Z, 1 # 4); (5%Z, 1 # 10)].
Definition KILL_BONUS : Q := 5.
Definition SURVIVAL_BONUS_PER_MINUTE : Q := 2.
Definition MAX_SURVIVAL_BONUS : Q := 20.
Definition SUSPICIOUS_PENALTY : Q := 1 # 2.
Definition FAILED_ANTICHEAT_PENALTY : Q := 0.
Definition MAX_REWARD_PER_MATCH : Q := 1000.
Definition MIN_REWARD : Q := 0.

Definition calculateReward (m : MatchData) : RewardCalculation :=
  let baseReward := Js.or_num (Js.lookup BASE_REWARD (playerCount m)) 10 in
  let placementMultiplier :=
    Js.or_num (Js.lookup PLACEMENT_MULTIPLIERS (placement m)) (1 # 10) in
  let killBonus := kills m * KILL_BONUS in
  let survivalMinutes := durationMs m / 60000 in
  let survivalBonus :=
    Qmin (survivalMinutes * SURVIVAL_BONUS_PER_MINUTE) MAX_SURVIVAL_BONUS in
  let antiCheatModifier :=
    if negb (antiCheatPassed m) then FAILED_ANTICHEAT_PENALTY
    else if Js.geb (botConfidence m) (7 # 10) then SUSPICIOUS_PENALTY
    else 1 in
  let baseWithPlacement := baseReward * placementMultiplier in
  let withBonuses := baseWithPlacement + killBonus + survivalBonus in
  let withModifier := withBonuses * antiCheatModifier in
  let totalReward :=
    Qmin (Qmax withModifier MIN_REWARD) MAX_REWARD_PER_MATCH in
  let penalties := withBonuses - (withBonuses * antiCheatModifier) in
  {| baseReward := baseReward;
     placementMultiplier := placementMultiplier;
     killBonus := killBonus;
     survivalBonus := survivalBonus;
     antiCheatModifier := antiCheatModifier;
     totalReward := totalReward;
     breakdown :=
       {| base := baseReward;
          placement_part := baseWithPlacement - baseReward;
          kills_part := killBonus;
          survival := survivalBonus;
          penalties := - penalties;
          final := totalReward |} |}.

(** The value before the two clamps:
    [(base * multiplier + killBonus + survivalBonus) * modifier]. *)
Definition preClamp (m : MatchData) : Q :=
  let r := calculateReward m in
  (baseReward r * placementMultiplier r + killBonus r + survivalBonus r)
  * antiCheatModifier r.

(** The result of [validateMatchData]. *)
Record MatchDataValidation : Type := {
  md_valid : bool;
  md_errors : list Js.text
}.

Definition validateMatchData (m : MatchData) : MatchDataValidation :=
  let errors := [] in
  (* Validate placement *)
  let errors :=
    if Js.ltb (placement m) 1 || Js.gtb (placement m) (playerCount m) then
      Js.push errors
        (Js.Tpl "Invalid placement: ${match.placement} (must be 1-${match.playerCount})"
           [Js.Num (placement m); Js.Num (playerCount m)])
    else errors in
  (* Validate player count *)
  let errors :=
    if negb (existsb (Js.eqb (playerCount m)) [2; 3; 5]) then
      Js.push errors
        (Js.Tpl "Invalid player count: ${match.playerCount} (must be 2, 3, or 5)"
           [Js.Num (playerCount m)])
    else errors in
  (* Validate kills *)
  let errors :=
    if Js.ltb (kills m) 0 || Js.geb (kills m) (playerCount m) then
      Js.push errors
        (Js.Tpl "Invalid kills: ${match.kills} (must be 0-${match.playerCount - 1})"
           [Js.Num (kills m); Js.Num (playerCount m - 1)])
    else errors in
  (* Validate duration *)
  let errors :=
    if Js.ltb (durationMs m) 5000 || Js.gtb (durationMs m) 600000 then
      Js.push errors
        (Js.Tpl "Invalid duration: ${match.durationMs}ms (must be 5s-10min)"
           [Js.Num (durationMs m)])
    else errors in
  (* Validate bot confidence *)
  let errors :=
    if Js.ltb (botConfidence m) 0 || Js.gtb (botConfidence m) 1 then
      Js.push errors
        (Js.Tpl "Invalid bot confidence: ${match.botConfidence} (must be 0-1)"
           [Js.Num (botConfidence m)])
    else errors in
  {| md_valid := Nat.eqb (List.length errors) 0; md_errors := errors |}.

End RewardCalculator.

(** ** The store behind the Supabase client *)

Module Store.

Inductive UsageType : Type := reward | match_.

Definition UsageType_eqb (a b : UsageType) : bool :=
  match a, b with
  | reward, reward | match_, match_ => true
  | _, _ => false
  end.

(** Rows of [mcp_nonces], [mcp_rate_limits], [mcp_daily_usage] and
    [mcp_processed_matches]; the generated [id] column is left out. *)
Record NonceRecord : Type := {
  nonce : string;
  nonce_wallet : string;
  used_at : Z
}.

Record RateLimitEntry : Type := {
  rl_wallet : string;
  rl_endpoint : string;
  rl_created_at : Z
}.

Record DailyUsageRecord : Type := {
  du_wallet : string;
  usage_type : UsageType;
  amount : Q;
  du_match_id : string;
  du_created_at : Z
}.

Record ProcessedMatch : Type := {
  match_id : string;
  pm_wallet : string;
  pm_placement : Q;
  reward_amount : Q;
  tx_hash : option string;
  processed_at : Z
}.

(** The world a request runs in: the four tables, the clock read by
    [Date.now()], whether the two environment variables of
    [getSupabaseAdmin] are set, and the script of injected store errors
    (one entry per round trip; [None], or an exhausted script, lets the
    round trip through; [Some code] makes it return [{ error: { code } }]). *)
Record World : Type := {
  nonces : list NonceRecord;
  rate_limits : list RateLimitEntry;
  daily_usage : list DailyUsageRecord;
  processed_matches : list ProcessedMatch;
  clock : Z;
  env_ok : bool;
  faults : list (option string)
}.

Definition empty (now : Z) : World :=
  {| nonces := []; rate_limits := []; daily_usage := [];
     processed_matches := []; clock := now; env_ok := true; faults := [] |}.

(** State monad over the world *)
Definition M (A : Type) : Type := World -> A * World.

Definition ret {A : Type} (a : A) : M A := fun w => (a, w).

Definition bind {A B : Type} (m : M A) (f : A -> M B) : M B :=
  fun w => let (a, w') := m w in f a w'.

Definition Date_now : M Z := fun w => (clock w, w).

Definition with_faults (fs : list (option string)) (w : World) : World :=
  {| nonces := nonces w; rate_limits := rate_limits w;
     daily_usage := daily_usage w; processed_matches := processed_matches w;
     clock := clock w; env_ok := env_ok w; faults := fs |}.

(** One round trip: pops the next injected error. *)
Definition round_trip : M (option string) :=
  fun w =>
    match faults w with
    | [] => (None, w)
    | f :: rest => (f, with_faults rest w)
    end.

Definition set_nonces (l : list NonceRecord) : M unit :=
  fun w => (tt, {| nonces := l; rate_limits := rate_limits w;
                   daily_usage := daily_usage w;
                   processed_matches := processed_matches w;
                   clock := clock w; env_ok := env_ok w; faults := faults w |}).

Definition set_rate_limits (l : list RateLimitEntry) : M unit :=
  fun w => (tt, {| nonces := nonces w; rate_limits := l;
                   daily_usage := daily_usage w;
                   processed_matches := processed_matches w;
                   clock := clock w; env_ok := env_ok w; faults := faults w |}).

Definition set_daily_usage (l : list DailyUsageRecord) : M unit :=
  fun w => (tt, {| nonces := nonces w; rate_limits := rate_limits w;
                   daily_usage := l;
                   processed_matches := processed_matches w;
                   clock := clock w; env_ok := env_ok w; faults := faults w |}).

Definition set_processed_matches (l : list ProcessedMatch) : M unit :=
  fun w => (tt, {| nonces := nonces w; rate_limits := rate_limits w;
                   daily_usage := daily_usage w;
                   processed_matches := l;
                   clock := clock w; env_ok := env_ok w; faults := faults w |}).

Definition get {A : Type} (proj : World -> A) : M A := fun w => (proj w, w).

End Store.

Declare Scope monad_scope.
Delimit Scope monad_scope with monad.
Notation "x <- c1 ;; c2" := (Store.bind c1 (fun x => c2))
  (at level 61, c1 at next level, right associativity) : monad_scope.
Notation "' pat <- c1 ;; c2" :=
  (Store.bind c1 (fun x => match x with pat => c2 end))
  (at level 61, pat pattern, c1 at next level, right associativity) : monad_scope.
Notation "c1 ;; c2" := (Store.bind c1 (fun _ => c2))
  (at level 61, right associativity) : monad_scope.

(** ** PostgREST queries used by the modules *)

Module Query.
Import Store.
Local Open Scope monad_scope.

(** [.single()]: exactly one row, else the error [PGRST116]. *)
Definition single {A : Type} (rows : list A) : option A * option string :=
  match rows with
  | [r] => (Some r, None)
  | _ => (None, Some "PGRST116"%string)
  end.

(** [from('mcp_nonces').select('id, used_at').eq('nonce', n).single()] *)
Definition select_nonce (n : string) : M (option NonceRecord * option string) :=
  err <- round_trip ;;
  match err with
  | Some code => ret (None, Some code)
  | None =>
      rows <- get nonces ;;
      ret (single (filter (fun r => String.eqb (nonce r) n) rows))
  end.

(** [from('mcp_nonces').insert(row)]; [nonce] is UNIQUE: a second row with
    the same value is refused with SQLSTATE 23505. *)
Definition insert_nonce (row : NonceRecord) : M (option string) :=
  err <- round_trip ;;
  match err with
  | Some code => ret (Some code)
  | None =>
      rows <- get nonces ;;
      if existsb (fun r => String.eqb (nonce r) (nonce row)) rows
      then ret (Some "23505"%string)
      else set_nonces (rows ++ [row]) ;; ret None
  end.

(** [from('mcp_nonces').delete().lt('used_at', threshold)] *)
Definition delete_nonces_lt (threshold : Z) : M unit :=
  err <- round_trip ;;
  match err with
  | Some _ => ret tt
  | None =>
      rows <- get nonces ;;
      set_nonces (filter (fun r => negb (used_at r <? threshold)%Z) rows)
  end.

(** [from('mcp_rate_limits').select('*', {count:'exact', head:true})
      .eq('wallet_address', w).eq('endpoint', e).gte('created_at', since)] *)
Definition count_rate_limits (w e : string) (since : Z)
  : M (option Z * option string) :=
  err <- round_trip ;;
  match err with
  | Some code => ret (None, Some code)
  | None =>
      rows <- get rate_limits ;;
      ret (Some (Z.of_nat (List.length (filter (fun r =>
              String.eqb (rl_wallet r) w && String.eqb (rl_endpoint r) e
              && (since <=? rl_created_at r)%Z) rows))), None)
  end.

(** [from('mcp_rate_limits').insert(row)] *)
Definition insert_rate_limit (row : RateLimitEntry) : M unit :=
  err <- round_trip ;;
  match err with
  | Some _ => ret tt
  | None => rows <- get rate_limits ;; set_rate_limits (rows ++ [row])
  end.

(** [from('mcp_daily_usage').select('amount').eq('wallet_address', w)
      .eq('usage_type', t).gte('created_at', dayStart).lt('created_at', dayEnd)] *)
Definition select_daily_usage (w : string) (t : UsageType) (dayStart dayEnd : Z)
  : M (option (list DailyUsageRecord) * option string) :=
  err <- round_trip ;;
  match err with
  | Some code => ret (None, Some code)
  | None =>
      rows <- get daily_usage ;;
      ret (Some (filter (fun r =>
              String.eqb (du_wallet r) w && UsageType_eqb (usage_type r) t
              && (dayStart <=? du_created_at r)%Z
              && (du_created_at r <? dayEnd)%Z) rows), None)
  end.

(** [from('mcp_daily_usage').insert(row)] *)
Definition insert_daily_usage (row : DailyUsageRecord) : M unit :=
  err <- round_trip ;;
  match err with
  | Some _ => ret tt
  | None => rows <- get daily_usage ;; set_daily_usage (rows ++ [row])
  end.

(** [from('mcp_processed_matches').select('id').eq('match_id', m).single()] *)
Definition select_processed_match (m : string)
  : M (option ProcessedMatch * option string) :=
  err <- round_trip ;;
  match err with
  | Some code => ret (None, Some code)
  | None =>
      rows <- get processed_matches ;;
      ret (single (filter (fun r => String.eqb (match_id r) m) rows))
  end.

(** [from('mcp_processed_matches').insert(row)]; [match_id] is UNIQUE. *)
Definition insert_processed_match (row : ProcessedMatch) : M (option string) :=
  err <- round_trip ;;
  match err with
  | Some code => ret (Some code)
  | None =>
      rows <- get processed_matches ;;
      if existsb (fun r => String.eqb (match_id r) (match_id row)) rows
      then ret (Some "23505"%string)
      else set_processed_matches (rows ++ [row]) ;; ret None
  end.

(** Rows in descending order of [processed_at]; among rows with the same
    timestamp the order is the store's choice (here: later rows first). *)
Fixpoint insert_desc (r : ProcessedMatch) (l : list ProcessedMatch)
  : list ProcessedMatch :=
  match l with
  | [] => [r]
  | x :: rest =>
      if (processed_at x <? processed_at r)%Z then r :: l
      else x :: insert_desc r rest
  end.

Definition order_desc (l : list ProcessedMatch) : list ProcessedMatch :=
  fold_right insert_desc [] l.

(** [from('mcp_processed_matches').select(...).eq('wallet_address', w)
      .gte('processed_at', since).order('processed_at', {ascending:false})
      .limit(n)] *)
Definition select_recent_matches (w : string) (since : Z) (n : nat)
  : M (option (list ProcessedMatch) * option string) :=
  err <- round_trip ;;
  match err with
  | Some code => ret (None, Some code)
  | None =>
      rows <- get processed_matches ;;
      ret (Some (firstn n (order_desc (filter (fun r =>
              String.eqb (pm_wallet r) w && (since <=? processed_at r)%Z) rows))),
           None)
  end.

End Query.

(** ** [mcp-security-db.ts] *)

Module SecurityDb.
Import Store Query.
Local Open Scope monad_scope.
Local Open Scope string_scope.

Record SecurityConfig : Type := {
  nonceExpiryMs : Z;
  rateLimitWindowMs : Z;
  rateLimitMaxRequests : Z;
  dailyRewardCap : Q;
  dailyMatchCap : Q;
  maxRewardPerMatch : Q;
  suspiciousThreshold : Q;
  banThreshold : Q
}.

Record SecurityCheck : Type := {
  name : string;
  check_passed : bool;
  details : Js.text
}.

Record SecurityCheckResult : Type := {
  passed : bool;
  checks : list SecurityCheck;
  riskScore : Z;
  blockReason : option Js.text
}.

Record RateLimitResult : Type := {
  rl_allowed : bool;
  rl_remaining : Z;
  rl_resetAt : Z;
  rl_details : Js.text
}.

Record DailyCapResult : Type := {
  allowed : bool;
  usedToday : Q;
  remaining : Q;
  resetAt : Z
}.

Record NonceCheckResult : Type := {
  valid : bool;
  reason : Js.text
}.

Definition DEFAULT_SECURITY_CONFIG : SecurityConfig :=
  {| nonceExpiryMs := 300000;
     rateLimitWindowMs := 60000;
     rateLimitMaxRequests := 30;
     dailyRewardCap := 5000;
     dailyMatchCap := 50;
     maxRewardPerMatch := 1000;
     suspiciousThreshold := 7 # 10;
     banThreshold := 9 # 10 |}.

(** [error && error.code !== 'PGRST116'] *)
Definition is_real_error (e : option string) : bool :=
  match e with
  | Some code => negb (String.eqb code "PGRST116")
  | None => false
  end.

Definition checkAndConsumeNonce (n walletAddress : string) (config : SecurityConfig)
  : M NonceCheckResult :=
  now <- Date_now ;;
  let expiryThreshold := (now - nonceExpiryMs config)%Z in
  '(existing, checkError) <- select_nonce n ;;
  if is_real_error checkError then
    ret {| valid := false; reason := Js.Lit "Database error during nonce check" |}
  else
  match existing with
  | Some _ =>
      ret {| valid := false;
             reason := Js.Lit "Nonce already used (replay attack detected)" |}
  | None =>
      insertError <- insert_nonce
        {| nonce := n; nonce_wallet := walletAddress; used_at := now |} ;;
      match insertError with
      | Some code =>
          if String.eqb code "23505" then
            ret {| valid := false;
                   reason := Js.Lit "Concurrent replay attack detected" |}
          else
            ret {| valid := false; reason := Js.Lit "Failed to record nonce" |}
      | None =>
          (* cleanup of expired nonces, issued without awaiting it *)
          delete_nonces_lt expiryThreshold ;;
          ret {| valid := true; reason := Js.Lit "Nonce is fresh" |}
      end
  end.

Definition checkRateLimit (walletAddress endpoint : string) (config : SecurityConfig)
  : M RateLimitResult :=
  now <- Date_now ;;
  let windowStart := (now - rateLimitWindowMs config)%Z in
  '(count, error) <- count_rate_limits walletAddress endpoint windowStart ;;
  match error with
  | Some _ =>
      (* fail open *)
      ret {| rl_allowed := true;
             rl_remaining := rateLimitMaxRequests config;
             rl_resetAt := (now + rateLimitWindowMs config)%Z;
             rl_details := Js.Lit "Rate limit check failed, allowing request" |}
  | None =>
      let requestCount := match count with Some c => c | None => 0%Z end in
      let remaining := Z.max 0 (rateLimitMaxRequests config - requestCount - 1) in
      let resetAt := (now + rateLimitWindowMs config)%Z in
      if (rateLimitMaxRequests config <=? requestCount)%Z then
        ret {| rl_allowed := false;
               rl_remaining := 0;
               rl_resetAt := resetAt;
               rl_details := Js.Tpl "Rate limit exceeded: ${requestCount}/${config.rateLimitMaxRequests}"
                               [Js.Int requestCount; Js.Int (rateLimitMaxRequests config)] |}
      else
        insert_rate_limit {| rl_wallet := walletAddress; rl_endpoint := endpoint;
                             rl_created_at := now |} ;;
        ret {| rl_allowed := true;
               rl_remaining := remaining;
               rl_resetAt := resetAt;
               rl_details := Js.Tpl "Rate limit OK: ${requestCount + 1}/${config.rateLimitMaxRequests}"
                               [Js.Int (requestCount + 1); Js.Int (rateLimitMaxRequests config)] |}
  end.

(** Midnight at the start of the day [now] falls in, and the next midnight
    (the server runs in UTC). *)
Definition msPerDay : Z := 86400000.
Definition dayStartOf (now : Z) : Z := (now / msPerDay * msPerDay)%Z.
Definition dayEndOf (now : Z) : Z := (dayStartOf now + msPerDay)%Z.

Definition checkDailyCap (walletAddress : string) (capType : UsageType)
  (amount : Q) (config : SecurityConfig) : M DailyCapResult :=
  now <- Date_now ;;
  let dayStart := dayStartOf now in
  let dayEnd := dayEndOf now in
  let maxCap := match capType with
                | reward => dailyRewardCap config
                | match_ => dailyMatchCap config
                end in
  '(data, error) <- select_daily_usage walletAddress capType dayStart dayEnd ;;
  match error, data with
  | Some _, _ | None, None =>
      ret {| allowed := false; usedToday := 0; remaining := 0; resetAt := dayEnd |}
  | None, Some data =>
      let usedToday :=
        fold_left (fun sum row => sum + Js.or_num (Some (Store.amount row)) 0) data 0 in
      let remaining := Qmax 0 (maxCap - usedToday) in
      if Js.gtb (usedToday + amount) maxCap then
        ret {| allowed := false; usedToday := usedToday; remaining := remaining;
               resetAt := dayEnd |}
      else
        ret {| allowed := true; usedToday := usedToday;
               remaining := remaining - amount; resetAt := dayEnd |}
  end.

Definition recordDailyUsage (walletAddress : string) (usageType : UsageType)
  (amount : Q) (matchId : string) : M unit :=
  now <- Date_now ;;
  insert_daily_usage {| du_wallet := walletAddress; usage_type := usageType;
                        Store.amount := amount; du_match_id := matchId;
                        du_created_at := now |}.

Definition checkMatchUniqueness (matchId : string) : M (bool * Js.text) :=
  '(data, error) <- select_processed_match matchId ;;
  if is_real_error error then
    ret (false, Js.Lit "Database error during match check")
  else
  match data with
  | Some _ => ret (false, Js.Lit "Match already processed (replay attack)")
  | None => ret (true, Js.Lit "Match ID is unique")
  end.

Definition recordProcessedMatch (matchId walletAddress : string) (placement : Q)
  (rewardAmount : Q) (txHash : option string) : M unit :=
  now <- Date_now ;;
  insert_processed_match
    {| match_id := matchId; pm_wallet := walletAddress; pm_placement := placement;
       reward_amount := rewardAmount; tx_hash := txHash; processed_at := now |} ;;
  ret tt.

(** [/^0x[a-fA-F0-9]{40}$/] *)
Definition is_hex (c : Ascii.ascii) : bool :=
  let n := Ascii.nat_of_ascii c in
  ((48 <=? n) && (n <=? 57) || (65 <=? n) && (n <=? 70)
   || (97 <=? n) && (n <=? 102))%nat.

Definition is_eth_address (s : string) : bool :=
  match s with
  | String "0"%char (String "x"%char rest) =>
      Nat.eqb (String.length rest) 40 && forallb is_hex (list_ascii_of_string rest)
  | _ => false
  end.

Definition validateWalletAddress (address : string) : bool * Js.text :=
  if String.eqb address "" then (false, Js.Lit "Missing wallet address")
  else if negb (is_eth_address address)
  then (false, Js.Lit "Invalid Ethereum address format")
  else (true, Js.Lit "Valid Ethereum address").

Record Params : Type := {
  walletAddress : string;
  matchId : string;
  p_nonce : string;
  endpoint : string;
  rewardAmount : option Q;
  botConfidence : option Q
}.

Definition performFullSecurityCheck (params : Params) (config : SecurityConfig)
  : M SecurityCheckResult :=
  let checks := [] in
  let riskScore := 0%Z in
  let blockReason := None in
  (* 1. Wallet validation *)
  let walletCheck := validateWalletAddress (walletAddress params) in
  let checks := Js.push checks {| name := "WALLET_VALIDATION";
                              check_passed := fst walletCheck;
                              details := snd walletCheck |} in
  let '(riskScore, blockReason) :=
    if negb (fst walletCheck)
    then ((riskScore + 100)%Z, Some (snd walletCheck))
    else (riskScore, blockReason) in
  (* 2. Nonce check (replay prevention) *)
  nonceCheck <- checkAndConsumeNonce (p_nonce params) (walletAddress params) config ;;
  let checks := Js.push checks {| name := "REPLAY_PREVENTION";
                              check_passed := valid nonceCheck;
                              details := reason nonceCheck |} in
  let '(riskScore, blockReason) :=
    if negb (valid nonceCheck)
    then ((riskScore + 50)%Z, Js.or_text blockReason (reason nonceCheck))
    else (riskScore, blockReason) in
  (* 3. Rate limiting *)
  rateCheck <- checkRateLimit (walletAddress params) (endpoint params) config ;;
  let checks := Js.push checks {| name := "RATE_LIMIT";
                              check_passed := rl_allowed rateCheck;
                              details := rl_details rateCheck |} in
  let '(riskScore, blockReason) :=
    if negb (rl_allowed rateCheck)
    then ((riskScore + 40)%Z, Js.or_text blockReason (rl_details rateCheck))
    else (riskScore, blockReason) in
  (* 4. Match uniqueness *)
  matchCheck <- checkMatchUniqueness (matchId params) ;;
  let checks := Js.push checks {| name := "MATCH_UNIQUENESS";
                              check_passed := fst matchCheck;
                              details := snd matchCheck |} in
  let '(riskScore, blockReason) :=
    if negb (fst matchCheck)
    then ((riskScore + 60)%Z, Js.or_text blockReason (snd matchCheck))
    else (riskScore, blockReason) in
  (* 5. Daily match cap *)
  matchCapCheck <- checkDailyCap (walletAddress params) match_ 1 config ;;
  let checks := Js.push checks {| name := "DAILY_MATCH_CAP";
                              check_passed := allowed matchCapCheck;
                              details :=
                                if allowed matchCapCheck
                                then Js.Tpl "Matches today: ${matchCapCheck.usedToday}/${config.dailyMatchCap}"
                                       [Js.Num (usedToday matchCapCheck); Js.Num (dailyMatchCap config)]
                                else Js.Tpl "Daily match limit reached: ${matchCapCheck.usedToday}/${config.dailyMatchCap}"
                                       [Js.Num (usedToday matchCapCheck); Js.Num (dailyMatchCap config)] |} in
  let '(riskScore, blockReason) :=
    if negb (allowed matchCapCheck)
    then ((riskScore + 30)%Z, Js.or_text blockReason (Js.Lit "Daily match limit exceeded"))
    else (riskScore, blockReason) in
  (* 6. Daily reward cap (if reward amount provided) *)
  '(checks, riskScore, blockReason) <-
    match rewardAmount params with
    | Some rewardAmount =>
        rewardCapCheck <- checkDailyCap (walletAddress params) reward rewardAmount config ;;
        let checks := Js.push checks {| name := "DAILY_REWARD_CAP";
                                    check_passed := allowed rewardCapCheck;
                                    details :=
                                      if allowed rewardCapCheck
                                      then Js.Tpl "Rewards today: ${rewardCapCheck.usedToday}/${config.dailyRewardCap}"
                                             [Js.Num (usedToday rewardCapCheck); Js.Num (dailyRewardCap config)]
                                      else Js.Tpl "Daily reward limit reached: ${rewardCapCheck.usedToday}/${config.dailyRewardCap}"
                                             [Js.Num (usedToday rewardCapCheck); Js.Num (dailyRewardCap config)] |} in
        let '(riskScore, blockReason) :=
          if negb (allowed rewardCapCheck)
          then ((riskScore + 30)%Z, Js.or_text blockReason (Js.Lit "Daily reward limit exceeded"))
          else (riskScore, blockReason) in
        (* Per-match reward cap *)
        if Js.gtb rewardAmount (maxRewardPerMatch config) then
          ret (Js.push checks {| name := "PER_MATCH_CAP";
                             check_passed := false;
                             details := Js.Tpl "Reward ${params.rewardAmount} exceeds max ${config.maxRewardPerMatch}"
                                          [Js.Num rewardAmount; Js.Num (maxRewardPerMatch config)] |},
               (riskScore + 40)%Z,
               Js.or_text blockReason (Js.Lit "Per-match reward cap exceeded"))
        else
          ret (Js.push checks {| name := "PER_MATCH_CAP";
                             check_passed := true;
                             details := Js.Tpl "Reward ${params.rewardAmount} within limit"
                                          [Js.Num rewardAmount] |},
               riskScore, blockReason)
    | None => ret (checks, riskScore, blockReason)
    end ;;
  (* 7. Bot detection (if confidence provided) *)
  let '(checks, riskScore, blockReason) :=
    match botConfidence params with
    | Some botConfidence =>
        let isBanned := Js.geb botConfidence (banThreshold config) in
        let isSuspicious := Js.geb botConfidence (suspiciousThreshold config) in
        let checks := Js.push checks {| name := "BOT_DETECTION";
                                    check_passed := negb isBanned;
                                    details :=
                                      if isBanned
                                      then Js.Tpl "Bot confidence ${(params.botConfidence * 100).toFixed(0)}% exceeds ban threshold"
                                             [Js.Fixed0 (botConfidence * 100)]
                                      else if isSuspicious
                                      then Js.Tpl "Bot confidence ${(params.botConfidence * 100).toFixed(0)}% flagged for review"
                                             [Js.Fixed0 (botConfidence * 100)]
                                      else Js.Tpl "Bot confidence ${(params.botConfidence * 100).toFixed(0)}% OK"
                                             [Js.Fixed0 (botConfidence * 100)] |} in
        if isBanned
        then (checks, (riskScore + 50)%Z,
              Js.or_text blockReason (Js.Lit "Bot detection threshold exceeded"))
        else if isSuspicious
        then (checks, (riskScore + 20)%Z, blockReason)
        else (checks, riskScore, blockReason)
    | None => (checks, riskScore, blockReason)
    end in
  let allPassed := forallb check_passed checks in
  ret {| passed := allPassed;
         checks := checks;
         riskScore := Z.min 100 riskScore;
         blockReason := if allPassed then None else blockReason |}.

(** [Array.from(bytes).map((b) => b.toString(16).padStart(2, '0')).join('')] *)
Definition hexOf (bytes : list Byte.byte) : string :=
  String.concat ""
    (map (fun b => Js.padStart 2 "0" (Js.toString16 (Byte.to_N b))) bytes).

(** [verifyHmacSignature].  The HMAC-SHA-256 of [crypto.subtle] is a
    function [hmacSha256 key message] of the development; exceptions
    thrown by the crypto API are outside the model. *)
Section Hmac.

Variable hmacSha256 : list Byte.byte -> list Byte.byte -> list Byte.byte.

Definition verifyHmacSignature (payload signature secret : string) : bool :=
  let key := Js.encode secret in
  let signatureBytes := hmacSha256 key (Js.encode payload) in
  let expectedSignature := hexOf signatureBytes in
  (* Constant-time comparison *)
  if negb (Nat.eqb (String.length signature) (String.length expectedSignature))
  then false
  else
    let result :=
      fold_left
        (fun result i =>
           N.lor result
             (N.lxor (Js.charCodeAt signature i) (Js.charCodeAt expectedSignature i)))
        (seq 0 (String.length signature)) 0%N in
    N.eqb result 0.

End Hmac.

(** [generateSecureNonce]; [random] is what [crypto.getRandomValues]
    writes into the array of 32 bytes. *)
Definition generateSecureNonce (random : list Byte.byte) : string :=
  hexOf random.

End SecurityDb.

(** ** [match-validator.ts] *)

Module MatchValidator.
Import Store Query.
Local Open Scope monad_scope.
Local Open Scope string_scope.

Record AntiCheat : Type := {
  inputTimingVariance : Q;
  frameCount : Q;
  avgTickRate : Q;
  suspiciousFlags : list string
}.

Record MatchInput : Type := {
  walletAddress : string;
  matchId : string;
  placement : Q;
  playerCount : Q;
  durationMs : Q;
  kills : Q;
  antiCheat : AntiCheat
}.

Inductive Severity : Type := info | warning | critical.

Record ValidationFlag : Type := {
  code : string;
  severity : Severity;
  flag_message : Js.text
}.

Inductive ReasonCode : Type :=
| VALID
| DURATION_TOO_SHORT
| DURATION_TOO_LONG
| DURATION_IMPOSSIBLE
| ZERO_INPUT_VARIANCE
| LOW_INPUT_VARIANCE
| SUSPICIOUS_WIN_STREAK
| EXCESSIVE_WIN_RATE
| RAPID_MATCHES
| FRAME_COUNT_MISMATCH
| TICK_RATE_ANOMALY
| KILL_COUNT_IMPOSSIBLE
| PLACEMENT_INVALID
| BOT_DETECTED.

(** [reasonCode] is optional in [CheckResult]; [validateMatch] passes it on
    through a non-null assertion, so the result keeps the option. *)
Record ValidationResult : Type := {
  allowed : bool;
  reasonCode : option ReasonCode;
  reasonMessage : Js.text;
  riskScore : Z;
  flags : list ValidationFlag
}.

Record CheckResult : Type := {
  cr_flags : list ValidationFlag;
  cr_riskScore : Z;
  reject : bool;
  cr_reasonCode : option ReasonCode;
  message : Js.text
}.

(** [VALIDATION_CONFIG] *)
Record DurationLimits : Type := {
  min : Q;
  max : Q;
  typical_min : Q;
  typical_max : Q
}.

Definition DURATION : list (Z * DurationLimits) :=
  [ (2%Z, {| min := 10000; max := 180000; typical_min := 20000; typical_max := 120000 |});
    (3%Z, {| min := 15000; max := 240000; typical_min := 30000; typical_max := 150000 |});
    (5%Z, {| min := 20000; max := 300000; typical_min := 45000; typical_max := 200000 |}) ].

Definition MIN_TIME_PER_KILL : Q := 3000.
Definition ZERO_THRESHOLD : Q := 5.
Definition LOW_THRESHOLD : Q := 30.
Definition NORMAL_MIN : Q := 50.
Definition NORMAL_MAX : Q := 500.
Definition MAX_CONSECUTIVE_WINS : Z := 10.
Definition MAX_WIN_RATE_24H : Q := 85 # 100.
Definition MIN_MATCHES_FOR_RATE : nat := 5.
Definition RAPID_MATCH_WINDOW_MS : Z := 60000.
Definition MAX_RAPID_MATCHES : Z := 3.
Definition EXPECTED_TICK_RATE : Q := 60.
Definition TICK_RATE_TOLERANCE : Q := 3 # 10.
(** [RISK_THRESHOLDS] *)
Definition ALLOW : Z := 50.     (* Below 50 = allow *)
Definition FLAG : Z := 75.      (* 50-75 = allow but flag *)
Definition REJECT : Z := 100.   (* Above 75 = reject *)

Definition validateDuration (input : MatchInput) : CheckResult :=
  let flags := [] in
  let riskScore := 0%Z in
  match Js.lookup DURATION (playerCount input) with
  | None =>
      {| cr_flags := [{| code := "INVALID_PLAYER_COUNT"; severity := critical;
                         flag_message := Js.Tpl "Invalid player count: ${input.playerCount}"
                                           [Js.Num (playerCount input)] |}];
         cr_riskScore := 100;
         reject := true;
         cr_reasonCode := Some PLACEMENT_INVALID;
         message := Js.Lit "Invalid player count" |}
  | Some config =>
  (* Hard limits - reject immediately *)
  if Js.ltb (durationMs input) (min config) then
      {| cr_flags := [{| code := "DURATION_TOO_SHORT"; severity := critical;
                         flag_message := Js.Tpl "Duration ${input.durationMs}ms below minimum ${config.min}ms for ${input.playerCount} players"
                                           [Js.Num (durationMs input); Js.Num (min config);
                                            Js.Num (playerCount input)] |}];
         cr_riskScore := 100;
         reject := true;
         cr_reasonCode := Some DURATION_TOO_SHORT;
         message := Js.Tpl "Match duration impossibly short (${Math.round(input.durationMs / 1000)}s)"
                      [Js.Int (Js.round (durationMs input / 1000))] |}
  else if Js.gtb (durationMs input) (max config) then
      {| cr_flags := [{| code := "DURATION_TOO_LONG"; severity := critical;
                         flag_message := Js.Tpl "Duration ${input.durationMs}ms exceeds maximum ${config.max}ms"
                                           [Js.Num (durationMs input); Js.Num (max config)] |}];
         cr_riskScore := 100;
         reject := true;
         cr_reasonCode := Some DURATION_TOO_LONG;
         message := Js.Tpl "Match duration exceeds maximum (${Math.round(input.durationMs / 1000)}s)"
                      [Js.Int (Js.round (durationMs input / 1000))] |}
  else
  (* Check if 1st place with kills finished impossibly fast
     (the two nested tests of the source, as one conjunction) *)
  let minPossibleDuration := kills input * MIN_TIME_PER_KILL in
  if Js.eqb (placement input) 1 && Js.gtb (kills input) 0
     && Js.ltb (durationMs input) minPossibleDuration then
      {| cr_flags := [{| code := "DURATION_IMPOSSIBLE"; severity := critical;
                         flag_message := Js.Tpl "${input.kills} kills in ${input.durationMs}ms is impossible (min ${minPossibleDuration}ms)"
                                           [Js.Num (kills input); Js.Num (durationMs input);
                                            Js.Num minPossibleDuration] |}];
         cr_riskScore := 100;
         reject := true;
         cr_reasonCode := Some DURATION_IMPOSSIBLE;
         message := Js.Lit "Kill speed impossibly fast" |}
  else
  (* Soft limits - flag but allow *)
  let '(flags, riskScore) :=
    if Js.ltb (durationMs input) (typical_min config) then
      (Js.push flags {| code := "DURATION_UNUSUALLY_SHORT"; severity := warning;
                        flag_message := Js.Tpl "Duration ${input.durationMs}ms is unusually short"
                                          [Js.Num (durationMs input)] |},
       (riskScore + 15)%Z)
    else (flags, riskScore) in
  let '(flags, riskScore) :=
    if Js.gtb (durationMs input) (typical_max config) then
      (Js.push flags {| code := "DURATION_UNUSUALLY_LONG"; severity := info;
                        flag_message := Js.Tpl "Duration ${input.durationMs}ms is longer than typical"
                                          [Js.Num (durationMs input)] |},
       (riskScore + 5)%Z)
    else (flags, riskScore) in
  {| cr_flags := flags; cr_riskScore := riskScore; reject := false;
     cr_reasonCode := None; message := Js.Lit "Duration valid" |}
  end.

Definition validateInputVariance (input : MatchInput) : CheckResult :=
  let flags := [] in
  let riskScore := 0%Z in
  let variance := inputTimingVariance (antiCheat input) in
  (* Zero or near-zero variance = definite bot *)
  if Js.leb variance ZERO_THRESHOLD then
      {| cr_flags := [{| code := "ZERO_INPUT_VARIANCE"; severity := critical;
                         flag_message := Js.Tpl "Input timing variance ${variance}ms indicates automation"
                                           [Js.Num variance] |}];
         cr_riskScore := 100;
         reject := true;
         cr_reasonCode := Some ZERO_INPUT_VARIANCE;
         message := Js.Lit "Automated input detected (zero timing variance)" |}
  else
  (* Low variance = suspicious *)
  let '(flags, riskScore) :=
    if Js.leb variance LOW_THRESHOLD then
      let flags := Js.push flags {| code := "LOW_INPUT_VARIANCE"; severity := warning;
                                    flag_message := Js.Tpl "Input timing variance ${variance}ms is suspiciously consistent"
                                                      [Js.Num variance] |} in
      let riskScore := (riskScore + 35)%Z in
      (* If also 1st place, more suspicious *)
      if Js.eqb (placement input) 1 then
        (Js.push flags {| code := "LOW_VARIANCE_WINNER"; severity := warning;
                          flag_message := Js.Lit "Low variance combined with 1st place finish" |},
         (riskScore + 15)%Z)
      else (flags, riskScore)
    else (flags, riskScore) in
  (* Abnormally high variance could indicate lag switching *)
  let '(flags, riskScore) :=
    if Js.gtb variance NORMAL_MAX then
      (Js.push flags {| code := "HIGH_INPUT_VARIANCE"; severity := info;
                        flag_message := Js.Tpl "Input timing variance ${variance}ms is unusually high"
                                          [Js.Num variance] |},
       (riskScore + 10)%Z)
    else (flags, riskScore) in
  {| cr_flags := flags; cr_riskScore := riskScore; reject := false;
     cr_reasonCode := None; message := Js.Lit "Input variance acceptable" |}.

Definition validateKillCount (input : MatchInput) : CheckResult :=
  let flags := [] in
  let riskScore := 0%Z in
  (* Can't have more kills than other players *)
  if Js.geb (kills input) (playerCount input) then
      {| cr_flags := [{| code := "KILL_COUNT_IMPOSSIBLE"; severity := critical;
                         flag_message := Js.Tpl "${input.kills} kills impossible with ${input.playerCount} players"
                                           [Js.Num (kills input); Js.Num (playerCount input)] |}];
         cr_riskScore := 100;
         reject := true;
         cr_reasonCode := Some KILL_COUNT_IMPOSSIBLE;
         message := Js.Lit "Kill count exceeds possible opponents" |}
  else
  (* Can't have kills if not in top positions (simplified rule) *)
  let '(flags, riskScore) :=
    if Js.gtb (kills input) 0 && Js.eqb (placement input) (playerCount input) then
      (Js.push flags {| code := "KILLS_AS_LAST_PLACE"; severity := warning;
                        flag_message := Js.Tpl "${input.kills} kills but finished last place"
                                          [Js.Num (kills input)] |},
       (riskScore + 10)%Z)
    else (flags, riskScore) in
  (* Perfect game (1st with all kills) in short time is suspicious *)
  let '(flags, riskScore) :=
    if Js.eqb (placement input) 1 && Js.eqb (kills input) (playerCount input - 1) then
      let flags := Js.push flags {| code := "PERFECT_GAME"; severity := info;
                                    flag_message := Js.Lit "Perfect game (1st place, all kills)" |} in
      let riskScore := (riskScore + 10)%Z in
      (* Extra suspicious if very fast *)
      let typicalMin :=
        Js.or_num (option_map typical_min (Js.lookup DURATION (playerCount input))) 30000 in
      if Js.ltb (durationMs input) typicalMin then
        (Js.push flags {| code := "FAST_PERFECT_GAME"; severity := warning;
                          flag_message := Js.Lit "Perfect game completed unusually fast" |},
         (riskScore + 20)%Z)
      else (flags, riskScore)
    else (flags, riskScore) in
  {| cr_flags := flags; cr_riskScore := riskScore; reject := false;
     cr_reasonCode := None; message := Js.Lit "Kill count valid" |}.

Definition validateFrameData (input : MatchInput) : CheckResult :=
  let flags := [] in
  let riskScore := 0%Z in
  let expectedTicks := EXPECTED_TICK_RATE in
  let tolerance := TICK_RATE_TOLERANCE in
  let minTick := expectedTicks * (1 - tolerance) in
  let maxTick := expectedTicks * (1 + tolerance) in
  (* Tick rate outside normal range *)
  let '(flags, riskScore) :=
    if Js.ltb (avgTickRate (antiCheat input)) minTick
       || Js.gtb (avgTickRate (antiCheat input)) maxTick then
      (Js.push flags {| code := "TICK_RATE_ANOMALY"; severity := warning;
                        flag_message := Js.Tpl "Tick rate ${input.antiCheat.avgTickRate} outside expected range ${minTick}-${maxTick}"
                                          [Js.Num (avgTickRate (antiCheat input));
                                           Js.Num minTick; Js.Num maxTick] |},
       (riskScore + 15)%Z)
    else (flags, riskScore) in
  (* Frame count should roughly match duration * tick rate *)
  let expectedFrames := (durationMs input / 1000) * expectedTicks in
  let frameRatio := frameCount (antiCheat input) / expectedFrames in
  (* [frameRatio < 0.5 || frameRatio > 2.0]; when [expectedFrames] is zero
     the quotient is an infinity (one of the two tests holds) unless the
     frame count is zero too (not a number: neither test holds). *)
  let ratioOff :=
    if Js.eqb expectedFrames 0 then negb (Js.eqb (frameCount (antiCheat input)) 0)
    else Js.ltb frameRatio (1 # 2) || Js.gtb frameRatio 2 in
  let '(flags, riskScore) :=
    if ratioOff then
      (Js.push flags {| code := "FRAME_COUNT_MISMATCH"; severity := warning;
                        flag_message := Js.Tpl "Frame count ${input.antiCheat.frameCount} doesn't match duration (expected ~${Math.round(expectedFrames)})"
                                          [Js.Num (frameCount (antiCheat input));
                                           Js.Int (Js.round expectedFrames)] |},
       (riskScore + 20)%Z)
    else (flags, riskScore) in
  (* Client-reported suspicious flags *)
  let '(flags, riskScore) :=
    if (0 <? List.length (suspiciousFlags (antiCheat input)))%nat then
      (Js.push flags {| code := "CLIENT_SUSPICIOUS_FLAGS"; severity := warning;
                        flag_message := Js.Tpl "Client reported: ${input.antiCheat.suspiciousFlags.join(', ')}"
                                          [Js.Str (String.concat ", " (suspiciousFlags (antiCheat input)))] |},
       (riskScore + Z.of_nat (List.length (suspiciousFlags (antiCheat input))) * 10)%Z)
    else (flags, riskScore) in
  {| cr_flags := flags; cr_riskScore := riskScore; reject := false;
     cr_reasonCode := None; message := Js.Lit "Frame data acceptable" |}.

(** The loop of [analyzeWinPatterns]: leading 1st-place rows. *)
Fixpoint leadingWins (rows : list ProcessedMatch) : Z :=
  match rows with
  | [] => 0
  | m :: rest => if Js.eqb (pm_placement m) 1 then (1 + leadingWins rest)%Z else 0%Z
  end.

Definition analyzeWinPatterns (input : MatchInput) : M CheckResult :=
  let flags := [] in
  let riskScore := 0%Z in
  (* Get recent matches for this wallet (last 24 hours) *)
  now <- Date_now ;;
  let twentyFourHoursAgo := (now - 24 * 60 * 60 * 1000)%Z in
  '(recentMatches, error) <-
     select_recent_matches (walletAddress input) twentyFourHoursAgo 50 ;;
  match error, recentMatches with
  | Some _, _ =>
      (* Fail open but log *)
      ret {| cr_flags := flags; cr_riskScore := 0; reject := false;
             cr_reasonCode := None; message := Js.Lit "Could not analyze patterns" |}
  | None, None =>
      ret {| cr_flags := flags; cr_riskScore := 0; reject := false;
             cr_reasonCode := None; message := Js.Lit "Insufficient history" |}
  | None, Some recentMatches =>
  if (List.length recentMatches <? MIN_MATCHES_FOR_RATE)%nat then
      ret {| cr_flags := flags; cr_riskScore := 0; reject := false;
             cr_reasonCode := None; message := Js.Lit "Insufficient history" |}
  else
  (* Calculate win rate *)
  let wins := List.length (filter (fun m => Js.eqb (pm_placement m) 1) recentMatches) in
  let winRate := inject_Z (Z.of_nat wins) / inject_Z (Z.of_nat (List.length recentMatches)) in
  let '(flags, riskScore) :=
    if Js.gtb winRate MAX_WIN_RATE_24H then
      (Js.push flags {| code := "EXCESSIVE_WIN_RATE"; severity := warning;
                        flag_message := Js.Tpl "Win rate ${(winRate * 100).toFixed(0)}% in last 24h (${wins}/${recentMatches.length})"
                                          [Js.Fixed0 (winRate * 100); Js.Int (Z.of_nat wins);
                                           Js.Int (Z.of_nat (List.length recentMatches))] |},
       (riskScore + 25)%Z)
    else (flags, riskScore) in
  (* Check for consecutive wins (if this match is also a win) *)
  if Js.eqb (placement input) 1 then
    let consecutiveWins := leadingWins recentMatches in
    (* Add current match *)
    let consecutiveWins := (consecutiveWins + 1)%Z in
    if (MAX_CONSECUTIVE_WINS <=? consecutiveWins)%Z then
      let flags := Js.push flags {| code := "SUSPICIOUS_WIN_STREAK"; severity := warning;
                                    flag_message := Js.Tpl "${consecutiveWins} consecutive wins"
                                                      [Js.Int consecutiveWins] |} in
      let riskScore := (riskScore + 30)%Z in
      (* Extreme streak = reject *)
      if (MAX_CONSECUTIVE_WINS * 2 <=? consecutiveWins)%Z then
        ret {| cr_flags := flags; cr_riskScore := 100; reject := true;
               cr_reasonCode := Some SUSPICIOUS_WIN_STREAK;
               message := Js.Tpl "Impossible win streak (${consecutiveWins} in a row)"
                            [Js.Int consecutiveWins] |}
      else
        ret {| cr_flags := flags; cr_riskScore := riskScore; reject := false;
               cr_reasonCode := None; message := Js.Lit "Win patterns acceptable" |}
    else
      ret {| cr_flags := flags; cr_riskScore := riskScore; reject := false;
             cr_reasonCode := None; message := Js.Lit "Win patterns acceptable" |}
  else
    ret {| cr_flags := flags; cr_riskScore := riskScore; reject := false;
           cr_reasonCode := None; message := Js.Lit "Win patterns acceptable" |}
  end.

Definition detectRapidMatches (input : MatchInput) : M CheckResult :=
  let flags := [] in
  let riskScore := 0%Z in
  now0 <- Date_now ;;
  let windowStart := (now0 - RAPID_MATCH_WINDOW_MS * 5)%Z in
  '(recentMatches, error) <-
     select_recent_matches (walletAddress input) windowStart 10 ;;
  match error, recentMatches with
  | Some _, _ | None, None =>
      ret {| cr_flags := flags; cr_riskScore := 0; reject := false;
             cr_reasonCode := None; message := Js.Lit "Could not check rapid matches" |}
  | None, Some recentMatches =>
      (* Count matches within rapid window *)
      let rapidWindow := RAPID_MATCH_WINDOW_MS in
      now <- Date_now ;;
      let rapidCount :=
        Z.of_nat (List.length (filter (fun m => (now - processed_at m <? rapidWindow)%Z)
                                 recentMatches)) in
      let '(flags, riskScore) :=
        if (MAX_RAPID_MATCHES <=? rapidCount)%Z then
          (Js.push flags {| code := "RAPID_MATCHES"; severity := warning;
                            flag_message := Js.Tpl "${rapidCount} matches in last ${Math.round(rapidWindow / 1000)}s"
                                              [Js.Int rapidCount;
                                               Js.Int (Js.round (inject_Z rapidWindow / 1000))] |},
           (riskScore + 20)%Z)
        else (flags, riskScore) in
      ret {| cr_flags := flags; cr_riskScore := riskScore; reject := false;
             cr_reasonCode := None; message := Js.Lit "Match frequency acceptable" |}
  end.

Definition validateMatch (input : MatchInput) : M ValidationResult :=
  let flags := [] in
  let riskScore := 0%Z in
  (* 1. Duration Validation *)
  let durationResult := validateDuration input in
  let flags := (flags ++ cr_flags durationResult)%list in
  let riskScore := (riskScore + cr_riskScore durationResult)%Z in
  if reject durationResult then
    ret {| allowed := false; reasonCode := cr_reasonCode durationResult;
           reasonMessage := message durationResult; riskScore := 100; flags := flags |}
  else
  (* 2. Input Variance Validation (Bot Detection) *)
  let varianceResult := validateInputVariance input in
  let flags := (flags ++ cr_flags varianceResult)%list in
  let riskScore := (riskScore + cr_riskScore varianceResult)%Z in
  if reject varianceResult then
    ret {| allowed := false; reasonCode := cr_reasonCode varianceResult;
           reasonMessage := message varianceResult; riskScore := 100; flags := flags |}
  else
  (* 3. Kill Count Validation *)
  let killResult := validateKillCount input in
  let flags := (flags ++ cr_flags killResult)%list in
  let riskScore := (riskScore + cr_riskScore killResult)%Z in
  if reject killResult then
    ret {| allowed := false; reasonCode := cr_reasonCode killResult;
           reasonMessage := message killResult; riskScore := 100; flags := flags |}
  else
  (* 4. Frame/Tick Rate Validation *)
  let frameResult := validateFrameData input in
  let flags := (flags ++ cr_flags frameResult)%list in
  let riskScore := (riskScore + cr_riskScore frameResult)%Z in
  (* 5. Win Pattern Analysis (Database) *)
  winPatternResult <- analyzeWinPatterns input ;;
  let flags := (flags ++ cr_flags winPatternResult)%list in
  let riskScore := (riskScore + cr_riskScore winPatternResult)%Z in
  if reject winPatternResult then
    ret {| allowed := false; reasonCode := cr_reasonCode winPatternResult;
           reasonMessage := message winPatternResult; riskScore := 100; flags := flags |}
  else
  (* 6. Rapid Match Detection *)
  rapidResult <- detectRapidMatches input ;;
  let flags := (flags ++ cr_flags rapidResult)%list in
  let riskScore := (riskScore + cr_riskScore rapidResult)%Z in
  (* Final Decision *)
  let riskScore := Z.min 100 riskScore in
  if (REJECT <=? riskScore)%Z then
    ret {| allowed := false; reasonCode := Some BOT_DETECTED;
           reasonMessage := Js.Lit "Match rejected due to suspicious activity patterns";
           riskScore := riskScore; flags := flags |}
  else
    ret {| allowed := true; reasonCode := Some VALID;
           reasonMessage :=
             if (FLAG <=? riskScore)%Z
             then Js.Lit "Match allowed but flagged for review"
             else Js.Lit "Match validated successfully";
           riskScore := riskScore; flags := flags |}.

End MatchValidator.

(** ** [mcp-match-submit/index.ts] *)

Module MatchSubmit.
Import Store Query.
Local Open Scope monad_scope.
Local Open Scope string_scope.

Record AntiCheatSignals : Type := {
  inputHash : string;
  frameCount : Q;
  avgTickRate : Q;
  suspiciousFlags : list string;
  inputTimingVariance : Q;
  movementHash : string
}.

(** The parsed JSON body.  All ten required fields are present and have
    their JSON types; the checks on values are those of
    [validatePayloadStructure]. *)
Record MatchResultPayload : Type := {
  walletAddress : string;
  matchId : string;
  placement : Q;
  playerCount : Q;
  durationMs : Q;
  kills : Q;
  antiCheat : AntiCheatSignals;
  timestamp : Q;
  clientSignature : string;
  nonce : string
}.

Record ResponseData : Type := {
  allowed : bool;
  r_matchId : string;
  r_placement : Q;
  r_playerCount : Q;
  calculatedReward : Q;
  reasonCode : option MatchValidator.ReasonCode;
  reasonMessage : Js.text;
  riskScore : Z;
  validationFlags : list MatchValidator.ValidationFlag;
  rewardBreakdown : option RewardCalculator.RewardBreakdown;
  securityChecks : option (list SecurityDb.SecurityCheck)
}.

(** The four kinds of answer to a POST with a JSON body. *)
Inductive Response : Type :=
| BadRequest (error : Js.text)                            (* status 400 *)
| InternalError (error : Js.text)                         (* status 500 *)
| SecurityFailed (error : option Js.text)                 (* status 403 *)
                 (checks : list SecurityDb.SecurityCheck) (risk : Z)
| Ok (data : ResponseData).                               (* status 200 *)

(** [validatePayloadStructure]: [None] is [{ valid: true }]. *)
Definition validatePayloadStructure (p : MatchResultPayload) : M (option Js.text) :=
  if negb (SecurityDb.is_eth_address (walletAddress p)) then
    ret (Some (Js.Lit "Invalid wallet address format"))
  else if (String.length (matchId p) <? 32)%nat then
    ret (Some (Js.Lit "Invalid matchId format"))
  else if (String.length (nonce p) <? 32)%nat then
    ret (Some (Js.Lit "Invalid nonce format"))
  else if Js.ltb (placement p) 1 || Js.gtb (placement p) 5 then
    ret (Some (Js.Lit "Placement must be between 1 and 5"))
  else if negb (existsb (Js.eqb (playerCount p)) [2; 3; 5]) then
    ret (Some (Js.Lit "Player count must be 2, 3, or 5"))
  else if Js.gtb (placement p) (playerCount p) then
    ret (Some (Js.Lit "Placement cannot exceed player count"))
  else if Js.ltb (durationMs p) 0 then
    ret (Some (Js.Lit "Invalid duration"))
  else if Js.ltb (kills p) 0 then
    ret (Some (Js.Lit "Invalid kill count"))
  else
    now <- Date_now ;;
    let timeDiff := Qabs (inject_Z now - timestamp p) in
    if Js.gtb timeDiff 300000 then
      ret (Some (Js.Lit "Timestamp too old"))
    else ret None.

(** The parameter object of the handler's call to
    [performFullSecurityCheck]: neither [rewardAmount] nor [botConfidence]
    is given. *)
Definition securityParamsOf (payload : MatchResultPayload) : SecurityDb.Params :=
  {| SecurityDb.walletAddress := walletAddress payload;
     SecurityDb.matchId := matchId payload;
     SecurityDb.p_nonce := nonce payload;
     SecurityDb.endpoint := "match-submit";
     SecurityDb.rewardAmount := None;
     SecurityDb.botConfidence := None |}.

(** The [matchInput] object handed to [validateMatch]. *)
Definition matchInputOf (payload : MatchResultPayload) : MatchValidator.MatchInput :=
  {| MatchValidator.walletAddress := walletAddress payload;
     MatchValidator.matchId := matchId payload;
     MatchValidator.placement := placement payload;
     MatchValidator.playerCount := playerCount payload;
     MatchValidator.durationMs := durationMs payload;
     MatchValidator.kills := kills payload;
     MatchValidator.antiCheat :=
       {| MatchValidator.inputTimingVariance := inputTimingVariance (antiCheat payload);
          MatchValidator.frameCount := frameCount (antiCheat payload);
          MatchValidator.avgTickRate := avgTickRate (antiCheat payload);
          MatchValidator.suspiciousFlags := suspiciousFlags (antiCheat payload) |} |}.

(** The [matchData] object the handler builds for [calculateReward] from
    the payload and the risk score of the validation result. *)
Definition matchDataOf (payload : MatchResultPayload) (validationRiskScore : Z)
  : RewardCalculator.MatchData :=
  {| RewardCalculator.placement := placement payload;
     RewardCalculator.playerCount := playerCount payload;
     RewardCalculator.kills := kills payload;
     RewardCalculator.durationMs := durationMs payload;
     RewardCalculator.antiCheatPassed := (validationRiskScore <? 50)%Z;
     RewardCalculator.botConfidence := inject_Z validationRiskScore / 100 |}.

Definition handler (payload : MatchResultPayload) : M Response :=
  (* Validate structure *)
  structureCheck <- validatePayloadStructure payload ;;
  match structureCheck with
  | Some error => ret (BadRequest error)
  | None =>
  (* Initialize Supabase *)
  env <- get env_ok ;;
  if negb env then ret (InternalError (Js.Lit "Internal server error")) else
  (* Security checks (replay, rate limit, etc.) *)
  securityResult <-
    SecurityDb.performFullSecurityCheck (securityParamsOf payload)
      SecurityDb.DEFAULT_SECURITY_CONFIG ;;
  if negb (SecurityDb.passed securityResult) then
    ret (SecurityFailed (SecurityDb.blockReason securityResult)
                        (SecurityDb.checks securityResult)
                        (SecurityDb.riskScore securityResult))
  else
  (* Match validation (anti-farming rules) *)
  let matchInput := matchInputOf payload in
  validationResult <- MatchValidator.validateMatch matchInput ;;
  (* Calculate reward (only if allowed) *)
  let rewardCalculation :=
    if MatchValidator.allowed validationResult then
      let matchData := matchDataOf payload (MatchValidator.riskScore validationResult) in
      Some (RewardCalculator.calculateReward matchData)
    else None in
  (* Build response *)
  let responseData :=
    {| allowed := MatchValidator.allowed validationResult;
       r_matchId := matchId payload;
       r_placement := placement payload;
       r_playerCount := playerCount payload;
       calculatedReward :=
         match rewardCalculation with
         | Some rc => RewardCalculator.totalReward rc
         | None => 0
         end;
       reasonCode := MatchValidator.reasonCode validationResult;
       reasonMessage := MatchValidator.reasonMessage validationResult;
       riskScore := MatchValidator.riskScore validationResult;
       validationFlags := MatchValidator.flags validationResult;
       rewardBreakdown := option_map RewardCalculator.breakdown rewardCalculation;
       securityChecks := Some (SecurityDb.checks securityResult) |} in
  (* Record match (if allowed) *)
  (if MatchValidator.allowed validationResult then
     SecurityDb.recordDailyUsage (walletAddress payload) match_ 1 (matchId payload) ;;
     SecurityDb.recordProcessedMatch (matchId payload) (walletAddress payload)
       (placement payload)
       match rewardCalculation with
       | Some rc => RewardCalculator.totalReward rc
       | None => 0
       end
       None
   else ret tt) ;;
  ret (Ok responseData)
  end.

End MatchSubmit.

(** ** Runs of several requests *)

Module Run.
Import Store.

(** The world at the arrival of a request: the clock has moved to [t] and
    the store errors of the request are [fs]. *)
Definition arrive (t : Z) (fs : list (option string)) (w : World) : World :=
  {| nonces := nonces w; rate_limits := rate_limits w;
     daily_usage := daily_usage w; processed_matches := processed_matches w;
     clock := t; env_ok := env_ok w; faults := fs |}.

Record SecurityRequest : Type := {
  at_time : Z;
  store_errors : list (option string);
  params : SecurityDb.Params
}.

(** Security checks served one after the other. *)
Fixpoint securityChecks (cfg : SecurityDb.SecurityConfig)
  (reqs : list SecurityRequest) (w : World)
  : list SecurityDb.SecurityCheckResult * World :=
  match reqs with
  | [] => ([], w)
  | r :: rest =>
      let (res, w1) :=
        SecurityDb.performFullSecurityCheck (params r) cfg
          (arrive (at_time r) (store_errors r) w) in
      let (ress, w2) := securityChecks cfg rest w1 in
      (res :: ress, w2)
  end.

Record SubmitRequest : Type := {
  s_time : Z;
  s_errors : list (option string);
  payload : MatchSubmit.MatchResultPayload
}.


End Run.

(** ** Vocabulary of the specification *)

Module SecuritySpec.
Import Store SecurityDb.
Local Open Scope string_scope.

(** Weight of a sub-check when it fails, by the name of its entry. *)
Definition weight (c : SecurityCheck) : Z :=
  if String.eqb (name c) "WALLET_VALIDATION" then 100
  else if String.eqb (name c) "REPLAY_PREVENTION" then 50
  else if String.eqb (name c) "RATE_LIMIT" then 40
  else if String.eqb (name c) "MATCH_UNIQUENESS" then 60
  else if String.eqb (name c) "DAILY_MATCH_CAP" then 30
  else if String.eqb (name c) "DAILY_REWARD_CAP" then 30
  else if String.eqb (name c) "PER_MATCH_CAP" then 40
  else if String.eqb (name c) "BOT_DETECTION" then 50
  else 0.

(** Sum of the weights of the sub-checks that ran and failed. *)
Definition failedWeights (cs : list SecurityCheck) : Z :=
  fold_right (fun c acc => if check_passed c then acc else (weight c + acc)%Z) 0%Z cs.

(** The message a failed sub-check offers as block reason: the reason it
    reported, and for the caps and the bot gate a fixed sentence. *)
Definition blockMessage (c : SecurityCheck) : Js.text :=
  if String.eqb (name c) "DAILY_MATCH_CAP" then Js.Lit "Daily match limit exceeded"
  else if String.eqb (name c) "DAILY_REWARD_CAP" then Js.Lit "Daily reward limit exceeded"
  else if String.eqb (name c) "PER_MATCH_CAP" then Js.Lit "Per-match reward cap exceeded"
  else if String.eqb (name c) "BOT_DETECTION" then Js.Lit "Bot detection threshold exceeded"
  else details c.

(** First failed sub-check in the order the checks ran. *)
Definition firstFailure (cs : list SecurityCheck) : option SecurityCheck :=
  find (fun c => negb (check_passed c)) cs.

(** The sub-checks in their fixed order; the reward caps and the bot gate
    run only when their parameter is given. *)
Definition fixedOrder (params : Params) : list string :=
  ["WALLET_VALIDATION"; "REPLAY_PREVENTION"; "RATE_LIMIT"; "MATCH_UNIQUENESS";
   "DAILY_MATCH_CAP"]
  ++ (match rewardAmount params with
      | Some _ => ["DAILY_REWARD_CAP"; "PER_MATCH_CAP"]
      | None => []
      end)
  ++ (match botConfidence params with
      | Some _ => ["BOT_DETECTION"]
      | None => []
      end).

(** The non-fatal contribution of the bot gate: 20 when the confidence
    reaches the suspicious threshold without reaching the ban threshold. *)
Definition suspiciousWeight (params : Params) (config : SecurityConfig) : Z :=
  match botConfidence params with
  | Some c =>
      if Js.geb c (banThreshold config) then 0
      else if Js.geb c (suspiciousThreshold config) then 20
      else 0
  | None => 0
  end.

(** The outcome of one sub-check as [performFullSecurityCheck] uses it: the
    entry it pushes, the weight it adds and the block reason it offers when
    the sub-check failed. *)
Record Outcome : Type := {
  entry : SecurityCheck;
  o_weight : Z;
  o_reason : Js.text
}.

(** The outcomes of the sub-checks of one call, in the order they run. *)
Definition outcomes (params : Params) (config : SecurityConfig)
  (walletCheck : bool * Js.text) (nonceCheck : NonceCheckResult)
  (rateCheck : RateLimitResult) (matchCheck : bool * Js.text)
  (matchCapCheck : DailyCapResult) (rewardCapCheck : option DailyCapResult)
  : list Outcome :=
  ([ {| entry := {| name := "WALLET_VALIDATION"; check_passed := fst walletCheck;
                   details := snd walletCheck |};
       o_weight := 100; o_reason := snd walletCheck |};
    {| entry := {| name := "REPLAY_PREVENTION"; check_passed := valid nonceCheck;
                   details := reason nonceCheck |};
       o_weight := 50; o_reason := reason nonceCheck |};
    {| entry := {| name := "RATE_LIMIT"; check_passed := rl_allowed rateCheck;
                   details := rl_details rateCheck |};
       o_weight := 40; o_reason := rl_details rateCheck |};
    {| entry := {| name := "MATCH_UNIQUENESS"; check_passed := fst matchCheck;
                   details := snd matchCheck |};
       o_weight := 60; o_reason := snd matchCheck |};
    {| entry := {| name := "DAILY_MATCH_CAP"; check_passed := allowed matchCapCheck;
                   details :=
                     if allowed matchCapCheck
                     then Js.Tpl "Matches today: ${matchCapCheck.usedToday}/${config.dailyMatchCap}"
                            [Js.Num (usedToday matchCapCheck); Js.Num (dailyMatchCap config)]
                     else Js.Tpl "Daily match limit reached: ${matchCapCheck.usedToday}/${config.dailyMatchCap}"
                            [Js.Num (usedToday matchCapCheck); Js.Num (dailyMatchCap config)] |};
       o_weight := 30; o_reason := Js.Lit "Daily match limit exceeded" |} ]
  ++ match rewardAmount params, rewardCapCheck with
     | Some rewardAmount, Some rewardCapCheck =>
         [ {| entry := {| name := "DAILY_REWARD_CAP"; check_passed := allowed rewardCapCheck;
                          details :=
                            if allowed rewardCapCheck
                            then Js.Tpl "Rewards today: ${rewardCapCheck.usedToday}/${config.dailyRewardCap}"
                                   [Js.Num (usedToday rewardCapCheck); Js.Num (dailyRewardCap config)]
                            else Js.Tpl "Daily reward limit reached: ${rewardCapCheck.usedToday}/${config.dailyRewardCap}"
                                   [Js.Num (usedToday rewardCapCheck); Js.Num (dailyRewardCap config)] |};
              o_weight := 30; o_reason := Js.Lit "Daily reward limit exceeded" |};
           {| entry := {| name := "PER_MATCH_CAP";
                          check_passed := negb (Js.gtb rewardAmount (maxRewardPerMatch config));
                          details :=
                            if Js.gtb rewardAmount (maxRewardPerMatch config)
                            then Js.Tpl "Reward ${params.rewardAmount} exceeds max ${config.maxRewardPerMatch}"
                                   [Js.Num rewardAmount; Js.Num (maxRewardPerMatch config)]
                            else Js.Tpl "Reward ${params.rewardAmount} within limit"
                                   [Js.Num rewardAmount] |};
              o_weight := 40; o_reason := Js.Lit "Per-match reward cap exceeded" |} ]
     | _, _ => []
     end
  ++ match botConfidence params with
     | Some botConfidence =>
         let isBanned := Js.geb botConfidence (banThreshold config) in
         let isSuspicious := Js.geb botConfidence (suspiciousThreshold config) in
         [ {| entry := {| name := "BOT_DETECTION"; check_passed := negb isBanned;
                          details :=
                            if isBanned
                            then Js.Tpl "Bot confidence ${(params.botConfidence * 100).toFixed(0)}% exceeds ban threshold"
                                   [Js.Fixed0 (botConfidence * 100)]
                            else if isSuspicious
                            then Js.Tpl "Bot confidence ${(params.botConfidence * 100).toFixed(0)}% flagged for review"
                                   [Js.Fixed0 (botConfidence * 100)]
                            else Js.Tpl "Bot confidence ${(params.botConfidence * 100).toFixed(0)}% OK"
                                   [Js.Fixed0 (botConfidence * 100)] |};
              o_weight := 50; o_reason := Js.Lit "Bot detection threshold exceeded" |} ]
     | None => []
     end)%list.


(** [if (!passed) { riskScore += weight; blockReason = blockReason || reason }] *)
Definition stepOutcome (acc : Z * option Js.text) (o : Outcome) : Z * option Js.text :=
  if negb (check_passed (entry o))
  then ((fst acc + o_weight o)%Z, Js.or_text (snd acc) (o_reason o))
  else acc.

(** The result built from the outcomes; [bonus] is the non-fatal
    contribution of the bot gate. *)
Definition assemble (outs : list Outcome) (bonus : Z) : SecurityCheckResult :=
  let checks := map entry outs in
  let acc := fold_left stepOutcome outs (0%Z, None) in
  let allPassed := forallb check_passed checks in
  {| passed := allPassed; checks := checks;
     riskScore := Z.min 100 (fst acc + bonus);
     blockReason := if allPassed then None else snd acc |}.

(** The reward-cap lookup, made only when a reward amount is given. *)
Definition rewardCapRun (params : Params) (config : SecurityConfig) (w : World)
  : option DailyCapResult * World :=
  match rewardAmount params with
  | Some a => let r := checkDailyCap (walletAddress params) reward a config w in
              (Some (fst r), snd r)
  | None => (None, w)
  end.

(** A NonceRecord for the value exists. *)
Definition nonceUsed (n : string) (w : World) : bool :=
  existsb (fun r => String.eqb (nonce r) n) (nonces w).

(** The two reasons with which a replayed nonce is refused. *)
Definition replayReason (d : Js.text) : Prop :=
  d = Js.Lit "Nonce already used (replay attack detected)" \/
  d = Js.Lit "Concurrent replay attack detected".

(** The next [k] round trips reach the store. *)
Definition storeReachable (k : nat) (w : World) : Prop :=
  Forall (fun f => f = None) (firstn k (faults w)).

(** Number of checks of a run that submitted the nonce [n] and passed. *)
Fixpoint successes (n : string) (reqs : list Run.SecurityRequest)
  (results : list SecurityCheckResult) : nat :=
  match reqs, results with
  | r :: reqs', res :: results' =>
      ((if String.eqb (p_nonce (Run.params r)) n && passed res then 1 else 0)
       + successes n reqs' results')%nat
  | _, _ => 0%nat
  end.


(** The world in which [performFullSecurityCheck] makes its rate-limit
    lookup, and the one in which it makes its match-uniqueness lookup. *)
Definition atRateLimitCheck (params : Params) (config : SecurityConfig)
  (w : World) : World :=
  snd (checkAndConsumeNonce (p_nonce params) (walletAddress params) config w).

Definition atMatchUniquenessCheck (params : Params) (config : SecurityConfig)
  (w : World) : World :=
  snd (checkRateLimit (walletAddress params) (endpoint params) config
         (atRateLimitCheck params config w)).

End SecuritySpec.

(** ** Views on one security check *)

Module SecurityView.
Import Store SecurityDb SecuritySpec.
Local Open Scope string_scope.

(** The results of the nonce, rate-limit and match-uniqueness sub-checks
    inside one call of [performFullSecurityCheck]. *)
Definition nonceResult (params : Params) (config : SecurityConfig) (w : World)
  : NonceCheckResult :=
  fst (checkAndConsumeNonce (p_nonce params) (walletAddress params) config w).

Definition rateResult (params : Params) (config : SecurityConfig) (w : World)
  : RateLimitResult :=
  fst (checkRateLimit (walletAddress params) (endpoint params) config
         (atRateLimitCheck params config w)).

Definition matchResult (params : Params) (config : SecurityConfig) (w : World)
  : bool * Js.text :=
  fst (checkMatchUniqueness (matchId params) (atMatchUniquenessCheck params config w)).

(** The outcomes of all sub-checks of one call. *)
Definition allOutcomes (params : Params) (config : SecurityConfig) (w : World)
  : list Outcome :=
  let nc := checkAndConsumeNonce (p_nonce params) (walletAddress params) config w in
  let rc := checkRateLimit (walletAddress params) (endpoint params) config (snd nc) in
  let mc := checkMatchUniqueness (matchId params) (snd rc) in
  let dc := checkDailyCap (walletAddress params) match_ 1 config (snd mc) in
  let ec := rewardCapRun params config (snd dc) in
  outcomes params config (validateWalletAddress (walletAddress params))
    (fst nc) (fst rc) (fst mc) (fst dc) (fst ec).

(** An outcome carries the weight and the block message that the
    specification attaches to its entry, and its reason is not empty. *)
Definition outcome_ok (o : Outcome) : Prop :=
  weight (entry o) = o_weight o /\
  blockMessage (entry o) = o_reason o /\
  Js.truthy (o_reason o) = true.

(** A block reason that a later [||] cannot replace. *)
Definition settled (br : option Js.text) : Prop :=
  match br with Some t => Js.truthy t = true | None => True end.

(** A record for [n] stamped at [T] or later is in the nonce table. *)
Definition recorded_since (n : string) (T : Z) (w : World) : Prop :=
  exists r, In r (nonces w) /\ nonce r = n /\ (T <= used_at r)%Z.

(** All requests of a run arrive within one nonce-expiry window that
    starts at [T]. *)
Definition in_window (config : SecurityConfig) (T : Z)
  (reqs : list Run.SecurityRequest) : Prop :=
  forall r, In r reqs ->
    (T <= Run.at_time r)%Z /\ (Run.at_time r <= T + nonceExpiryMs config)%Z.

(** The names of the five sub-checks that always run. *)
Definition five : list string :=
  ["WALLET_VALIDATION"; "REPLAY_PREVENTION"; "RATE_LIMIT"; "MATCH_UNIQUENESS";
   "DAILY_MATCH_CAP"].

End SecurityView.

(** ** Footprints: what a computation leaves unchanged *)

Module Footprint.
Import Store.

(** [m] relates every world to the world it leaves behind. *)
Definition keeps (R : World -> World -> Prop) {A : Type} (m : M A) : Prop :=
  forall w, R w (snd (m w)).

(** Clock, environment, daily usage and processed matches are untouched. *)
Definition same_static (w w' : World) : Prop :=
  clock w' = clock w /\ env_ok w' = env_ok w /\
  daily_usage w' = daily_usage w /\ processed_matches w' = processed_matches w.

(** All four tables, the clock and the environment are untouched. *)
Definition same_tables (w w' : World) : Prop :=
  nonces w' = nonces w /\ rate_limits w' = rate_limits w /\
  daily_usage w' = daily_usage w /\ processed_matches w' = processed_matches w /\
  clock w' = clock w /\ env_ok w' = env_ok w.

(** The nonce table is untouched. *)
Definition same_nonces (w w' : World) : Prop := nonces w' = nonces w.

(** The daily-usage table only grows, and only by match-type rows. *)
Definition usage_grows (w w' : World) : Prop :=
  exists l, daily_usage w' = (daily_usage w ++ l)%list /\
            Forall (fun r => usage_type r = match_) l.

End Footprint.


(** ** [contract-service.ts] *)

Module ContractService.
Local Open Scope string_scope.

Record TransactionResult : Type := {
  success : bool;
  txHash : option string;
  blockNumber : option Z;
  gasUsed : option string;
  error : option string;
  errorCode : option string
}.

(** [matchIdToBytes32]; a [bigint] is an integer. *)
Definition matchIdToBytes32 (matchId : string) : string :=
  let data := Js.encode matchId in
  let hash :=
    fold_left
      (fun hash b =>
         let hash := Z.lor (Z.shiftl hash 8) (Z.of_N (Byte.to_N b)) in
         Z.land hash (Z.shiftl 1 256 - 1))   (* Keep it 256 bits *)
      data 0%Z in
  "0x" ++ Js.padStart 64 "0" (Js.toString16 (Z.to_N hash)).

End ContractService.

(** ** [mcp-reward-grant/index.ts] *)

Module RewardGrant.
Import Store Query.
Local Open Scope monad_scope.
Local Open Scope string_scope.

(** The parsed JSON body.  All eight required fields are present and have
    their JSON types; the checks on values are those of [validatePayload]. *)
Record RewardGrantPayload : Type := {
  walletAddress : string;
  matchId : string;
  rewardAmount : Q;
  placement : Q;
  playerCount : Q;
  nonce : string;
  timestamp : Q;
  serverSignature : string
}.

Record RewardGrantResult : Type := {
  success : bool;
  r_matchId : string;
  r_walletAddress : string;
  r_rewardAmount : Q;
  txHash : option string;
  blockNumber : option Z
}.

(** The object whose JSON text is signed: the payload without its
    signature. *)
Record SignedFields : Type := {
  s_walletAddress : string;
  s_matchId : string;
  s_rewardAmount : Q;
  s_placement : Q;
  s_playerCount : Q;
  s_nonce : string;
  s_timestamp : Q
}.

(** The seven kinds of answer to a POST with a JSON body. *)
Inductive Response : Type :=
| BadRequest (error : Js.text)                            (* status 400 *)
| ConfigurationError (error : Js.text)                    (* status 500 *)
| InvalidSignature (error : Js.text)                      (* status 403 *)
| InternalError (error : Js.text)                         (* status 500 *)
| SecurityFailed (error : option Js.text)                 (* status 403 *)
                 (checks : list SecurityDb.SecurityCheck) (risk : Z)
| ContractFailed (error : Js.text) (errorCode : option string)  (* status 400 *)
| Granted (data : RewardGrantResult).                     (* status 200 *)

(** [validatePayload]: [None] is [{ valid: true }]. *)
Definition validatePayload (p : RewardGrantPayload) : M (option Js.text) :=
  if negb (SecurityDb.is_eth_address (walletAddress p)) then
    ret (Some (Js.Lit "Invalid wallet address format"))
  else if (String.length (matchId p) <? 32)%nat then
    ret (Some (Js.Lit "Invalid matchId format"))
  else if (String.length (nonce p) <? 32)%nat then
    ret (Some (Js.Lit "Invalid nonce format"))
  else if Js.leb (rewardAmount p) 0 || Js.gtb (rewardAmount p) 1000 then
    ret (Some (Js.Lit "Invalid reward amount (must be 0-1000)"))
  else
    now <- Date_now ;;
    let timeDiff := Qabs (inject_Z now - timestamp p) in
    if Js.gtb timeDiff 300000 then
      ret (Some (Js.Lit "Timestamp too old"))
    else if (String.length (serverSignature p) <? 32)%nat then
      ret (Some (Js.Lit "Invalid server signature"))
    else ret None.

Definition signedFieldsOf (payload : RewardGrantPayload) : SignedFields :=
  {| s_walletAddress := walletAddress payload;
     s_matchId := matchId payload;
     s_rewardAmount := rewardAmount payload;
     s_placement := placement payload;
     s_playerCount := playerCount payload;
     s_nonce := nonce payload;
     s_timestamp := timestamp payload |}.

(** The parameter object of the handler's call to
    [performFullSecurityCheck]: the reward amount is given, the bot
    confidence is not. *)
Definition securityParamsOf (payload : RewardGrantPayload) : SecurityDb.Params :=
  {| SecurityDb.walletAddress := walletAddress payload;
     SecurityDb.matchId := matchId payload;
     SecurityDb.p_nonce := nonce payload;
     SecurityDb.endpoint := "reward-grant";
     SecurityDb.rewardAmount := Some (rewardAmount payload);
     SecurityDb.botConfidence := None |}.

(** [txResult.errorCode === code] *)
Definition code_is (c : option string) (code : string) : bool :=
  match c with
  | Some s => String.eqb s code
  | None => false
  end.

(** Map contract errors to user-friendly messages *)
Definition userErrorOf (txResult : ContractService.TransactionResult) : Js.text :=
  if code_is (ContractService.errorCode txResult) "MATCH_ALREADY_REWARDED" then
    Js.Lit "This match has already been rewarded"
  else if code_is (ContractService.errorCode txResult) "EXCEEDS_DAILY_CAP" then
    Js.Lit "Daily reward limit reached"
  else if code_is (ContractService.errorCode txResult) "CONTRACT_PAUSED" then
    Js.Lit "Reward system temporarily paused"
  else Js.Lit "Failed to process reward".

(** The handler.  Outside the store it depends on the HMAC primitive, on
    [JSON.stringify], on the environment variable [MCP_SIGNING_SECRET] and
    on the answer [txResult] of [contractService.grantReward], which is an
    input of the request. *)
Section Handler.

Variable hmacSha256 : list Byte.byte -> list Byte.byte -> list Byte.byte.
Variable JSON_stringify : SignedFields -> string.
Variable signingSecret : option string.

Definition handler (payload : RewardGrantPayload)
  (txResult : ContractService.TransactionResult) : M Response :=
  (* Validate payload structure *)
  validationResult <- validatePayload payload ;;
  match validationResult with
  | Some error => ret (BadRequest error)
  | None =>
  (* Verify server signature *)
  match signingSecret with
  | None => ret (ConfigurationError (Js.Lit "Server configuration error"))
  | Some secret =>
  if String.eqb secret "" then
    ret (ConfigurationError (Js.Lit "Server configuration error"))
  else
  let payloadForSignature := JSON_stringify (signedFieldsOf payload) in
  let signatureValid :=
    SecurityDb.verifyHmacSignature hmacSha256 payloadForSignature
      (serverSignature payload) secret in
  if negb signatureValid then
    ret (InvalidSignature (Js.Lit "Invalid server signature"))
  else
  (* Security checks *)
  env <- get env_ok ;;
  if negb env then ret (InternalError (Js.Lit "Internal server error")) else
  securityResult <-
    SecurityDb.performFullSecurityCheck (securityParamsOf payload)
      SecurityDb.DEFAULT_SECURITY_CONFIG ;;
  if negb (SecurityDb.passed securityResult) then
    ret (SecurityFailed
           (Js.or_text (SecurityDb.blockReason securityResult)
              (Js.Lit "Security check failed"))
           (SecurityDb.checks securityResult)
           (SecurityDb.riskScore securityResult))
  else
  (* Call smart contract *)
  if negb (ContractService.success txResult) then
    ret (ContractFailed (userErrorOf txResult) (ContractService.errorCode txResult))
  else
  (* Record success *)
  SecurityDb.recordDailyUsage (walletAddress payload) reward (rewardAmount payload)
    (matchId payload) ;;
  SecurityDb.recordProcessedMatch (matchId payload) (walletAddress payload)
    (placement payload) (rewardAmount payload) (ContractService.txHash txResult) ;;
  ret (Granted {| success := true;
                  r_matchId := matchId payload;
                  r_walletAddress := walletAddress payload;
                  r_rewardAmount := rewardAmount payload;
                  txHash := ContractService.txHash txResult;
                  blockNumber := ContractService.blockNumber txResult |})
  end
  end.

End Handler.

End RewardGrant.

(** ** Runs of requests to both endpoints *)

Module Pipeline.
Import Store.

Inductive Request : Type :=
| SubmitMatch (payload : MatchSubmit.MatchResultPayload)
| GrantReward (payload : RewardGrant.RewardGrantPayload)
              (txResult : ContractService.TransactionResult).

(** A request, the time at which it arrives and the store errors it meets. *)
Record Arrival : Type := {
  a_time : Z;
  a_errors : list (option string);
  a_request : Request
}.

Inductive Answer : Type :=
| Submitted (r : MatchSubmit.Response)
| Answered (r : RewardGrant.Response).

Section Serve.

Variable hmacSha256 : list Byte.byte -> list Byte.byte -> list Byte.byte.
Variable JSON_stringify : RewardGrant.SignedFields -> string.
Variable signingSecret : option string.

Definition serveOne (r : Request) : M Answer :=
  match r with
  | SubmitMatch payload =>
      fun w => let (res, w') := MatchSubmit.handler payload w in (Submitted res, w')
  | GrantReward payload txResult =>
      fun w =>
        let (res, w') :=
          RewardGrant.handler hmacSha256 JSON_stringify signingSecret payload txResult w in
        (Answered res, w')
  end.

(** Requests served one after the other. *)
Fixpoint serve (reqs : list Arrival) (w : World) : list Answer * World :=
  match reqs with
  | [] => ([], w)
  | r :: rest =>
      let (res, w1) := serveOne (a_request r) (Run.arrive (a_time r) (a_errors r) w) in
      let (ress, w2) := serve rest w1 in
      (res :: ress, w2)
  end.

End Serve.

End Pipeline.

(** ** IEEE 754 doubles

    The numbers of the source are binary64 values.  Where overflow, [NaN]
    or rounding decide what a function returns, the function is embedded a
    second time on doubles, as [SpecFloat] specifies them. *)

Module Double.
Local Open Scope Z_scope.

Definition number : Type := spec_float.

Definition prec : Z := 53.
Definition emax : Z := 1024.

Definition NaN : number := S754_nan.

(** [a + b], [a - b], [a * b], [a / b]: rounded to the nearest double,
    ties to even. *)
Definition add : number -> number -> number := SFadd prec emax.
Definition sub : number -> number -> number := SFsub prec emax.
Definition mul : number -> number -> number := SFmul prec emax.
Definition div : number -> number -> number := SFdiv prec emax.

(** [a < b], [a <= b], [a > b], [a >= b], [a === b]: all false when an
    operand is [NaN]. *)
Definition ltb : number -> number -> bool := SFltb.
Definition leb : number -> number -> bool := SFleb.
Definition gtb (a b : number) : bool := SFltb b a.
Definition geb (a b : number) : bool := SFleb b a.
Definition eqb : number -> number -> bool := SFeqb.

(** An integer literal: the nearest double. *)
Definition ofZ (z : Z) : number := binary_normalize prec emax z 0 false.

(** The decimal literal [m / 10^k] with [|m| < 2^53] and [k <= 22]: both
    operands are doubles, so the one rounding of the division gives the
    double nearest to the literal. *)
Definition dec (m k : Z) : number := div (ofZ m) (ofZ (10 ^ k)).

Definition isNaN (x : number) : bool :=
  match x with
  | S754_nan => true
  | _ => false
  end.

(** Neither [NaN] nor an infinity. *)
Definition finite (x : number) : bool :=
  match x with
  | S754_zero _ | S754_finite _ _ _ => true
  | _ => false
  end.

(** Truthiness of a number: [0], [-0] and [NaN] are falsy. *)
Definition truthy (x : number) : bool :=
  match x with
  | S754_zero _ | S754_nan => false
  | _ => true
  end.

(** [o || dflt] where [o] is a number or [undefined]. *)
Definition or_num (o : option number) (dflt : number) : number :=
  match o with
  | Some v => if truthy v then v else dflt
  | None => dflt
  end.

(** [Math.max(a, b)] and [Math.min(a, b)]: [NaN] when an operand is, and
    [-0] is below [+0]. *)
Definition Math_max (a b : number) : number :=
  match SFcompare a b with
  | None => NaN
  | Some Lt => b
  | Some Gt => a
  | Some Eq =>
      match a, b with
      | S754_zero sa, S754_zero sb => S754_zero (sa && sb)
      | _, _ => a
      end
  end.

Definition Math_min (a b : number) : number :=
  match SFcompare a b with
  | None => NaN
  | Some Lt => a
  | Some Gt => b
  | Some Eq =>
      match a, b with
      | S754_zero sa, S754_zero sb => S754_zero (sa || sb)
      | _, _ => a
      end
  end.

(** Lookup in an object literal whose keys are integer literals: the key
    is found when it is that integer. *)
Fixpoint lookup {A : Type} (tbl : list (Z * A)) (key : number) : option A :=
  match tbl with
  | [] => None
  | (k, v) :: rest => if eqb key (ofZ k) then Some v else lookup rest key
  end.

End Double.

(** ** [reward-calculator.ts] on doubles *)

Module RewardCalculator64.
Import Double.
Local Open Scope Z_scope.

Record MatchData : Type := {
  placement : number;
  playerCount : number;
  kills : number;
  durationMs : number;
  antiCheatPassed : bool;
  botConfidence : number
}.

Record RewardBreakdown : Type := {
  base : number;
  placement_part : number;   (* field [placement] of the breakdown *)
  kills_part : number;       (* field [kills] *)
  survival : number;
  penalties : number;
  final : number
}.

Record RewardCalculation : Type := {
  baseReward : number;
  placementMultiplier : number;
  killBonus : number;
  survivalBonus : number;
  antiCheatModifier : number;
  totalReward : number;
  breakdown : RewardBreakdown
}.

(** [REWARD_CONFIG] *)
Definition BASE_REWARD : list (Z * number) :=
  [(2, ofZ 10); (3, ofZ 15); (5, ofZ 25)].
Definition PLACEMENT_MULTIPLIERS : list (Z * number) :=
  [(1, ofZ 2); (2, ofZ 1); (3, dec 5 1); (4, dec 25 2); (5, dec 1 1)].
Definition KILL_BONUS : number := ofZ 5.
Definition SURVIVAL_BONUS_PER_MINUTE : number := ofZ 2.
Definition MAX_SURVIVAL_BONUS : number := ofZ 20.
Definition SUSPICIOUS_PENALTY : number := dec 5 1.
Definition FAILED_ANTICHEAT_PENALTY : number := ofZ 0.
Definition MAX_REWARD_PER_MATCH : number := ofZ 1000.
Definition MIN_REWARD : number := ofZ 0.

Definition calculateReward (m : MatchData) : RewardCalculation :=
  let baseReward := or_num (lookup BASE_REWARD (playerCount m)) (ofZ 10) in
  let placementMultiplier :=
    or_num (lookup PLACEMENT_MULTIPLIERS (placement m)) (dec 1 1) in
  let killBonus := mul (kills m) KILL_BONUS in
  let survivalMinutes := div (durationMs m) (ofZ 60000) in
  let survivalBonus :=
    Math_min (mul survivalMinutes SURVIVAL_BONUS_PER_MINUTE) MAX_SURVIVAL_BONUS in
  let antiCheatModifier :=
    if negb (antiCheatPassed m) then FAILED_ANTICHEAT_PENALTY
    else if geb (botConfidence m) (dec 7 1) then SUSPICIOUS_PENALTY
    else ofZ 1 in
  let baseWithPlacement := mul baseReward placementMultiplier in
  let withBonuses := add (add baseWithPlacement killBonus) survivalBonus in
  let withModifier := mul withBonuses antiCheatModifier in
  let totalReward :=
    Math_min (Math_max withModifier MIN_REWARD) MAX_REWARD_PER_MATCH in
  let penalties := sub withBonuses (mul withBonuses antiCheatModifier) in
  {| baseReward := baseReward;
     placementMultiplier := placementMultiplier;
     killBonus := killBonus;
     survivalBonus := survivalBonus;
     antiCheatModifier := antiCheatModifier;
     totalReward := totalReward;
     breakdown :=
       {| base := baseReward;
          placement_part := sub baseWithPlacement baseReward;
          kills_part := killBonus;
          survival := survivalBonus;
          penalties := SFopp penalties;
          final := totalReward |} |}.

(** [withModifier]: the reward before the caps. *)
Definition withModifier (m : MatchData) : number :=
  let r := calculateReward m in
  mul (add (add (mul (baseReward r) (placementMultiplier r)) (killBonus r))
           (survivalBonus r))
      (antiCheatModifier r).

End RewardCalculator64.

(** ** [checkDailyCap] on doubles

    What [checkDailyCap] computes from the answer of its query: the rows
    of the wallet, type and day, in the order the store returns them. *)

Module SecurityDb64.
Import Double.
Local Open Scope Z_scope.

Record SecurityConfig : Type := {
  dailyRewardCap : number;
  dailyMatchCap : number
}.

Definition DEFAULT_SECURITY_CONFIG : SecurityConfig :=
  {| dailyRewardCap := ofZ 5000; dailyMatchCap := ofZ 50 |}.

Record DailyCapResult : Type := {
  allowed : bool;
  usedToday : number;
  remaining : number;
  resetAt : Z
}.

(** [{ data, error }] of the select on [mcp_daily_usage]: the [amount] of
    each row ([undefined] is [None]). *)
Record Answer : Type := {
  data : list (option number);
  error : option string
}.

(** [data.reduce((sum, row) => sum + (row.amount || 0), 0)] *)
Definition sumAmounts (rows : list (option number)) : number :=
  fold_left (fun sum amount => add sum (or_num amount (ofZ 0))) rows (ofZ 0).

(** [capType === 'reward' ? config.dailyRewardCap : config.dailyMatchCap] *)
Definition maxCapOf (capType : Store.UsageType) (config : SecurityConfig) : number :=
  match capType with
  | Store.reward => dailyRewardCap config
  | Store.match_ => dailyMatchCap config
  end.

Definition checkDailyCap (answer : Answer) (capType : Store.UsageType)
  (amount : number) (config : SecurityConfig) (dayEnd : Z) : DailyCapResult :=
  let maxCap := maxCapOf capType config in
  match error answer with
  | Some _ =>
      {| allowed := false; usedToday := ofZ 0; remaining := ofZ 0; resetAt := dayEnd |}
  | None =>
      let usedToday := sumAmounts (data answer) in
      let remaining := Math_max (ofZ 0) (sub maxCap usedToday) in
      if gtb (add usedToday amount) maxCap then
        {| allowed := false; usedToday := usedToday; remaining := remaining;
           resetAt := dayEnd |}
      else
        {| allowed := true; usedToday := usedToday; remaining := sub remaining amount;
           resetAt := dayEnd |}
  end.

(** The answer of the same query once a row with [amount] is recorded, the
    store returning it after the others. *)
Definition recorded (answer : Answer) (amount : number) : Answer :=
  {| data := data answer ++ [Some amount]; error := error answer |}.

End SecurityDb64.

(** ** Views on the tables *)

Module Ledger.
Import Store SecurityDb.
Local Open Scope string_scope.

(** Sum of the usage of one type recorded for a wallet on the day of [t]. *)
Definition usedOn (wallet : string) (type : UsageType) (t : Z) (w : World) : Q :=
  fold_right (fun r acc => amount r + acc) 0
    (filter (fun r =>
       String.eqb (du_wallet r) wallet && UsageType_eqb (usage_type r) type
       && (dayStartOf t <=? du_created_at r)%Z
       && (du_created_at r <? dayEndOf t)%Z) (daily_usage w)).

(** The daily cap of a usage type. *)
Definition capOf (type : UsageType) (config : SecurityConfig) : Q :=
  match type with
  | reward => dailyRewardCap config
  | match_ => dailyMatchCap config
  end.

(** The usage of one type recorded for a wallet on the day of [t] is
    within the daily cap. *)
Definition withinCap (config : SecurityConfig) (wallet : string) (type : UsageType)
  (t : Z) (w : World) : Prop :=
  usedOn wallet type t w <= capOf type config.

(** Every match-type usage row counts one match, as the match-submit
    handler writes them. *)
Definition unitMatchRows (w : World) : Prop :=
  Forall (fun r => usage_type r = match_ -> amount r = 1) (daily_usage w).

(** Number of requests of a wallet on an endpoint recorded at [since] or
    later. *)
Definition requestsSince (wallet endpoint : string) (since : Z) (w : World) : Z :=
  Z.of_nat (List.length (filter (fun r =>
    String.eqb (rl_wallet r) wallet && String.eqb (rl_endpoint r) endpoint
    && (since <=? rl_created_at r)%Z) (rate_limits w))).

(** Number of requests of a wallet on an endpoint recorded at a time
    between [from] and [to]. *)
Definition requestsBetween (wallet endpoint : string) (from to : Z) (w : World) : Z :=
  Z.of_nat (List.length (filter (fun r =>
    String.eqb (rl_wallet r) wallet && String.eqb (rl_endpoint r) endpoint
    && (from <=? rl_created_at r)%Z && (rl_created_at r <=? to)%Z) (rate_limits w))).

(** No window of the configured length holds more recorded requests of
    one wallet on one endpoint than the configured maximum. *)
Definition windowed (config : SecurityConfig) (w : World) : Prop :=
  forall wallet endpoint s,
    (requestsBetween wallet endpoint s (s + rateLimitWindowMs config) w
     <= rateLimitMaxRequests config)%Z.

(** A row for the match exists. *)
Definition processed (m : string) (w : World) : bool :=
  existsb (fun r => String.eqb (match_id r) m) (processed_matches w).

(** No two rows of [mcp_processed_matches] carry the same match. *)
Definition uniqueMatches (w : World) : Prop :=
  NoDup (map match_id (processed_matches w)).

(** The store does not answer [PGRST116] of its own: that code comes from
    [.single()] only. *)
Definition honest (w : World) : Prop :=
  ~ In (Some "PGRST116") (faults w).

(** A property of the world that holds afterwards if it held before. *)
Definition preserves (P : World -> Prop) (w w' : World) : Prop := P w -> P w'.

(** One component of the world is as it was. *)
Definition unchanged {A : Type} (proj : World -> A) (w w' : World) : Prop :=
  proj w' = proj w.

(** No store error is left that was not scripted before. *)
Definition fewer_faults (w w' : World) : Prop := incl (faults w') (faults w).

(** Rows of [mcp_processed_matches] are only added, at the end. *)
Definition matches_grow (w w' : World) : Prop :=
  exists l, processed_matches w' = (processed_matches w ++ l)%list.




(** The wallet a request names. *)
Definition walletOf (r : Pipeline.Request) : string :=
  match r with
  | Pipeline.SubmitMatch payload => MatchSubmit.walletAddress payload
  | Pipeline.GrantReward payload _ => RewardGrant.walletAddress payload
  end.

(** What the limits of a wallet are computed from is as it was: the usage
    recorded for it on every day, and the requests recorded for it on
    every endpoint. *)
Definition sameAccount (wallet : string) (w w' : World) : Prop :=
  (forall type t, usedOn wallet type t w' == usedOn wallet type t w) /\
  (forall endpoint since,
     requestsSince wallet endpoint since w' = requestsSince wallet endpoint since w).

End Ledger.
(** ** Concrete inputs used by the scenarios below *)

Module Scenarios.
Import Store.
Local Open Scope string_scope.

(** Scenario A: a 5-player match won with 3 kills in 3 minutes. *)
Definition scenarioA : RewardCalculator.MatchData :=
  {| RewardCalculator.placement := 1;
     RewardCalculator.playerCount := 5;
     RewardCalculator.kills := 3;
     RewardCalculator.durationMs := 180000;
     RewardCalculator.antiCheatPassed := true;
     RewardCalculator.botConfidence := 1 # 10 |}.

Definition wallet : string := "0x00112233445566778899aAbBcCdDeEfF00112233".
Definition matchA : string := "match-A-0123456789abcdef0123456789abcdef".
Definition matchB : string := "match-B-0123456789abcdef0123456789abcdef".
Definition matchC : string := "match-C-0123456789abcdef0123456789abcdef".
Definition nonceA : string := "nonce-A-0123456789abcdef0123456789abcdef".
Definition nonceB : string := "nonce-B-0123456789abcdef0123456789abcdef".

(** A 2-player match won with one kill in 15 s and input timing variance
    20 ms: +15 (unusually short), +35 +15 (low variance, winner), +10 +20
    (fast perfect game), a score of 95. *)
Definition flaggedInput : MatchValidator.MatchInput :=
  {| MatchValidator.walletAddress := wallet;
     MatchValidator.matchId := matchA;
     MatchValidator.placement := 1;
     MatchValidator.playerCount := 2;
     MatchValidator.durationMs := 15000;
     MatchValidator.kills := 1;
     MatchValidator.antiCheat :=
       {| MatchValidator.inputTimingVariance := 20;
          MatchValidator.frameCount := 900;
          MatchValidator.avgTickRate := 60;
          MatchValidator.suspiciousFlags := [] |} |}.

(** A 2-player match won without kills in 60 s and input timing variance
    20 ms: +35 +15 (low variance, winner), a score of 50. *)
Definition reviewInput : MatchValidator.MatchInput :=
  {| MatchValidator.walletAddress := wallet;
     MatchValidator.matchId := matchA;
     MatchValidator.placement := 1;
     MatchValidator.playerCount := 2;
     MatchValidator.durationMs := 60000;
     MatchValidator.kills := 0;
     MatchValidator.antiCheat :=
       {| MatchValidator.inputTimingVariance := 20;
          MatchValidator.frameCount := 3600;
          MatchValidator.avgTickRate := 60;
          MatchValidator.suspiciousFlags := [] |} |}.

(** The payload of [flaggedInput], sent at time 1000000. *)
Definition flaggedPayload : MatchSubmit.MatchResultPayload :=
  {| MatchSubmit.walletAddress := wallet;
     MatchSubmit.matchId := matchA;
     MatchSubmit.placement := 1;
     MatchSubmit.playerCount := 2;
     MatchSubmit.durationMs := 15000;
     MatchSubmit.kills := 1;
     MatchSubmit.antiCheat :=
       {| MatchSubmit.inputHash := "input-hash";
          MatchSubmit.frameCount := 900;
          MatchSubmit.avgTickRate := 60;
          MatchSubmit.suspiciousFlags := [];
          MatchSubmit.inputTimingVariance := 20;
          MatchSubmit.movementHash := "movement-hash" |};
     MatchSubmit.timestamp := 1000000;
     MatchSubmit.clientSignature := "signature";
     MatchSubmit.nonce := nonceA |}.

Definition flaggedSubmission : Run.SubmitRequest :=
  {| Run.s_time := 1000000; Run.s_errors := []; Run.payload := flaggedPayload |}.

(** Parameters of a security check as the match-submit handler makes it. *)
Definition paramsFor (n m : string) : SecurityDb.Params :=
  {| SecurityDb.walletAddress := wallet;
     SecurityDb.matchId := m;
     SecurityDb.p_nonce := n;
     SecurityDb.endpoint := "match-submit";
     SecurityDb.rewardAmount := None;
     SecurityDb.botConfidence := None |}.

(** A check with bot confidence 0.8: suspicious, not banned. *)
Definition suspiciousParams : SecurityDb.Params :=
  {| SecurityDb.walletAddress := wallet;
     SecurityDb.matchId := matchA;
     SecurityDb.p_nonce := nonceA;
     SecurityDb.endpoint := "reward-grant";
     SecurityDb.rewardAmount := None;
     SecurityDb.botConfidence := Some (8 # 10) |}.

(** A store in which [nonceA] was consumed at time 0. *)
Definition usedWorld : World :=
  {| nonces := [{| nonce := nonceA; nonce_wallet := wallet; used_at := 0 |}];
     rate_limits := []; daily_usage := []; processed_matches := [];
     clock := 1000; env_ok := true; faults := [] |}.

(** [nonceA] is consumed at time 0; 400 s later (past the 300 s expiry)
    another check succeeds and cleans the table; 100 s after that [nonceA]
    comes again. *)
Definition replayRun : list Run.SecurityRequest :=
  [ {| Run.at_time := 0; Run.store_errors := [];
       Run.params := paramsFor nonceA matchA |};
    {| Run.at_time := 400000; Run.store_errors := [];
       Run.params := paramsFor nonceB matchB |};
    {| Run.at_time := 500000; Run.store_errors := [];
       Run.params := paramsFor nonceA matchC |} ].

(** [nonceA] twice within one second. *)
Definition windowRun : list Run.SecurityRequest :=
  [ {| Run.at_time := 0; Run.store_errors := [];
       Run.params := paramsFor nonceA matchA |};
    {| Run.at_time := 1000; Run.store_errors := [];
       Run.params := paramsFor nonceA matchB |} ].

(** The store is lost (SQLSTATE 08006) at the rate-limit lookup, the
    fourth round trip of a check whose nonce is fresh. *)
Definition rateDownWorld : World :=
  with_faults [None; None; None; Some "08006"] (empty 0).

(** The store is lost at the match-uniqueness lookup, the sixth round trip. *)
Definition matchDownWorld : World :=
  with_faults [None; None; None; None; None; Some "08006"] (empty 0).

(** A win of [wallet] at second [i + 1]. *)
Definition win (i : nat) : ProcessedMatch :=
  {| match_id := String (Ascii.ascii_of_nat (65 + i)) matchB;
     pm_wallet := wallet; pm_placement := 1; reward_amount := 20;
     tx_hash := None; processed_at := 1000 * Z.of_nat (S i) |}.

(** A second place of [wallet] at the same pace. *)
Definition loss (i : nat) : ProcessedMatch :=
  {| match_id := String (Ascii.ascii_of_nat (65 + i)) matchB;
     pm_wallet := wallet; pm_placement := 2; reward_amount := 10;
     tx_hash := None; processed_at := 1000 * Z.of_nat (S i) |}.

(** Two wins, a second place, then twenty wins, the latest at time 23000. *)
Definition brokenStreakWorld : World :=
  {| nonces := []; rate_limits := []; daily_usage := [];
     processed_matches :=
       [win 0; win 1; loss 2] ++ map win (seq 3 20);
     clock := 100000; env_ok := true; faults := [] |}.

(** An unremarkable 2-player win: 60 s, one kill, variance 100 ms. *)
Definition streakInput : MatchValidator.MatchInput :=
  {| MatchValidator.walletAddress := wallet;
     MatchValidator.matchId := matchA;
     MatchValidator.placement := 1;
     MatchValidator.playerCount := 2;
     MatchValidator.durationMs := 60000;
     MatchValidator.kills := 1;
     MatchValidator.antiCheat :=
       {| MatchValidator.inputTimingVariance := 100;
          MatchValidator.frameCount := 3600;
          MatchValidator.avgTickRate := 60;
          MatchValidator.suspiciousFlags := [] |} |}.

End Scenarios.


(** ** Concrete inputs for the two endpoints *)

Module Examples.
Import Store.
Local Open Scope string_scope.

(** A 2-player match won with one kill in 60 s, input timing variance
    100 ms: a perfect game (+10) and nothing else, a score of 10. *)
Definition cleanPayload : MatchSubmit.MatchResultPayload :=
  {| MatchSubmit.walletAddress := Scenarios.wallet;
     MatchSubmit.matchId := Scenarios.matchA;
     MatchSubmit.placement := 1;
     MatchSubmit.playerCount := 2;
     MatchSubmit.durationMs := 60000;
     MatchSubmit.kills := 1;
     MatchSubmit.antiCheat :=
       {| MatchSubmit.inputHash := "input-hash";
          MatchSubmit.frameCount := 3600;
          MatchSubmit.avgTickRate := 60;
          MatchSubmit.suspiciousFlags := [];
          MatchSubmit.inputTimingVariance := 100;
          MatchSubmit.movementHash := "movement-hash" |};
     MatchSubmit.timestamp := 1000000;
     MatchSubmit.clientSignature := "signature";
     MatchSubmit.nonce := Scenarios.nonceA |}.

(** The match data of [cleanPayload] at its risk score 10, and the same
    match with no kill in 30 s, and finished second. *)
Definition cleanData : RewardCalculator.MatchData :=
  MatchSubmit.matchDataOf cleanPayload 10.

Definition shorterData : RewardCalculator.MatchData :=
  {| RewardCalculator.placement := 1;
     RewardCalculator.playerCount := 2;
     RewardCalculator.kills := 0;
     RewardCalculator.durationMs := 30000;
     RewardCalculator.antiCheatPassed := true;
     RewardCalculator.botConfidence := inject_Z 10 / 100 |}.

Definition secondData : RewardCalculator.MatchData :=
  {| RewardCalculator.placement := 2;
     RewardCalculator.playerCount := 2;
     RewardCalculator.kills := 1;
     RewardCalculator.durationMs := 60000;
     RewardCalculator.antiCheatPassed := true;
     RewardCalculator.botConfidence := inject_Z 10 / 100 |}.

(** Stand-ins for the HMAC primitive and for [JSON.stringify], and a
    signing secret. *)
Definition toyHmac (key message : list Byte.byte) : list Byte.byte :=
  firstn 32 (key ++ message ++ repeat Byte.x00 32).

Definition toyStringify (f : RewardGrant.SignedFields) : string :=
  RewardGrant.s_matchId f ++ RewardGrant.s_nonce f.

Definition toySecret : option string := Some "signing-secret".

(** A grant of 27 for a match, signed under [toySecret]. *)
Definition grantFor (m n : string) : RewardGrant.RewardGrantPayload :=
  {| RewardGrant.walletAddress := Scenarios.wallet;
     RewardGrant.matchId := m;
     RewardGrant.rewardAmount := 27;
     RewardGrant.placement := 1;
     RewardGrant.playerCount := 2;
     RewardGrant.nonce := n;
     RewardGrant.timestamp := 1000000;
     RewardGrant.serverSignature :=
       SecurityDb.hexOf (toyHmac (Js.encode "signing-secret") (Js.encode (m ++ n))) |}.

(** The contract answers success. *)
Definition okTx : ContractService.TransactionResult :=
  {| ContractService.success := true;
     ContractService.txHash := Some "0x00aa";
     ContractService.blockNumber := Some 1000%Z;
     ContractService.gasUsed := Some "85000";
     ContractService.error := None;
     ContractService.errorCode := None |}.

(** A submission of match A, then a grant for match B and a grant for
    match A, one second apart, with the store reachable. *)
Definition mixedRun : list Pipeline.Arrival :=
  [ {| Pipeline.a_time := 1000000; Pipeline.a_errors := [];
       Pipeline.a_request := Pipeline.SubmitMatch cleanPayload |};
    {| Pipeline.a_time := 1001000; Pipeline.a_errors := [];
       Pipeline.a_request :=
         Pipeline.GrantReward (grantFor Scenarios.matchB Scenarios.nonceB) okTx |};
    {| Pipeline.a_time := 1002000; Pipeline.a_errors := [];
       Pipeline.a_request :=
         Pipeline.GrantReward (grantFor Scenarios.matchA Scenarios.matchC) okTx |} ].

(** The store after [mixedRun]. *)
Definition afterRun : World :=
  snd (Pipeline.serve toyHmac toyStringify toySecret mixedRun (empty 0)).

(** The store is lost at both history lookups of a validation. *)
Definition historyDownWorld : World :=
  with_faults [Some "08006"; Some "08006"] (empty 0).

(** The address of [Scenarios.wallet] with its letters in upper case. *)
Definition walletUpper : string := "0x00112233445566778899AABBCCDDEEFF00112233".

(** [cleanPayload] with a wallet address that is too short. *)
Definition malformedPayload : MatchSubmit.MatchResultPayload :=
  {| MatchSubmit.walletAddress := "0x0011";
     MatchSubmit.matchId := MatchSubmit.matchId cleanPayload;
     MatchSubmit.placement := MatchSubmit.placement cleanPayload;
     MatchSubmit.playerCount := MatchSubmit.playerCount cleanPayload;
     MatchSubmit.durationMs := MatchSubmit.durationMs cleanPayload;
     MatchSubmit.kills := MatchSubmit.kills cleanPayload;
     MatchSubmit.antiCheat := MatchSubmit.antiCheat cleanPayload;
     MatchSubmit.timestamp := MatchSubmit.timestamp cleanPayload;
     MatchSubmit.clientSignature := MatchSubmit.clientSignature cleanPayload;
     MatchSubmit.nonce := MatchSubmit.nonce cleanPayload |}.

(** A clean submission of match C, after [mixedRun]. *)
Definition nonceC : string := "nonce-C-0123456789abcdef0123456789abcdef".

Definition laterPayload : MatchSubmit.MatchResultPayload :=
  {| MatchSubmit.walletAddress := Scenarios.wallet;
     MatchSubmit.matchId := Scenarios.matchC;
     MatchSubmit.placement := MatchSubmit.placement cleanPayload;
     MatchSubmit.playerCount := MatchSubmit.playerCount cleanPayload;
     MatchSubmit.durationMs := MatchSubmit.durationMs cleanPayload;
     MatchSubmit.kills := MatchSubmit.kills cleanPayload;
     MatchSubmit.antiCheat := MatchSubmit.antiCheat cleanPayload;
     MatchSubmit.timestamp := 1003000;
     MatchSubmit.clientSignature := MatchSubmit.clientSignature cleanPayload;
     MatchSubmit.nonce := nonceC |}.


Definition laterArrival : Pipeline.Arrival :=
  {| Pipeline.a_time := 1003000; Pipeline.a_errors := [];
     Pipeline.a_request := Pipeline.SubmitMatch laterPayload |}.

(** Match data on doubles: scenario A of the reward formula, and a match
    with [kills = 1e308] that failed the anti-cheat. *)
Definition scenarioA64 : RewardCalculator64.MatchData :=
  {| RewardCalculator64.placement := Double.ofZ 1;
     RewardCalculator64.playerCount := Double.ofZ 5;
     RewardCalculator64.kills := Double.ofZ 3;
     RewardCalculator64.durationMs := Double.ofZ 180000;
     RewardCalculator64.antiCheatPassed := true;
     RewardCalculator64.botConfidence := Double.dec 1 1 |}.


(** The answer of the usage query when one row of 5000 is recorded, and an
    amount of [1e-13]. *)
Definition usedUp : SecurityDb64.Answer :=
  {| SecurityDb64.data := [Some (Double.ofZ 5000)]; SecurityDb64.error := None |}.

Definition tinyAmount : Double.number := Double.dec 1 13.

End Examples.
(** * Properties *)

(** ** Facts about the JavaScript helpers *)

Module JsFacts.

Lemma ltb_lt a b : Js.ltb a b = true <-> a < b.
Proof.
  unfold Js.ltb. rewrite negb_true_iff. split; intro H.
  - apply Qnot_le_lt. intro H'. apply Qle_bool_iff in H'. congruence.
  - destruct (Qle_bool b a) eqn:E; auto.
    apply Qle_bool_iff in E. exfalso. exact (Qlt_not_le _ _ H E).
Qed.

Lemma ltb_ge a b : Js.ltb a b = false <-> b <= a.
Proof.
  unfold Js.ltb. rewrite negb_false_iff. apply Qle_bool_iff.
Qed.

Lemma geb_ge a b : Js.geb a b = true <-> b <= a.
Proof. apply Qle_bool_iff. Qed.

Lemma geb_lt a b : Js.geb a b = false <-> a < b.
Proof. rewrite <- ltb_lt. unfold Js.ltb, Js.geb. now destruct (Qle_bool b a). Qed.

Lemma gtb_gt a b : Js.gtb a b = true <-> b < a.
Proof. apply ltb_lt. Qed.

Lemma gtb_le a b : Js.gtb a b = false <-> a <= b.
Proof. apply ltb_ge. Qed.

End JsFacts.

(** ** The reward calculator *)

Module RewardFacts.
Import RewardCalculator.

Ltac split_lookups :=
  repeat match goal with
         | |- context [Qeq_bool ?a ?b] => destruct (Qeq_bool a b) eqn:?; cbn
         end.

Lemma baseReward_pos m : 0 < baseReward (calculateReward m).
Proof.
  unfold calculateReward; cbn [baseReward].
  unfold BASE_REWARD, Js.lookup, Js.or_num.
  split_lookups; reflexivity.
Qed.

Lemma placementMultiplier_pos m : 0 < placementMultiplier (calculateReward m).
Proof.
  unfold calculateReward; cbn [placementMultiplier].
  unfold PLACEMENT_MULTIPLIERS, Js.lookup, Js.or_num.
  split_lookups; reflexivity.
Qed.

Lemma antiCheatModifier_cases m :
  antiCheatModifier (calculateReward m) = 0 \/
  antiCheatModifier (calculateReward m) = (1 # 2) \/
  antiCheatModifier (calculateReward m) = 1.
Proof.
  unfold calculateReward; cbn [antiCheatModifier].
  destruct (antiCheatPassed m); cbn; auto.
  destruct (Js.geb _ _); auto.
Qed.

Lemma antiCheatModifier_nonneg m : 0 <= antiCheatModifier (calculateReward m).
Proof.
  destruct (antiCheatModifier_cases m) as [-> | [-> | ->]]; discriminate.
Qed.

Lemma killBonus_nonneg m : 0 <= kills m -> 0 <= killBonus (calculateReward m).
Proof.
  intro H. unfold calculateReward; cbn [killBonus].
  apply Qmult_le_0_compat; [assumption | discriminate].
Qed.

Lemma survivalBonus_nonneg m :
  0 <= durationMs m -> 0 <= survivalBonus (calculateReward m).
Proof.
  intro H. unfold calculateReward; cbn [survivalBonus].
  apply Q.min_glb; [| discriminate].
  apply Qmult_le_0_compat; [| discriminate].
  unfold Qdiv. apply Qmult_le_0_compat; [assumption | discriminate].
Qed.

Lemma totalReward_clamp m :
  totalReward (calculateReward m) = Qmin (Qmax (preClamp m) 0) 1000.
Proof. reflexivity. Qed.

Lemma totalReward_bounds m :
  0 <= totalReward (calculateReward m) /\ totalReward (calculateReward m) <= 1000.
Proof.
  rewrite totalReward_clamp. split.
  - apply Q.min_glb; [apply Q.le_max_r | discriminate].
  - apply Q.le_min_r.
Qed.

Lemma preClamp_nonneg m :
  0 <= kills m -> 0 <= durationMs m -> 0 <= preClamp m.
Proof.
  intros Hk Hd. unfold preClamp.
  apply Qmult_le_0_compat; [| apply antiCheatModifier_nonneg].
  pose proof (baseReward_pos m) as Hb.
  pose proof (placementMultiplier_pos m) as Hp.
  pose proof (killBonus_nonneg m Hk) as Hkb.
  pose proof (survivalBonus_nonneg m Hd) as Hs.
  assert (0 <= baseReward (calculateReward m) * placementMultiplier (calculateReward m))
    by (apply Qmult_le_0_compat; apply Qlt_le_weak; assumption).
  rewrite <- (Qplus_0_r 0).
  apply Qplus_le_compat; [| assumption].
  rewrite <- (Qplus_0_r 0).
  apply Qplus_le_compat; assumption.
Qed.

(** The five components of the breakdown always add up to the value
    before the clamps. *)
Lemma breakdown_sum m :
  let b := breakdown (calculateReward m) in
  base b + placement_part b + kills_part b + survival b + penalties b
  == preClamp m.
Proof.
  unfold preClamp, calculateReward; cbn. ring.
Qed.

(** C6. For placement 1 of 5 players, 3 kills, 180000 ms, anti-cheat passed
    and bot confidence 0.1, [calculateReward] returns base reward 25,
    multiplier 2 (a placement contribution of 25), kill bonus 15, survival
    bonus 6, modifier 1 and total 71, with the breakdown
    [{base 25, placement 25, kills 15, survival 6, penalties 0, final 71}]. *)
Theorem C6_scenario_A :
  let r := calculateReward Scenarios.scenarioA in
  baseReward r == 25 /\ placementMultiplier r == 2 /\
  killBonus r == 15 /\ survivalBonus r == 6 /\
  antiCheatModifier r == 1 /\ totalReward r == 71 /\
  base (breakdown r) == 25 /\ placement_part (breakdown r) == 25 /\
  kills_part (breakdown r) == 15 /\ survival (breakdown r) == 6 /\
  penalties (breakdown r) == 0 /\ final (breakdown r) == 71.
Proof.
  vm_compute. repeat split; intro H; discriminate H.
Qed.

(** C10. For kills >= 0 and durationMs >= 0 the breakdown's [final] is the
    total reward, and whenever the value before the clamps is at most 1000
    the components base, placement, kills, survival and penalties of the
    breakdown sum exactly to [final]. *)
Theorem C10_breakdown_sums_to_final (m : MatchData) :
  0 <= kills m -> 0 <= durationMs m ->
  let r := calculateReward m in
  final (breakdown r) = totalReward r /\
  (preClamp m <= 1000 ->
   base (breakdown r) + placement_part (breakdown r) + kills_part (breakdown r)
   + survival (breakdown r) + penalties (breakdown r) == final (breakdown r)).
Proof.
  intros Hk Hd r. split; [reflexivity |]. intro Hcap.
  subst r. rewrite (breakdown_sum m).
  change (final (breakdown (calculateReward m))) with (totalReward (calculateReward m)).
  rewrite totalReward_clamp.
  pose proof (preClamp_nonneg m Hk Hd) as H0.
  rewrite (Q.max_l _ _ H0).
  rewrite (Q.min_l _ _ Hcap). reflexivity.
Qed.

Lemma C10_breakdown_sums_to_final_witness :
  0 <= kills Scenarios.scenarioA /\ 0 <= durationMs Scenarios.scenarioA /\
  preClamp Scenarios.scenarioA <= 1000 /\
  let r := calculateReward Scenarios.scenarioA in
  final (breakdown r) = totalReward r /\
  base (breakdown r) + placement_part (breakdown r) + kills_part (breakdown r)
  + survival (breakdown r) + penalties (breakdown r) == final (breakdown r).
Proof.
  assert (Hk : 0 <= kills Scenarios.scenarioA) by discriminate.
  assert (Hd : 0 <= durationMs Scenarios.scenarioA) by discriminate.
  assert (Hc : preClamp Scenarios.scenarioA <= 1000) by discriminate.
  do 3 (split; [assumption |]).
  destruct (C10_breakdown_sums_to_final Scenarios.scenarioA Hk Hd) as [Hf Hsum].
  split; [exact Hf | exact (Hsum Hc)].
Defined.

End RewardFacts.
(** ** Footprints of monadic programs *)

Module Frame.
Import Store Query Footprint.

Section Keeps.
Context (R : World -> World -> Prop) `{!PreOrder R}.

Lemma keeps_ret {A : Type} (a : A) : keeps R (ret a).
Proof. intro w. reflexivity. Qed.

Lemma keeps_bind {A B : Type} (m : M A) (f : A -> M B) :
  keeps R m -> (forall a, keeps R (f a)) -> keeps R (bind m f).
Proof.
  intros Hm Hf w. unfold bind. specialize (Hm w).
  destruct (m w) as [a w1]. cbn [snd] in Hm.
  etransitivity; [exact Hm | apply Hf].
Qed.

Lemma keeps_Date_now : keeps R Date_now.
Proof. intro w. reflexivity. Qed.

Lemma keeps_get {A : Type} (proj : World -> A) : keeps R (get proj).
Proof. intro w. reflexivity. Qed.

End Keeps.

Lemma keeps_weaken (R1 R2 : World -> World -> Prop) {A : Type} (m : M A) :
  (forall w w', R1 w w' -> R2 w w') -> keeps R1 m -> keeps R2 m.
Proof. intros H Hm w. apply H, Hm. Qed.

(** Descent through a monadic program; [prim] closes the leaves that are
    calls. *)
Ltac descend prim :=
  repeat match goal with
    | |- keeps _ (ret _) => apply keeps_ret; exact _
    | |- keeps _ (bind _ _) => apply keeps_bind; [exact _ | | intro]
    | |- keeps _ Date_now => apply keeps_Date_now; exact _
    | |- keeps _ (get _) => apply keeps_get; exact _
    | |- keeps _ (match ?x with _ => _ end) => destruct x
    | |- keeps _ (let _ := _ in _) => cbv zeta
    | |- keeps _ _ => solve [prim]
    end.

#[export] Instance same_static_preorder : PreOrder same_static.
Proof.
  split.
  - intro w. repeat split.
  - intros a b c. unfold same_static. intuition congruence.
Qed.

#[export] Instance same_tables_preorder : PreOrder same_tables.
Proof.
  split.
  - intro w. repeat split.
  - intros a b c. unfold same_tables. intuition congruence.
Qed.

#[export] Instance same_nonces_preorder : PreOrder same_nonces.
Proof.
  split.
  - intro w. reflexivity.
  - intros a b c. unfold same_nonces. congruence.
Qed.

#[export] Instance usage_grows_preorder : PreOrder usage_grows.
Proof.
  split.
  - intro w. exists []. split; [symmetry; apply app_nil_r | constructor].
  - intros a b c (l1 & H1 & F1) (l2 & H2 & F2). exists (l1 ++ l2)%list. split.
    + rewrite H2, H1. symmetry. apply app_assoc.
    + apply Forall_app. split; assumption.
Qed.

Lemma tables_static w w' : same_tables w w' -> same_static w w'.
Proof. unfold same_tables, same_static. intuition. Qed.

Lemma tables_nonces w w' : same_tables w w' -> same_nonces w w'.
Proof. unfold same_tables, same_nonces. intuition. Qed.



(** A round trip changes the script of store errors and nothing else. *)
Lemma tables_round_trip : keeps same_tables round_trip.
Proof. intro w. unfold round_trip. destruct (faults w); repeat split. Qed.

Lemma static_round_trip : keeps same_static round_trip.
Proof. apply (keeps_weaken same_tables); [exact tables_static | exact tables_round_trip]. Qed.

Lemma nonces_round_trip : keeps same_nonces round_trip.
Proof. apply (keeps_weaken same_tables); [exact tables_nonces | exact tables_round_trip]. Qed.


Lemma static_set_nonces l : keeps same_static (set_nonces l).
Proof. intro w. repeat split. Qed.

Lemma static_set_rate_limits l : keeps same_static (set_rate_limits l).
Proof. intro w. repeat split. Qed.

Lemma nonces_set_rate_limits l : keeps same_nonces (set_rate_limits l).
Proof. intro w. reflexivity. Qed.

Ltac static_prim :=
  idtac; match goal with
  | |- keeps _ round_trip => apply static_round_trip
  | |- keeps _ (set_nonces _) => apply static_set_nonces
  | |- keeps _ (set_rate_limits _) => apply static_set_rate_limits
  end.

Ltac nonces_prim :=
  idtac; match goal with
  | |- keeps _ round_trip => apply nonces_round_trip
  | |- keeps _ (set_rate_limits _) => apply nonces_set_rate_limits
  end.

Ltac tables_prim :=
  idtac; match goal with
  | |- keeps _ round_trip => apply tables_round_trip
  end.

Lemma round_trip_fst w : fst (round_trip w) = hd None (faults w).
Proof. unfold round_trip. destruct (faults w); reflexivity. Qed.

Lemma round_trip_faults w : faults (snd (round_trip w)) = tl (faults w).
Proof.
  unfold round_trip. destruct (faults w) eqn:E; cbn [snd tl]; [exact E | reflexivity].
Qed.

Lemma round_trip_nonces w : nonces (snd (round_trip w)) = nonces w.
Proof. apply nonces_round_trip. Qed.

Lemma round_trip_clock w : clock (snd (round_trip w)) = clock w.
Proof. apply static_round_trip. Qed.

End Frame.

(** ** The security gate *)

Module SecurityFacts.
Import Store Query SecurityDb SecuritySpec SecurityView.
Local Open Scope string_scope.

(** *** Reasons are never empty *)

Lemma wallet_reason_truthy a : Js.truthy (snd (validateWalletAddress a)) = true.
Proof.
  unfold validateWalletAddress.
  destruct (String.eqb a ""); [reflexivity |].
  destruct (negb _); reflexivity.
Qed.

Lemma nonce_reason_truthy n wa cfg w :
  Js.truthy (reason (fst (checkAndConsumeNonce n wa cfg w))) = true.
Proof.
  unfold checkAndConsumeNonce, bind, Date_now.
  destruct (select_nonce n w) as [[existing checkError] w1].
  destruct (is_real_error checkError); [reflexivity |].
  destruct existing; [reflexivity |].
  destruct (insert_nonce _ w1) as [[code |] w2].
  - destruct (String.eqb code "23505"); reflexivity.
  - destruct (delete_nonces_lt _ w2). reflexivity.
Qed.

Lemma rate_details_truthy wa e cfg w :
  Js.truthy (rl_details (fst (checkRateLimit wa e cfg w))) = true.
Proof.
  unfold checkRateLimit, bind, Date_now.
  destruct (count_rate_limits _ _ _ w) as [[count [err |]] w1]; [reflexivity |].
  destruct (_ <=? _)%Z; [reflexivity |].
  destruct (insert_rate_limit _ w1). reflexivity.
Qed.

Lemma match_reason_truthy m w :
  Js.truthy (snd (fst (checkMatchUniqueness m w))) = true.
Proof.
  unfold checkMatchUniqueness, bind.
  destruct (select_processed_match m w) as [[data err] w1].
  destruct (is_real_error err); [reflexivity |].
  destruct data; reflexivity.
Qed.

(** *** The result as a function of the sub-check outcomes *)

Ltac norm :=
  cbv beta iota zeta delta
      [fold_left stepOutcome entry check_passed o_weight o_reason fst snd
       valid reason rl_allowed rl_details allowed usedToday app map
       Js.push Js.or_text ret].

Ltac merge_step :=
  match goal with
  | |- context [let '(_, _) := (if ?c then ?a else ?b) in _] =>
      let rs := fresh "rs" in let br := fresh "br" in
      destruct (if c then a else b) as [rs br]
  end.

Lemma performFullSecurityCheck_run params cfg w :
  let nc := checkAndConsumeNonce (p_nonce params) (walletAddress params) cfg w in
  let rc := checkRateLimit (walletAddress params) (endpoint params) cfg (snd nc) in
  let mc := checkMatchUniqueness (matchId params) (snd rc) in
  let dc := checkDailyCap (walletAddress params) match_ 1 cfg (snd mc) in
  let ec := rewardCapRun params cfg (snd dc) in
  performFullSecurityCheck params cfg w =
  (assemble (outcomes params cfg (validateWalletAddress (walletAddress params))
               (fst nc) (fst rc) (fst mc) (fst dc) (fst ec))
            (suspiciousWeight params cfg),
   snd ec).
Proof.
  cbv zeta.
  unfold performFullSecurityCheck, bind, suspiciousWeight, rewardCapRun, outcomes, assemble.
  destruct (validateWalletAddress (walletAddress params)) as [wv wr].
  norm. merge_step. cbv beta.
  destruct (checkAndConsumeNonce _ _ _ w) as [[nv nr] w1].
  norm. merge_step. cbv beta.
  destruct (checkRateLimit _ _ _ w1) as [[ra rrem rres rd] w2].
  norm. merge_step. cbv beta.
  destruct (checkMatchUniqueness _ w2) as [[mu mr] w3].
  norm. merge_step. cbv beta.
  destruct (checkDailyCap _ match_ _ _ w3) as [[da du drem dres] w4].
  norm. merge_step. cbv beta.
  destruct (rewardAmount params) as [ra' |].
  - destruct (checkDailyCap _ reward _ _ w4) as [[ea eu erem eres] w5].
    norm. merge_step. cbv beta.
    destruct (Js.gtb ra' (maxRewardPerMatch cfg)); norm;
    destruct (botConfidence params) as [bc |];
    try (destruct (Js.geb bc (banThreshold cfg)); [| destruct (Js.geb bc (suspiciousThreshold cfg))]);
    norm; rewrite ?Z.add_0_r; reflexivity.
  - norm;
    destruct (botConfidence params) as [bc |];
    try (destruct (Js.geb bc (banThreshold cfg)); [| destruct (Js.geb bc (suspiciousThreshold cfg))]);
    norm; rewrite ?Z.add_0_r; reflexivity.
Qed.

(** *** Folding the outcomes *)

Lemma fold_step_fst outs : forall acc,
  Forall outcome_ok outs ->
  fst (fold_left stepOutcome outs acc) = (fst acc + failedWeights (map entry outs))%Z.
Proof.
  induction outs as [| o outs IH]; intros acc Hok; cbn [fold_left map].
  - cbn. lia.
  - inversion Hok as [| ? ? [Hw _] Hrest]; subst.
    rewrite (IH _ Hrest). unfold stepOutcome, failedWeights; cbn [fold_right].
    destruct (check_passed (entry o)); cbn [negb fst]; [reflexivity |].
    rewrite Hw. fold (failedWeights (map entry outs)). lia.
Qed.

Lemma fold_step_snd outs : forall acc,
  Forall outcome_ok outs -> settled (snd acc) ->
  snd (fold_left stepOutcome outs acc) =
  match snd acc with
  | Some t => Some t
  | None => option_map blockMessage (firstFailure (map entry outs))
  end.
Proof.
  induction outs as [| o outs IH]; intros [rs br] Hok Hbr; cbn [fold_left map snd] in *.
  - destruct br; reflexivity.
  - inversion Hok as [| ? ? (_ & Hm & Ht) Hrest]; subst.
    unfold firstFailure; cbn [find]. unfold stepOutcome at 2.
    destruct (check_passed (entry o)); cbn [negb fst snd].
    + rewrite (IH (rs, br) Hrest Hbr). reflexivity.
    + assert (Hs : settled (Js.or_text br (o_reason o))).
      { destruct br as [t |]; cbn [Js.or_text settled].
        - cbn in Hbr. rewrite Hbr. exact Hbr.
        - exact Ht. }
      rewrite (IH (_, _) Hrest Hs); cbn [snd].
      destruct br as [t |]; cbn [Js.or_text option_map].
      * cbn in Hbr. rewrite Hbr. reflexivity.
      * rewrite Hm. reflexivity.
Qed.

Lemma firstFailure_none cs :
  forallb check_passed cs = true -> firstFailure cs = None.
Proof.
  induction cs as [| c cs IH]; cbn; [reflexivity |].
  destruct (check_passed c); cbn; [exact IH | discriminate].
Qed.

Lemma assemble_spec outs bonus :
  Forall outcome_ok outs ->
  let r := assemble outs bonus in
  checks r = map entry outs /\
  passed r = forallb check_passed (checks r) /\
  riskScore r = Z.min 100 (failedWeights (checks r) + bonus) /\
  blockReason r = option_map blockMessage (firstFailure (checks r)).
Proof.
  intros Hok. unfold assemble. cbn [checks passed riskScore blockReason].
  repeat split.
  - rewrite (fold_step_fst _ _ Hok). reflexivity.
  - destruct (forallb check_passed (map entry outs)) eqn:E.
    + rewrite (firstFailure_none _ E). reflexivity.
    + rewrite (fold_step_snd _ _ Hok); [reflexivity | exact I].
Qed.

Lemma outcomes_ok params cfg wc nc rc mc dc ec :
  Js.truthy (snd wc) = true -> Js.truthy (reason nc) = true ->
  Js.truthy (rl_details rc) = true -> Js.truthy (snd mc) = true ->
  Forall outcome_ok (outcomes params cfg wc nc rc mc dc ec).
Proof.
  intros Hw Hn Hr Hm. unfold outcomes.
  repeat (apply Forall_cons; [repeat split; assumption |]).
  apply Forall_app. split.
  - destruct (rewardAmount params); [destruct ec |]; repeat constructor.
  - destruct (botConfidence params); repeat constructor.
Qed.

Lemma outcomes_names params cfg wc nc rc mc dc ec :
  (rewardAmount params = None \/ ec <> None) ->
  map (fun o => name (entry o)) (outcomes params cfg wc nc rc mc dc ec)
  = fixedOrder params.
Proof.
  intros H. unfold outcomes, fixedOrder.
  destruct (rewardAmount params); [destruct ec |];
    destruct (botConfidence params); try reflexivity;
    destruct H; congruence.
Qed.

End SecurityFacts.

Module SecurityFrame.
Import Store Query SecurityDb SecuritySpec Footprint Frame.
Local Open Scope string_scope.

Lemma static_checkAndConsumeNonce n wa cfg :
  keeps same_static (checkAndConsumeNonce n wa cfg).
Proof.
  unfold checkAndConsumeNonce, select_nonce, insert_nonce, delete_nonces_lt.
  descend static_prim.
Qed.

Lemma static_checkRateLimit wa e cfg : keeps same_static (checkRateLimit wa e cfg).
Proof.
  unfold checkRateLimit, count_rate_limits, insert_rate_limit.
  descend static_prim.
Qed.

Lemma static_checkDailyCap wa t a cfg : keeps same_static (checkDailyCap wa t a cfg).
Proof.
  unfold checkDailyCap, select_daily_usage.
  descend static_prim.
Qed.

Lemma static_checkMatchUniqueness m : keeps same_static (checkMatchUniqueness m).
Proof.
  unfold checkMatchUniqueness, select_processed_match.
  descend static_prim.
Qed.

Lemma nonces_checkRateLimit wa e cfg : keeps same_nonces (checkRateLimit wa e cfg).
Proof.
  unfold checkRateLimit, count_rate_limits, insert_rate_limit.
  descend nonces_prim.
Qed.

Lemma nonces_checkDailyCap wa t a cfg : keeps same_nonces (checkDailyCap wa t a cfg).
Proof.
  unfold checkDailyCap, select_daily_usage.
  descend nonces_prim.
Qed.

Lemma nonces_checkMatchUniqueness m : keeps same_nonces (checkMatchUniqueness m).
Proof.
  unfold checkMatchUniqueness, select_processed_match.
  descend nonces_prim.
Qed.

Lemma static_rewardCapRun params cfg w :
  same_static w (snd (rewardCapRun params cfg w)).
Proof.
  unfold rewardCapRun. destruct (rewardAmount params); cbn [snd].
  - apply static_checkDailyCap.
  - reflexivity.
Qed.

Lemma nonces_rewardCapRun params cfg w :
  same_nonces w (snd (rewardCapRun params cfg w)).
Proof.
  unfold rewardCapRun. destruct (rewardAmount params); cbn [snd].
  - apply nonces_checkDailyCap.
  - reflexivity.
Qed.

(** The whole check leaves clock, environment, daily usage and processed
    matches as they were. *)
Lemma static_performFullSecurityCheck params cfg :
  keeps same_static (performFullSecurityCheck params cfg).
Proof.
  intro w. rewrite SecurityFacts.performFullSecurityCheck_run. cbn [snd].
  etransitivity; [apply static_checkAndConsumeNonce |].
  etransitivity; [apply static_checkRateLimit |].
  etransitivity; [apply static_checkMatchUniqueness |].
  etransitivity; [apply static_checkDailyCap |].
  apply static_rewardCapRun.
Qed.

(** After the nonce sub-check the nonce table does not change any more. *)
Lemma nonces_after_nonce_check params cfg w :
  nonces (snd (performFullSecurityCheck params cfg w)) =
  nonces (snd (checkAndConsumeNonce (p_nonce params) (walletAddress params) cfg w)).
Proof.
  rewrite SecurityFacts.performFullSecurityCheck_run. cbn [snd].
  rewrite (nonces_rewardCapRun params cfg _).
  rewrite (nonces_checkDailyCap _ _ _ _ _).
  rewrite (nonces_checkMatchUniqueness _ _).
  rewrite (nonces_checkRateLimit _ _ _ _).
  reflexivity.
Qed.

End SecurityFrame.

(** ** The nonce table *)

Module NonceFacts.
Import Store Query SecurityDb SecuritySpec Footprint Frame.
Local Open Scope string_scope.

Lemma select_nonce_nonces n w : nonces (snd (select_nonce n w)) = nonces w.
Proof.
  unfold select_nonce, bind, get, ret.
  pose proof (round_trip_nonces w) as H.
  destruct (round_trip w) as [[code |] w1]; exact H.
Qed.

Lemma select_nonce_clock n w : clock (snd (select_nonce n w)) = clock w.
Proof.
  unfold select_nonce, bind, get, ret.
  pose proof (round_trip_clock w) as H.
  destruct (round_trip w) as [[code |] w1]; exact H.
Qed.

Lemma select_nonce_faults n w : faults (snd (select_nonce n w)) = tl (faults w).
Proof.
  unfold select_nonce, bind, get, ret.
  pose proof (round_trip_faults w) as H.
  destruct (round_trip w) as [[code |] w1]; exact H.
Qed.

(** When the round trip goes through, the lookup answers from the table. *)
Lemma select_nonce_reached n w :
  hd None (faults w) = None ->
  fst (select_nonce n w) =
  single (filter (fun r => String.eqb (nonce r) n) (nonces w)).
Proof.
  intro H. unfold select_nonce, bind, get, ret.
  pose proof (round_trip_fst w) as Hf. pose proof (round_trip_nonces w) as Hn.
  destruct (round_trip w) as [[code |] w1]; cbn [fst snd] in *.
  - congruence.
  - rewrite Hn. reflexivity.
Qed.

(** Inserting a value that is already there fails and changes nothing. *)
Lemma insert_nonce_used row w :
  nonceUsed (nonce row) w = true ->
  fst (insert_nonce row w) <> None /\
  nonces (snd (insert_nonce row w)) = nonces w.
Proof.
  unfold nonceUsed. intro H. unfold insert_nonce, bind, get, ret.
  pose proof (round_trip_nonces w) as Hn.
  destruct (round_trip w) as [[code |] w1]; cbn [fst snd] in *.
  - split; [discriminate | exact Hn].
  - rewrite Hn, H. cbn [fst snd]. split; [discriminate | exact Hn].
Qed.

Lemma insert_nonce_reached_used row w :
  hd None (faults w) = None -> nonceUsed (nonce row) w = true ->
  fst (insert_nonce row w) = Some "23505".
Proof.
  unfold nonceUsed. intros Hf H. unfold insert_nonce, bind, get, ret.
  pose proof (round_trip_fst w) as Hr. pose proof (round_trip_nonces w) as Hn.
  destruct (round_trip w) as [[code |] w1]; cbn [fst snd] in *.
  - congruence.
  - rewrite Hn, H. reflexivity.
Qed.

(** What an insert leaves behind: the table as it was, or with the new row
    at its end when the insert succeeded. *)
Lemma insert_nonce_cases row w :
  clock (snd (insert_nonce row w)) = clock w /\
  match fst (insert_nonce row w) with
  | Some _ => nonces (snd (insert_nonce row w)) = nonces w
  | None => nonces (snd (insert_nonce row w)) = (nonces w ++ [row])%list
  end.
Proof.
  unfold insert_nonce, bind, get, ret, set_nonces.
  pose proof (round_trip_nonces w) as Hn. pose proof (round_trip_clock w) as Hc.
  destruct (round_trip w) as [[code |] w1]; cbn [fst snd] in *.
  - split; assumption.
  - destruct (existsb _ (nonces w1)); cbn [fst snd nonces clock].
    + split; assumption.
    + rewrite Hn. split; [assumption | reflexivity].
Qed.

(** The cleanup keeps every record that is not older than the threshold. *)
Lemma delete_nonces_lt_keeps threshold w r :
  In r (nonces w) -> (threshold <= used_at r)%Z ->
  In r (nonces (snd (delete_nonces_lt threshold w))).
Proof.
  intros Hin Hle. unfold delete_nonces_lt, bind, get, ret, set_nonces.
  pose proof (round_trip_nonces w) as Hn.
  destruct (round_trip w) as [[code |] w1]; cbn [fst snd nonces] in *.
  - rewrite Hn. exact Hin.
  - rewrite Hn. apply filter_In. split; [exact Hin |].
    apply negb_true_iff. apply Z.ltb_ge. exact Hle.
Qed.

Lemma delete_nonces_lt_clock threshold w :
  clock (snd (delete_nonces_lt threshold w)) = clock w.
Proof.
  unfold delete_nonces_lt, bind, get, ret, set_nonces.
  pose proof (round_trip_clock w) as Hc.
  destruct (round_trip w) as [[code |] w1]; cbn [fst snd clock] in *; exact Hc.
Qed.

Lemma nonceUsed_In n w :
  nonceUsed n w = true <-> exists r, In r (nonces w) /\ nonce r = n.
Proof.
  unfold nonceUsed. rewrite existsb_exists. split.
  - intros (r & Hin & He). exists r. split; [exact Hin | now apply String.eqb_eq].
  - intros (r & Hin & He). exists r. split; [exact Hin | now apply String.eqb_eq].
Qed.

(** A nonce whose record exists is refused and nothing is inserted,
    whatever the store answers. *)
Lemma used_nonce_refused n wa cfg w :
  nonceUsed n w = true ->
  valid (fst (checkAndConsumeNonce n wa cfg w)) = false /\
  nonces (snd (checkAndConsumeNonce n wa cfg w)) = nonces w.
Proof.
  intro H. unfold checkAndConsumeNonce, bind, Date_now, ret.
  pose proof (select_nonce_nonces n w) as Hs.
  destruct (select_nonce n w) as [[existing checkError] w1]; cbn [snd] in Hs.
  destruct (is_real_error checkError); [split; [reflexivity | exact Hs] |].
  destruct existing; [split; [reflexivity | exact Hs] |].
  assert (Hu : nonceUsed n w1 = true) by (unfold nonceUsed in *; rewrite Hs; exact H).
  pose proof (insert_nonce_used
                {| nonce := n; nonce_wallet := wa; used_at := clock w |} w1 Hu)
    as [Hne Hi].
  destruct (insert_nonce _ w1) as [[code |] w2]; cbn [fst snd] in *.
  - destruct (String.eqb code "23505"); cbn [fst snd valid]; split;
      try reflexivity; congruence.
  - congruence.
Qed.

(** With the store reachable the refusal carries a replay reason. *)
Lemma used_nonce_replay_reason n wa cfg w :
  nonceUsed n w = true -> storeReachable 2 w ->
  replayReason (reason (fst (checkAndConsumeNonce n wa cfg w))).
Proof.
  intros H Hreach. unfold checkAndConsumeNonce, bind, Date_now, ret.
  assert (H1 : hd None (faults w) = None /\ hd None (tl (faults w)) = None).
  { unfold storeReachable in Hreach.
    destruct (faults w) as [| f1 [| f2 rest]]; cbn in *; auto.
    - inversion Hreach; subst; auto.
    - inversion Hreach as [| ? ? ? Hr2]; subst. inversion Hr2; subst; auto. }
  destruct H1 as [Hf1 Hf2].
  pose proof (select_nonce_nonces n w) as Hs.
  pose proof (select_nonce_faults n w) as Hsf.
  pose proof (select_nonce_reached n w Hf1) as Hsel.
  destruct (select_nonce n w) as [[existing checkError] w1]; cbn [fst snd] in *.
  assert (Hne : is_real_error checkError = false).
  { unfold single in Hsel.
    destruct (filter _ (nonces w)) as [| r [| r' rs]]; inversion Hsel; reflexivity. }
  rewrite Hne.
  destruct existing; [left; reflexivity |].
  assert (Hu : nonceUsed n w1 = true) by (unfold nonceUsed in *; rewrite Hs; exact H).
  assert (Hf1' : hd None (faults w1) = None) by (rewrite Hsf; exact Hf2).
  pose proof (insert_nonce_reached_used
                {| nonce := n; nonce_wallet := wa; used_at := clock w |} w1 Hf1' Hu)
    as Hi.
  destruct (insert_nonce _ w1) as [[code |] w2]; cbn [fst snd] in *; [| discriminate].
  injection Hi as ->. right. reflexivity.
Qed.

(** Every record that has not expired at the time of the check is still
    there after it. *)
Lemma fresh_records_survive n wa cfg w r :
  In r (nonces w) -> (clock w - nonceExpiryMs cfg <= used_at r)%Z ->
  In r (nonces (snd (checkAndConsumeNonce n wa cfg w))).
Proof.
  intros Hin Hle. unfold checkAndConsumeNonce, bind, Date_now, ret.
  pose proof (select_nonce_nonces n w) as Hs.
  destruct (select_nonce n w) as [[existing checkError] w1]; cbn [snd] in Hs.
  assert (Hin1 : In r (nonces w1)) by (rewrite Hs; exact Hin).
  destruct (is_real_error checkError); [exact Hin1 |].
  destruct existing; [exact Hin1 |].
  pose proof (insert_nonce_cases
                {| nonce := n; nonce_wallet := wa; used_at := clock w |} w1)
    as [_ Hi].
  destruct (insert_nonce _ w1) as [[code |] w2]; cbn [fst snd] in *.
  - destruct (String.eqb code "23505"); cbn [snd]; rewrite Hi; exact Hin1.
  - pose proof (delete_nonces_lt_keeps (clock w - nonceExpiryMs cfg) w2 r) as Hd.
    destruct (delete_nonces_lt _ w2) as [u w3]; cbn [snd] in *.
    apply Hd; [| exact Hle]. rewrite Hi. apply in_or_app. left. exact Hin1.
Qed.

(** A nonce that is accepted has its record in the table afterwards,
    stamped with the time of the check. *)
Lemma accepted_nonce_recorded n wa cfg w :
  (0 <= nonceExpiryMs cfg)%Z ->
  valid (fst (checkAndConsumeNonce n wa cfg w)) = true ->
  exists r, In r (nonces (snd (checkAndConsumeNonce n wa cfg w))) /\
            nonce r = n /\ used_at r = clock w.
Proof.
  intros Hexp. unfold checkAndConsumeNonce, bind, Date_now, ret.
  destruct (select_nonce n w) as [[existing checkError] w1].
  destruct (is_real_error checkError); [discriminate |].
  destruct existing; [discriminate |].
  pose proof (insert_nonce_cases
                {| nonce := n; nonce_wallet := wa; used_at := clock w |} w1)
    as [_ Hi].
  destruct (insert_nonce _ w1) as [[code |] w2]; cbn [fst snd] in *.
  - destruct (String.eqb code "23505"); discriminate.
  - intros _.
    pose proof (delete_nonces_lt_keeps (clock w - nonceExpiryMs cfg) w2
                  {| nonce := n; nonce_wallet := wa; used_at := clock w |}) as Hd.
    destruct (delete_nonces_lt _ w2) as [u w3]; cbn [snd fst] in *.
    eexists. split; [apply Hd |].
    + rewrite Hi. apply in_or_app. right. left. reflexivity.
    + cbn [used_at]. lia.
    + split; reflexivity.
Qed.

End NonceFacts.

(** ** Results of the full security check *)

Module SecurityResults.
Import Store Query SecurityDb SecuritySpec SecurityView Footprint Frame.
Local Open Scope string_scope.

Lemma result_eq params cfg w :
  fst (performFullSecurityCheck params cfg w) =
  assemble (allOutcomes params cfg w) (suspiciousWeight params cfg).
Proof. rewrite SecurityFacts.performFullSecurityCheck_run. reflexivity. Qed.

Lemma allOutcomes_ok params cfg w :
  Forall outcome_ok (allOutcomes params cfg w).
Proof.
  unfold allOutcomes. apply SecurityFacts.outcomes_ok.
  - apply SecurityFacts.wallet_reason_truthy.
  - apply SecurityFacts.nonce_reason_truthy.
  - apply SecurityFacts.rate_details_truthy.
  - apply SecurityFacts.match_reason_truthy.
Qed.

Lemma allOutcomes_names params cfg w :
  map (fun o => name (entry o)) (allOutcomes params cfg w) = fixedOrder params.
Proof.
  unfold allOutcomes. apply SecurityFacts.outcomes_names.
  unfold rewardCapRun. destruct (rewardAmount params); [right; discriminate | left; reflexivity].
Qed.

(** The first four entries of every result. *)
Lemma checks_prefix params cfg w :
  exists rest,
    checks (fst (performFullSecurityCheck params cfg w)) =
    {| name := "WALLET_VALIDATION";
       check_passed := fst (validateWalletAddress (walletAddress params));
       details := snd (validateWalletAddress (walletAddress params)) |}
    :: {| name := "REPLAY_PREVENTION";
          check_passed := valid (nonceResult params cfg w);
          details := reason (nonceResult params cfg w) |}
    :: {| name := "RATE_LIMIT";
          check_passed := rl_allowed (rateResult params cfg w);
          details := rl_details (rateResult params cfg w) |}
    :: {| name := "MATCH_UNIQUENESS";
          check_passed := fst (matchResult params cfg w);
          details := snd (matchResult params cfg w) |}
    :: rest.
Proof.
  rewrite result_eq. unfold assemble; cbn [checks].
  unfold allOutcomes, outcomes. cbn [map app entry]. eexists. reflexivity.
Qed.

Lemma passed_forallb params cfg w :
  passed (fst (performFullSecurityCheck params cfg w)) =
  forallb check_passed (checks (fst (performFullSecurityCheck params cfg w))).
Proof.
  rewrite result_eq.
  apply (SecurityFacts.assemble_spec (allOutcomes params cfg w)
           (suspiciousWeight params cfg) (allOutcomes_ok params cfg w)).
Qed.

(** The entries are those of the sub-checks that ran, in their order. *)
Lemma checks_names params cfg w :
  map name (checks (fst (performFullSecurityCheck params cfg w)))
  = fixedOrder params.
Proof.
  rewrite result_eq. unfold assemble; cbn [checks].
  rewrite map_map. apply allOutcomes_names.
Qed.

(** The score: the weights of the failed entries and the non-fatal 20. *)
Lemma riskScore_spec params cfg w :
  riskScore (fst (performFullSecurityCheck params cfg w)) =
  Z.min 100 (failedWeights (checks (fst (performFullSecurityCheck params cfg w)))
             + suspiciousWeight params cfg).
Proof.
  rewrite result_eq.
  apply (SecurityFacts.assemble_spec (allOutcomes params cfg w)
           (suspiciousWeight params cfg) (allOutcomes_ok params cfg w)).
Qed.

(** The block reason: the message of the first failed entry, if any. *)
Lemma blockReason_spec params cfg w :
  blockReason (fst (performFullSecurityCheck params cfg w)) =
  option_map blockMessage
    (firstFailure (checks (fst (performFullSecurityCheck params cfg w)))).
Proof.
  rewrite result_eq.
  apply (SecurityFacts.assemble_spec (allOutcomes params cfg w)
           (suspiciousWeight params cfg) (allOutcomes_ok params cfg w)).
Qed.


(** A bot confidence of 0.8 fails without being fatal: every entry passes,
    there is no block reason, and the score is the 20 it contributes. *)
Lemma suspicious_confidence_contributes :
  let r := fst (performFullSecurityCheck Scenarios.suspiciousParams
                  DEFAULT_SECURITY_CONFIG (Store.empty 0)) in
  passed r = true /\ blockReason r = None /\ failedWeights (checks r) = 0%Z /\
  suspiciousWeight Scenarios.suspiciousParams DEFAULT_SECURITY_CONFIG = 20%Z /\
  riskScore r = 20%Z.
Proof.
  vm_compute. repeat split.
Qed.

End SecurityResults.

(** ** Replay prevention *)

Module ReplayFacts.
Import Store Query SecurityDb SecuritySpec SecurityView Footprint Frame SecurityResults.
Local Open Scope string_scope.

Lemma recorded_used n T w : recorded_since n T w -> nonceUsed n w = true.
Proof.
  intros (r & Hin & Hn & _). apply NonceFacts.nonceUsed_In. exists r. auto.
Qed.

Lemma nonce_valid_of_passed params cfg w :
  passed (fst (performFullSecurityCheck params cfg w)) = true ->
  valid (nonceResult params cfg w) = true.
Proof.
  intro H. rewrite passed_forallb in H.
  destruct (checks_prefix params cfg w) as [rest Hc].
  apply (proj1 (forallb_forall _ _) H {| name := "REPLAY_PREVENTION";
              check_passed := valid (nonceResult params cfg w);
              details := reason (nonceResult params cfg w) |}).
  rewrite Hc. right. left. reflexivity.
Qed.

Lemma used_nonce_blocks params cfg w :
  nonceUsed (p_nonce params) w = true ->
  passed (fst (performFullSecurityCheck params cfg w)) = false.
Proof.
  intro H.
  destruct (passed (fst (performFullSecurityCheck params cfg w))) eqn:E; [| reflexivity].
  apply nonce_valid_of_passed in E.
  destruct (NonceFacts.used_nonce_refused (p_nonce params) (walletAddress params) cfg w H)
    as [Hv _].
  unfold nonceResult in E. congruence.
Qed.

Lemma check_keeps_recorded params cfg w n T :
  recorded_since n T w -> (clock w <= T + nonceExpiryMs cfg)%Z ->
  recorded_since n T (snd (performFullSecurityCheck params cfg w)).
Proof.
  intros (r & Hin & Hn & Ht) Hc. exists r. split; [| auto].
  rewrite SecurityFrame.nonces_after_nonce_check.
  apply NonceFacts.fresh_records_survive; [exact Hin | lia].
Qed.

Lemma passed_records params cfg w T :
  (0 <= nonceExpiryMs cfg)%Z -> (T <= clock w)%Z ->
  passed (fst (performFullSecurityCheck params cfg w)) = true ->
  recorded_since (p_nonce params) T (snd (performFullSecurityCheck params cfg w)).
Proof.
  intros He Ht Hp. apply nonce_valid_of_passed in Hp.
  destruct (NonceFacts.accepted_nonce_recorded _ _ _ _ He Hp) as (r & Hin & Hn & Hu).
  exists r. rewrite SecurityFrame.nonces_after_nonce_check.
  repeat split; [exact Hin | exact Hn | lia].
Qed.

Lemma arrive_nonces t fs w : nonces (Run.arrive t fs w) = nonces w.
Proof. reflexivity. Qed.

Lemma arrive_recorded n T t fs w :
  recorded_since n T w -> recorded_since n T (Run.arrive t fs w).
Proof. intro H. exact H. Qed.

Lemma no_success_once_recorded cfg n T reqs : forall w,
  recorded_since n T w -> in_window cfg T reqs ->
  successes n reqs (fst (Run.securityChecks cfg reqs w)) = 0%nat.
Proof.
  induction reqs as [| r reqs IH]; intros w Hrec Hwin; [reflexivity |].
  cbn [Run.securityChecks].
  pose proof (Hwin r (or_introl eq_refl)) as [Hlo Hhi].
  pose proof (check_keeps_recorded (Run.params r) cfg
                (Run.arrive (Run.at_time r) (Run.store_errors r) w) n T
                (arrive_recorded n T _ _ w Hrec) Hhi) as Hnext.
  pose proof (used_nonce_blocks (Run.params r) cfg
                (Run.arrive (Run.at_time r) (Run.store_errors r) w)) as Hblock.
  destruct (performFullSecurityCheck _ _ _) as [res w1]; cbn [fst snd] in *.
  specialize (IH w1 Hnext (fun r' H' => Hwin r' (or_intror H'))).
  destruct (Run.securityChecks cfg reqs w1) as [ress w2]; cbn [fst snd successes] in *.
  rewrite IH.
  destruct (String.eqb (p_nonce (Run.params r)) n) eqn:E; cbn [andb]; [| reflexivity].
  apply String.eqb_eq in E. rewrite Hblock; [reflexivity |].
  rewrite E. apply (recorded_used n T). apply arrive_recorded. exact Hrec.
Qed.

Lemma at_most_one_success cfg n T reqs : forall w,
  in_window cfg T reqs ->
  (successes n reqs (fst (Run.securityChecks cfg reqs w)) <= 1)%nat.
Proof.
  induction reqs as [| r reqs IH]; intros w Hwin; [cbn; lia |].
  cbn [Run.securityChecks].
  pose proof (Hwin r (or_introl eq_refl)) as [Hlo Hhi].
  assert (He : (0 <= nonceExpiryMs cfg)%Z) by lia.
  pose proof (passed_records (Run.params r) cfg
                (Run.arrive (Run.at_time r) (Run.store_errors r) w) T He Hlo) as Hrec.
  destruct (performFullSecurityCheck _ _ _) as [res w1]; cbn [fst snd] in *.
  pose proof (no_success_once_recorded cfg n T reqs w1) as Hnone.
  specialize (IH w1 (fun r' H' => Hwin r' (or_intror H'))).
  destruct (Run.securityChecks cfg reqs w1) as [ress w2]; cbn [fst snd successes] in *.
  destruct (String.eqb (p_nonce (Run.params r)) n) eqn:E; cbn [andb]; [| exact IH].
  destruct (passed res) eqn:Ep; [| exact IH].
  apply String.eqb_eq in E. subst n.
  rewrite (Hnone (Hrec eq_refl) (fun r' H' => Hwin r' (or_intror H'))). lia.
Qed.

Lemma replay_entry_in_checks params cfg w :
  In {| name := "REPLAY_PREVENTION";
        check_passed := valid (nonceResult params cfg w);
        details := reason (nonceResult params cfg w) |}
     (checks (fst (performFullSecurityCheck params cfg w))).
Proof.
  destruct (checks_prefix params cfg w) as [rest ->]. right. left. reflexivity.
Qed.

(** With a valid wallet a refused nonce is the first failure, and its
    reason the block reason. *)
Lemma refused_nonce_blockReason params cfg w :
  fst (validateWalletAddress (walletAddress params)) = true ->
  valid (nonceResult params cfg w) = false ->
  blockReason (fst (performFullSecurityCheck params cfg w)) =
  Some (reason (nonceResult params cfg w)).
Proof.
  intros Hw Hv.
  rewrite blockReason_spec.
  destruct (checks_prefix params cfg w) as [rest ->].
  unfold firstFailure. cbn [find check_passed].
  rewrite Hw, Hv. reflexivity.
Qed.

(** C3 (as amended). When a NonceRecord for the submitted value exists,
    the security check returns [passed = false], its REPLAY_PREVENTION
    entry has failed, and the nonce table is left as it was (no second
    record); when the store is reachable the entry carries a replay
    reason, which is also the block reason if the wallet is well formed.
    Among checks that arrive within one nonce-expiry window at most one
    per nonce value succeeds. *)
Theorem C3_replayed_nonce_rejected :
  (forall params cfg w,
     nonceUsed (p_nonce params) w = true ->
     passed (fst (performFullSecurityCheck params cfg w)) = false /\
     nonces (snd (performFullSecurityCheck params cfg w)) = nonces w /\
     In {| name := "REPLAY_PREVENTION"; check_passed := false;
           details := reason (nonceResult params cfg w) |}
        (checks (fst (performFullSecurityCheck params cfg w))) /\
     (storeReachable 2 w ->
      replayReason (reason (nonceResult params cfg w)) /\
      (fst (validateWalletAddress (walletAddress params)) = true ->
       blockReason (fst (performFullSecurityCheck params cfg w)) =
       Some (reason (nonceResult params cfg w))))) /\
  (forall cfg T reqs w n,
     in_window cfg T reqs ->
     (successes n reqs (fst (Run.securityChecks cfg reqs w)) <= 1)%nat).
Proof.
  split.
  - intros params cfg w H.
    destruct (NonceFacts.used_nonce_refused (p_nonce params) (walletAddress params)
                cfg w H) as [Hv Hn].
    split; [apply used_nonce_blocks; exact H |].
    split; [rewrite SecurityFrame.nonces_after_nonce_check; exact Hn |].
    split.
    + pose proof (replay_entry_in_checks params cfg w) as Hin.
      unfold nonceResult in Hin at 1. rewrite Hv in Hin. exact Hin.
    + intro Hreach. split.
      * apply NonceFacts.used_nonce_replay_reason; assumption.
      * intro Hw. apply refused_nonce_blockReason; assumption.
  - intros cfg T reqs w n Hwin. apply (at_most_one_success cfg n T reqs w Hwin).
Qed.

Lemma C3_replayed_nonce_rejected_witness :
  nonceUsed (p_nonce (Scenarios.paramsFor Scenarios.nonceA Scenarios.matchB))
    Scenarios.usedWorld = true /\
  storeReachable 2 Scenarios.usedWorld /\
  passed (fst (performFullSecurityCheck
                 (Scenarios.paramsFor Scenarios.nonceA Scenarios.matchB)
                 DEFAULT_SECURITY_CONFIG Scenarios.usedWorld)) = false /\
  replayReason
    (reason (nonceResult (Scenarios.paramsFor Scenarios.nonceA Scenarios.matchB)
               DEFAULT_SECURITY_CONFIG Scenarios.usedWorld)) /\
  in_window DEFAULT_SECURITY_CONFIG 0 Scenarios.windowRun /\
  (successes Scenarios.nonceA Scenarios.windowRun
     (fst (Run.securityChecks DEFAULT_SECURITY_CONFIG Scenarios.windowRun
             (Store.empty 0))) <= 1)%nat.
Proof.
  assert (Hu : nonceUsed (p_nonce (Scenarios.paramsFor Scenarios.nonceA Scenarios.matchB))
                 Scenarios.usedWorld = true) by reflexivity.
  assert (Hr : storeReachable 2 Scenarios.usedWorld) by constructor.
  assert (Hw : in_window DEFAULT_SECURITY_CONFIG 0 Scenarios.windowRun).
  { intros r [<- | [<- | []]]; cbn; lia. }
  destruct C3_replayed_nonce_rejected as [Ha Hb].
  destruct (Ha (Scenarios.paramsFor Scenarios.nonceA Scenarios.matchB)
              DEFAULT_SECURITY_CONFIG Scenarios.usedWorld Hu) as (Hp & _ & _ & Hreason).
  split; [exact Hu |]. split; [exact Hr |]. split; [exact Hp |].
  split; [exact (proj1 (Hreason Hr)) |]. split; [exact Hw |].
  exact (Hb DEFAULT_SECURITY_CONFIG 0%Z Scenarios.windowRun (Store.empty 0)
           Scenarios.nonceA Hw).
Defined.

(** C3 as stated fails: after the expiry cleanup the same nonce value is
    accepted a second time.  And while the record exists, a check that
    cannot reach the store is refused without a replay reason. *)
Lemma C3_counterexample :
  map passed (fst (Run.securityChecks DEFAULT_SECURITY_CONFIG Scenarios.replayRun
                     (Store.empty 0))) = [true; true; true] /\
  successes Scenarios.nonceA Scenarios.replayRun
    (fst (Run.securityChecks DEFAULT_SECURITY_CONFIG Scenarios.replayRun
            (Store.empty 0))) = 2%nat /\
  ~ (forall cfg reqs w n,
       (successes n reqs (fst (Run.securityChecks cfg reqs w)) <= 1)%nat) /\
  reason (nonceResult (Scenarios.paramsFor Scenarios.nonceA Scenarios.matchB)
            DEFAULT_SECURITY_CONFIG
            (Store.with_faults [Some "08006"] Scenarios.usedWorld))
    = Js.Lit "Database error during nonce check".
Proof.
  assert (H2 : successes Scenarios.nonceA Scenarios.replayRun
                 (fst (Run.securityChecks DEFAULT_SECURITY_CONFIG Scenarios.replayRun
                         (Store.empty 0))) = 2%nat) by (vm_compute; reflexivity).
  split; [vm_compute; reflexivity |]. split; [exact H2 |].
  split; [| vm_compute; reflexivity].
  intro H.
  specialize (H DEFAULT_SECURITY_CONFIG Scenarios.replayRun (Store.empty 0)
                Scenarios.nonceA).
  rewrite H2 in H. lia.
Qed.

End ReplayFacts.

(** ** Store failures: rate limit and match uniqueness *)

Module FailureFacts.
Import Store Query SecurityDb SecuritySpec SecurityView Footprint Frame SecurityResults.
Local Open Scope string_scope.

Lemma checkRateLimit_fails_open wa e cfg w code :
  hd None (faults w) = Some code ->
  rl_allowed (fst (checkRateLimit wa e cfg w)) = true /\
  rl_details (fst (checkRateLimit wa e cfg w)) =
    Js.Lit "Rate limit check failed, allowing request".
Proof.
  intro H. unfold checkRateLimit, count_rate_limits, bind, Date_now, get, ret.
  pose proof (round_trip_fst w) as Hf. rewrite H in Hf.
  destruct (round_trip w) as [err w1]; cbn [fst] in Hf; subst err.
  cbn [fst rl_allowed rl_details]. split; reflexivity.
Qed.

Lemma is_real_error_code code :
  code <> "PGRST116" -> is_real_error (Some code) = true.
Proof.
  intro H. unfold is_real_error. apply negb_true_iff. now apply String.eqb_neq.
Qed.

Lemma checkMatchUniqueness_fails_closed m w code :
  hd None (faults w) = Some code -> code <> "PGRST116" ->
  fst (checkMatchUniqueness m w) =
    (false, Js.Lit "Database error during match check").
Proof.
  intros H Hc. unfold checkMatchUniqueness, select_processed_match, bind, get, ret.
  pose proof (round_trip_fst w) as Hf. rewrite H in Hf.
  destruct (round_trip w) as [err w1]; cbn [fst] in Hf; subst err.
  rewrite (is_real_error_code code Hc). reflexivity.
Qed.

Lemma rate_entry_in_checks params cfg w :
  In {| name := "RATE_LIMIT";
        check_passed := rl_allowed (rateResult params cfg w);
        details := rl_details (rateResult params cfg w) |}
     (checks (fst (performFullSecurityCheck params cfg w))).
Proof.
  destruct (checks_prefix params cfg w) as [rest ->].
  right. right. left. reflexivity.
Qed.

Lemma match_entry_in_checks params cfg w :
  In {| name := "MATCH_UNIQUENESS";
        check_passed := fst (matchResult params cfg w);
        details := snd (matchResult params cfg w) |}
     (checks (fst (performFullSecurityCheck params cfg w))).
Proof.
  destruct (checks_prefix params cfg w) as [rest ->].
  right. right. right. left. reflexivity.
Qed.

(** C4. When the store lookup fails, the rate-limit sub-check allows the
    request and records the degraded-mode detail, whereas the
    match-uniqueness sub-check reports the match as not unique, so that
    the whole check rejects: a failed lookup never lets a match id
    through. *)
Theorem C4_fail_open_vs_fail_closed :
  (forall wa e cfg w code,
     hd None (faults w) = Some code ->
     rl_allowed (fst (checkRateLimit wa e cfg w)) = true /\
     rl_details (fst (checkRateLimit wa e cfg w)) =
       Js.Lit "Rate limit check failed, allowing request") /\
  (forall m w code,
     hd None (faults w) = Some code -> code <> "PGRST116" ->
     fst (checkMatchUniqueness m w) =
       (false, Js.Lit "Database error during match check")) /\
  (forall params cfg w code,
     hd None (faults (atRateLimitCheck params cfg w)) = Some code ->
     In {| name := "RATE_LIMIT"; check_passed := true;
           details := Js.Lit "Rate limit check failed, allowing request" |}
        (checks (fst (performFullSecurityCheck params cfg w)))) /\
  (forall params cfg w code,
     hd None (faults (atMatchUniquenessCheck params cfg w)) = Some code ->
     code <> "PGRST116" ->
     passed (fst (performFullSecurityCheck params cfg w)) = false /\
     In {| name := "MATCH_UNIQUENESS"; check_passed := false;
           details := Js.Lit "Database error during match check" |}
        (checks (fst (performFullSecurityCheck params cfg w)))).
Proof.
  split; [exact checkRateLimit_fails_open |].
  split; [exact checkMatchUniqueness_fails_closed |].
  split.
  - intros params cfg w code H.
    pose proof (rate_entry_in_checks params cfg w) as Hin.
    destruct (checkRateLimit_fails_open (walletAddress params) (endpoint params)
                cfg _ code H) as [Ha Hd].
    unfold rateResult in Hin. rewrite Ha, Hd in Hin. exact Hin.
  - intros params cfg w code H Hc.
    pose proof (match_entry_in_checks params cfg w) as Hin.
    pose proof (checkMatchUniqueness_fails_closed (matchId params) _ code H Hc) as Hm.
    unfold matchResult in Hin. rewrite Hm in Hin. cbn [fst snd] in Hin.
    split; [| exact Hin].
    rewrite passed_forallb.
    destruct (forallb check_passed _) eqn:E; [| reflexivity].
    rewrite forallb_forall in E. specialize (E _ Hin). discriminate E.
Qed.

Lemma C4_fail_open_vs_fail_closed_witness :
  hd None (faults (atRateLimitCheck
                     (Scenarios.paramsFor Scenarios.nonceA Scenarios.matchA)
                     DEFAULT_SECURITY_CONFIG Scenarios.rateDownWorld))
    = Some "08006" /\
  In {| name := "RATE_LIMIT"; check_passed := true;
        details := Js.Lit "Rate limit check failed, allowing request" |}
     (checks (fst (performFullSecurityCheck
                     (Scenarios.paramsFor Scenarios.nonceA Scenarios.matchA)
                     DEFAULT_SECURITY_CONFIG Scenarios.rateDownWorld))) /\
  hd None (faults (atMatchUniquenessCheck
                     (Scenarios.paramsFor Scenarios.nonceA Scenarios.matchA)
                     DEFAULT_SECURITY_CONFIG Scenarios.matchDownWorld))
    = Some "08006" /\
  "08006" <> "PGRST116" /\
  passed (fst (performFullSecurityCheck
                 (Scenarios.paramsFor Scenarios.nonceA Scenarios.matchA)
                 DEFAULT_SECURITY_CONFIG Scenarios.matchDownWorld)) = false.
Proof.
  assert (H1 : hd None (faults (atRateLimitCheck
                 (Scenarios.paramsFor Scenarios.nonceA Scenarios.matchA)
                 DEFAULT_SECURITY_CONFIG Scenarios.rateDownWorld)) = Some "08006")
    by (vm_compute; reflexivity).
  assert (H2 : hd None (faults (atMatchUniquenessCheck
                 (Scenarios.paramsFor Scenarios.nonceA Scenarios.matchA)
                 DEFAULT_SECURITY_CONFIG Scenarios.matchDownWorld)) = Some "08006")
    by (vm_compute; reflexivity).
  assert (H3 : "08006" <> "PGRST116") by discriminate.
  destruct C4_fail_open_vs_fail_closed as (_ & _ & Hrate & Hmatch).
  split; [exact H1 |].
  split; [exact (Hrate _ _ _ _ H1) |].
  split; [exact H2 |]. split; [exact H3 |].
  exact (proj1 (Hmatch _ _ _ _ H2 H3)).
Defined.

End FailureFacts.

(** ** The match validator *)

Module ValidatorFacts.
Import Store Query MatchValidator Footprint Frame.
Local Open Scope string_scope.

Lemma leadingWins_le_length rows : (leadingWins rows <= Z.of_nat (List.length rows))%Z.
Proof.
  induction rows as [| m rows IH]; cbn [leadingWins List.length]; [lia |].
  destruct (Js.eqb (pm_placement m) 1); lia.
Qed.

Lemma leadingWins_nonneg rows : (0 <= leadingWins rows)%Z.
Proof.
  induction rows as [| m rows IH]; cbn [leadingWins]; [lia |].
  destruct (Js.eqb (pm_placement m) 1); lia.
Qed.

(** The loop counts the first places at the head of the rows: all of a
    prefix of first places, and nothing past a row that is not one. *)
Lemma leadingWins_app wins rest :
  Forall (fun m => pm_placement m == 1) wins ->
  leadingWins (wins ++ rest)%list = (Z.of_nat (List.length wins) + leadingWins rest)%Z.
Proof.
  induction 1 as [| m wins Hm _ IH]; [reflexivity |].
  cbn [app leadingWins List.length].
  assert (E : Js.eqb (pm_placement m) 1 = true) by (apply Qeq_bool_iff; exact Hm).
  rewrite E, IH. lia.
Qed.

Lemma leadingWins_stop m rest :
  ~ pm_placement m == 1 -> leadingWins (m :: rest) = 0%Z.
Proof.
  intro H. cbn [leadingWins].
  destruct (Js.eqb (pm_placement m) 1) eqn:E; [| reflexivity].
  apply Qeq_bool_iff in E. contradiction.
Qed.

(** A winner whose history starts with 20 wins is rejected by the
    win-pattern analysis. *)
Lemma analyzeWinPatterns_streak input w wins rest :
  placement input == 1 ->
  fst (select_recent_matches (walletAddress input)
         (clock w - 24 * 60 * 60 * 1000) 50 w) = (Some (wins ++ rest)%list, None) ->
  (20 <= List.length wins)%nat ->
  Forall (fun m => pm_placement m == 1) wins ->
  reject (fst (analyzeWinPatterns input w)) = true /\
  cr_reasonCode (fst (analyzeWinPatterns input w)) = Some SUSPICIOUS_WIN_STREAK /\
  cr_riskScore (fst (analyzeWinPatterns input w)) = 100%Z.
Proof.
  intros Hp Hsel Hlen Hwins.
  pose proof (leadingWins_app wins rest Hwins) as Hstreak.
  pose proof (leadingWins_nonneg rest) as Hrest.
  unfold analyzeWinPatterns, bind, Date_now, ret.
  destruct (select_recent_matches _ _ _ w) as [[rm err] w1]; cbn [fst] in Hsel.
  injection Hsel as -> ->.
  assert (Hlt : (List.length (wins ++ rest)%list <? MIN_MATCHES_FOR_RATE)%nat = false).
  { apply Nat.ltb_ge. rewrite length_app. unfold MIN_MATCHES_FOR_RATE. lia. }
  rewrite Hlt.
  destruct (Js.gtb _ MAX_WIN_RATE_24H).
  all: assert (He : Js.eqb (placement input) 1 = true) by (apply Qeq_bool_iff; exact Hp).
  all: rewrite He.
  all: assert (H10 : (MAX_CONSECUTIVE_WINS <=? leadingWins (wins ++ rest)%list + 1)%Z = true)
         by (apply Z.leb_le; unfold MAX_CONSECUTIVE_WINS; lia).
  all: assert (H20 : (MAX_CONSECUTIVE_WINS * 2 <=? leadingWins (wins ++ rest)%list + 1)%Z = true)
         by (apply Z.leb_le; unfold MAX_CONSECUTIVE_WINS; lia).
  all: rewrite H10, H20; cbn [fst reject cr_reasonCode cr_riskScore];
    repeat split; reflexivity.
Qed.

(** C7. A submission with placement 1 that passes the duration, input
    variance and kill-count checks, and whose history lookup succeeds and
    returns rows that start with at least 20 first places (whatever
    follows them), so 21 wins in a row with the current one, is rejected
    with reason code SUSPICIOUS_WIN_STREAK and risk score 100. *)
Theorem C7_win_streak_rejected input w wins rest :
  placement input == 1 ->
  reject (validateDuration input) = false ->
  reject (validateInputVariance input) = false ->
  reject (validateKillCount input) = false ->
  fst (select_recent_matches (walletAddress input)
         (clock w - 24 * 60 * 60 * 1000) 50 w) = (Some (wins ++ rest)%list, None) ->
  (20 <= List.length wins)%nat ->
  Forall (fun m => pm_placement m == 1) wins ->
  let r := fst (validateMatch input w) in
  allowed r = false /\ reasonCode r = Some SUSPICIOUS_WIN_STREAK /\
  riskScore r = 100%Z.
Proof.
  intros Hp Hd Hv Hk Hsel Hlen Hwins.
  destruct (analyzeWinPatterns_streak input w wins rest Hp Hsel Hlen Hwins)
    as (Hr & Hc & _).
  cbv zeta. unfold validateMatch, bind, ret.
  rewrite Hd, Hv, Hk.
  destruct (analyzeWinPatterns input w) as [res w1]; cbn [fst] in Hr, Hc.
  rewrite Hr. cbn [fst allowed reasonCode riskScore]. auto.
Qed.

Lemma C7_win_streak_rejected_witness :
  MatchValidator.placement Scenarios.streakInput == 1 /\
  reject (validateDuration Scenarios.streakInput) = false /\
  reject (validateInputVariance Scenarios.streakInput) = false /\
  reject (validateKillCount Scenarios.streakInput) = false /\
  fst (select_recent_matches (MatchValidator.walletAddress Scenarios.streakInput)
         (clock Scenarios.brokenStreakWorld - 24 * 60 * 60 * 1000) 50
         Scenarios.brokenStreakWorld)
    = (Some (map Scenarios.win (rev (seq 3 20))
             ++ [Scenarios.loss 2; Scenarios.win 1; Scenarios.win 0])%list, None) /\
  (20 <= List.length (map Scenarios.win (rev (seq 3 20))))%nat /\
  Forall (fun m => pm_placement m == 1) (map Scenarios.win (rev (seq 3 20))) /\
  allowed (fst (validateMatch Scenarios.streakInput Scenarios.brokenStreakWorld)) = false /\
  reasonCode (fst (validateMatch Scenarios.streakInput Scenarios.brokenStreakWorld))
    = Some SUSPICIOUS_WIN_STREAK /\
  riskScore (fst (validateMatch Scenarios.streakInput Scenarios.brokenStreakWorld))
    = 100%Z.
Proof.
  assert (Hp : MatchValidator.placement Scenarios.streakInput == 1) by reflexivity.
  assert (Hd : reject (validateDuration Scenarios.streakInput) = false)
    by (vm_compute; reflexivity).
  assert (Hv : reject (validateInputVariance Scenarios.streakInput) = false)
    by (vm_compute; reflexivity).
  assert (Hk : reject (validateKillCount Scenarios.streakInput) = false)
    by (vm_compute; reflexivity).
  assert (Hs : fst (select_recent_matches
                      (MatchValidator.walletAddress Scenarios.streakInput)
                      (clock Scenarios.brokenStreakWorld - 24 * 60 * 60 * 1000) 50
                      Scenarios.brokenStreakWorld)
               = (Some (map Scenarios.win (rev (seq 3 20))
                        ++ [Scenarios.loss 2; Scenarios.win 1; Scenarios.win 0])%list,
                  None))
    by (vm_compute; reflexivity).
  assert (Hl : (20 <= List.length (map Scenarios.win (rev (seq 3 20))))%nat)
    by (vm_compute; lia).
  assert (Hw : Forall (fun m => pm_placement m == 1)
                      (map Scenarios.win (rev (seq 3 20))))
    by (apply Forall_forall; intros m Hin; apply in_map_iff in Hin as (i & <- & _);
        reflexivity).
  do 7 (split; [assumption |]).
  exact (C7_win_streak_rejected Scenarios.streakInput Scenarios.brokenStreakWorld
           (map Scenarios.win (rev (seq 3 20)))
           [Scenarios.loss 2; Scenarios.win 1; Scenarios.win 0] Hp Hd Hv Hk Hs Hl Hw).
Defined.

(** What the final decision of [validateMatch] does with the accumulated
    score once no check has rejected. *)
Lemma validateMatch_final_decision input w :
  reject (validateDuration input) = false ->
  reject (validateInputVariance input) = false ->
  reject (validateKillCount input) = false ->
  reject (fst (analyzeWinPatterns input w)) = false ->
  let r := fst (validateMatch input w) in
  (riskScore r = 100%Z /\ allowed r = false /\ reasonCode r = Some BOT_DETECTED) \/
  (75 <= riskScore r < 100 /\ allowed r = true /\ reasonCode r = Some VALID /\
   reasonMessage r = Js.Lit "Match allowed but flagged for review")%Z \/
  (riskScore r < 75 /\ allowed r = true /\ reasonCode r = Some VALID /\
   reasonMessage r = Js.Lit "Match validated successfully")%Z.
Proof.
  intros Hd Hv Hk Hw. cbv zeta. unfold validateMatch, bind, ret.
  rewrite Hd, Hv, Hk.
  destruct (analyzeWinPatterns input w) as [res w1]; cbn [fst] in Hw. rewrite Hw.
  destruct (detectRapidMatches input w1) as [rapid w2].
  match goal with |- context [Z.min 100 ?x] => set (score := Z.min 100 x) end.
  assert (Hs : (score <= 100)%Z) by (apply Z.le_min_l).
  unfold REJECT, FLAG.
  destruct (100 <=? score)%Z eqn:E100; cbn [fst allowed reasonCode riskScore reasonMessage].
  - apply Z.leb_le in E100. left. repeat split. lia.
  - apply Z.leb_gt in E100.
    destruct (75 <=? score)%Z eqn:E75.
    + apply Z.leb_le in E75. right. left. repeat split; lia.
    + apply Z.leb_gt in E75. right. right. repeat split; lia.
Qed.

(** C2 at two inputs. A score of 95 is not rejected: the match is allowed
    with reason code VALID and the flagged-for-review message. A score of
    50 is allowed with the plain success message, not flagged. *)
Theorem C2_final_decision_at_95_and_50 :
  let r := fst (validateMatch Scenarios.flaggedInput (Store.empty 0)) in
  let r' := fst (validateMatch Scenarios.reviewInput (Store.empty 0)) in
  (riskScore r = 95%Z /\ allowed r = true /\ reasonCode r = Some VALID /\
   reasonMessage r = Js.Lit "Match allowed but flagged for review") /\
  (riskScore r' = 50%Z /\ allowed r' = true /\ reasonCode r' = Some VALID /\
   reasonMessage r' = Js.Lit "Match validated successfully").
Proof.
  vm_compute. repeat split.
Qed.

Lemma tables_select_recent_matches wa since n :
  keeps same_tables (select_recent_matches wa since n).
Proof.
  unfold select_recent_matches. descend ltac:(idtac; match goal with
                | |- keeps _ round_trip => apply tables_round_trip
                end).
Qed.

Lemma tables_analyzeWinPatterns input : keeps same_tables (analyzeWinPatterns input).
Proof.
  unfold analyzeWinPatterns.
  descend ltac:(idtac; match goal with
                | |- keeps _ (select_recent_matches _ _ _) =>
                    apply tables_select_recent_matches
                end).
Qed.

Lemma tables_detectRapidMatches input : keeps same_tables (detectRapidMatches input).
Proof.
  unfold detectRapidMatches.
  descend ltac:(idtac; match goal with
                | |- keeps _ (select_recent_matches _ _ _) =>
                    apply tables_select_recent_matches
                end).
Qed.

(** Validation reads the store and changes none of its tables. *)
Lemma tables_validateMatch input : keeps same_tables (validateMatch input).
Proof.
  unfold validateMatch.
  descend ltac:(idtac; match goal with
                | |- keeps _ (analyzeWinPatterns _) => apply tables_analyzeWinPatterns
                | |- keeps _ (detectRapidMatches _) => apply tables_detectRapidMatches
                end).
Qed.

End ValidatorFacts.


(** ** Doubles: the caps of the reward *)

Module DoubleFacts.
Import Double.
Local Open Scope Z_scope.

Lemma ofZ_0 : ofZ 0 = S754_zero false.
Proof. vm_compute. reflexivity. Qed.



Lemma clamp_NaN hi : Math_min (Math_max NaN (S754_zero false)) hi = NaN.
Proof. reflexivity. Qed.

End DoubleFacts.

(** ** Doubles: the daily cap *)

Module DoubleSums.
Import Double.
Local Open Scope Z_scope.

(** *** Rounding never gives [NaN] *)

Lemma shr_1_nonneg mrs : 0 <= shr_m mrs -> 0 <= shr_m (shr_1 mrs).
Proof.
  destruct mrs as [m r s]. cbn [shr_m]. intro H.
  destruct m as [| p | p]; [cbn; lia | | lia].
  destruct p; cbn; lia.
Qed.

Lemma iter_shr_1_nonneg p : forall mrs,
  0 <= shr_m mrs -> 0 <= shr_m (iter_pos shr_1 p mrs).
Proof.
  induction p as [p IH | p IH |]; intros mrs H; cbn [iter_pos].
  - apply IH, IH, shr_1_nonneg, H.
  - apply IH, IH, H.
  - apply shr_1_nonneg, H.
Qed.

Lemma shr_fexp_nonneg m e l :
  0 <= m -> 0 <= shr_m (fst (shr_fexp prec emax m e l)).
Proof.
  intro H. unfold shr_fexp, shr.
  assert (H0 : 0 <= shr_m (shr_record_of_loc m l))
    by (destruct l as [| []]; exact H).
  destruct (fexp prec emax (Zdigits2 m + e) - e) as [| p | p]; cbn [fst];
    [exact H0 | | exact H0].
  apply iter_shr_1_nonneg, H0.
Qed.

Lemma round_nearest_even_nonneg m l : 0 <= m -> 0 <= round_nearest_even m l.
Proof.
  intro H. destruct l as [| []]; cbn [round_nearest_even]; try lia.
  destruct (Z.even m); lia.
Qed.

Lemma binary_round_aux_not_nan sx mx ex lx :
  0 <= mx -> isNaN (binary_round_aux prec emax sx mx ex lx) = false.
Proof.
  intro H. unfold binary_round_aux.
  pose proof (shr_fexp_nonneg mx ex lx H) as H1.
  destruct (shr_fexp prec emax mx ex lx) as [mrs' e']. cbn [fst] in H1.
  pose proof (shr_fexp_nonneg
                (round_nearest_even (shr_m mrs') (loc_of_shr_record mrs')) e' loc_Exact
                (round_nearest_even_nonneg _ _ H1)) as H2.
  destruct (shr_fexp prec emax _ e' loc_Exact) as [mrs'' e'']. cbn [fst] in H2.
  destruct (shr_m mrs'') as [| p | p]; [reflexivity | | lia].
  destruct (e'' <=? emax - prec); reflexivity.
Qed.

Lemma binary_normalize_not_nan m e s :
  isNaN (binary_normalize prec emax m e s) = false.
Proof.
  unfold binary_normalize, binary_round.
  destruct m as [| p | p]; [reflexivity | |].
  - destruct (shl_align p e _) as [mz ez]. apply binary_round_aux_not_nan. lia.
  - destruct (shl_align p e _) as [mz ez]. apply binary_round_aux_not_nan. lia.
Qed.

(** A sum is [NaN] only if an operand is, or if the operands are the two
    infinities. *)
Lemma add_finite_not_nan x y :
  isNaN x = false -> finite y = true -> isNaN (add x y) = false.
Proof.
  intros Hx Hy.
  destruct y as [sy | sy | | sy my ey]; try discriminate Hy;
    destruct x as [sx | sx | | sx mx ex]; try discriminate Hx;
    try reflexivity.
  - destruct sx, sy; reflexivity.
  - unfold add, SFadd. apply binary_normalize_not_nan.
Qed.

(** *** The order on numbers *)

Lemma compare_antisym x y :
  SFcompare y x = option_map CompOpp (SFcompare x y).
Proof.
  destruct x as [sx | sx | | sx mx ex], y as [sy | sy | | sy my ey]; cbn;
    try reflexivity;
    try (destruct sx; reflexivity); try (destruct sy; reflexivity);
    try (destruct sx, sy; reflexivity).
  pose proof (Pos.compare_cont_antisym mx my Eq) as H. cbn [CompOpp] in H.
  destruct sx, sy; try reflexivity;
    rewrite (Z.compare_antisym ex ey);
    destruct (ex ?= ey); cbn [CompOpp option_map]; try reflexivity;
    rewrite <- H; destruct (Pos.compare_cont Eq mx my); reflexivity.
Qed.

(** [!(a > b)] is [a <= b] when neither is [NaN]. *)
Lemma not_gtb_leb a b :
  isNaN a = false -> isNaN b = false -> negb (gtb a b) = leb a b.
Proof.
  intros Ha Hb. unfold gtb, leb, SFltb, SFleb. rewrite (compare_antisym a b).
  destruct (SFcompare a b) as [[| |] |] eqn:E; try reflexivity.
  destruct a, b; try discriminate Ha; try discriminate Hb; cbn in E;
    discriminate E || (repeat match goal with s : bool |- _ => destruct s end;
                      discriminate E).
Qed.

End DoubleSums.

Module CapFacts64.
Import Double SecurityDb64 DoubleSums.
Local Open Scope Z_scope.

Lemma sumAmounts_snoc rows a :
  sumAmounts (rows ++ [a]) = add (sumAmounts rows) (or_num a (ofZ 0)).
Proof. unfold sumAmounts. rewrite fold_left_app. reflexivity. Qed.

(** A positive number that is not an infinity is truthy. *)
Lemma positive_truthy a :
  finite a = true -> ltb (ofZ 0) a = true -> truthy a = true.
Proof.
  rewrite DoubleFacts.ofZ_0.
  destruct a as [s | s | | s m e]; intros Hf Hp; try discriminate; reflexivity.
Qed.

(** X3. [checkDailyCap] on doubles.  It fails closed: on a store error the
    amount is refused and usage and remaining allowance are reported as 0.
    Otherwise the usage is the sum of the day's amounts in the order of
    the rows, each sum rounded, and the amount is refused exactly when
    usage plus amount, rounded, exceeds the cap.  So a positive finite
    amount is allowed exactly when the usage that the next check computes,
    once the row is recorded after the others, stays within the cap: the
    cap holds for the sum as the code computes it. *)
Theorem checkDailyCap_on_doubles answer capType amount config dayEnd :
  let r := checkDailyCap answer capType amount config dayEnd in
  let cap := maxCapOf capType config in
  resetAt r = dayEnd /\
  match error answer with
  | Some _ => allowed r = false /\ usedToday r = ofZ 0 /\ remaining r = ofZ 0
  | None =>
      usedToday r = sumAmounts (data answer) /\
      allowed r = negb (gtb (add (usedToday r) amount) cap) /\
      (isNaN (usedToday r) = false -> isNaN cap = false ->
       finite amount = true -> ltb (ofZ 0) amount = true ->
       allowed r = leb (sumAmounts (data (recorded answer amount))) cap)
  end.
Proof.
  cbv zeta. unfold checkDailyCap.
  destruct (error answer) as [code |].
  - repeat split.
  - set (used := sumAmounts (data answer)).
    set (cap := maxCapOf capType config).
    assert (H : (if gtb (add used amount) cap
                 then {| allowed := false; usedToday := used;
                         remaining := Math_max (ofZ 0) (sub cap used);
                         resetAt := dayEnd |}
                 else {| allowed := true; usedToday := used;
                         remaining := sub (Math_max (ofZ 0) (sub cap used)) amount;
                         resetAt := dayEnd |})
                = {| allowed := negb (gtb (add used amount) cap); usedToday := used;
                     remaining :=
                       if gtb (add used amount) cap
                       then Math_max (ofZ 0) (sub cap used)
                       else sub (Math_max (ofZ 0) (sub cap used)) amount;
                     resetAt := dayEnd |})
      by (destruct (gtb (add used amount) cap); reflexivity).
    rewrite H. cbn [allowed usedToday resetAt].
    split; [reflexivity |]. split; [reflexivity |]. split; [reflexivity |].
    intros Hu Hc Hf Hp.
    unfold recorded. cbn [data]. rewrite sumAmounts_snoc. fold used.
    cbn [or_num]. rewrite (positive_truthy amount Hf Hp).
    apply not_gtb_leb; [| exact Hc].
    apply add_finite_not_nan; assumption.
Qed.

Lemma checkDailyCap_on_doubles_witness :
  let r := checkDailyCap Examples.usedUp Store.reward Examples.tinyAmount
             DEFAULT_SECURITY_CONFIG 86400000 in
  isNaN (usedToday r) = false /\
  isNaN (maxCapOf Store.reward DEFAULT_SECURITY_CONFIG) = false /\
  finite Examples.tinyAmount = true /\ ltb (ofZ 0) Examples.tinyAmount = true /\
  allowed r
    = leb (sumAmounts (data (recorded Examples.usedUp Examples.tinyAmount)))
          (maxCapOf Store.reward DEFAULT_SECURITY_CONFIG) /\
  allowed r = true /\
  sumAmounts (data (recorded Examples.usedUp Examples.tinyAmount)) = ofZ 5000 /\
  ltb (remaining r) (ofZ 0) = true.
Proof.
  cbv zeta.
  assert (Hu : isNaN (usedToday (checkDailyCap Examples.usedUp Store.reward
                 Examples.tinyAmount DEFAULT_SECURITY_CONFIG 86400000)) = false)
    by (vm_compute; reflexivity).
  assert (Hc : isNaN (maxCapOf Store.reward DEFAULT_SECURITY_CONFIG) = false)
    by (vm_compute; reflexivity).
  assert (Hf : finite Examples.tinyAmount = true) by (vm_compute; reflexivity).
  assert (Hp : ltb (ofZ 0) Examples.tinyAmount = true) by (vm_compute; reflexivity).
  split; [exact Hu |]. split; [exact Hc |]. split; [exact Hf |]. split; [exact Hp |].
  split.
  - exact (proj2 (proj2 (proj2 (checkDailyCap_on_doubles Examples.usedUp Store.reward
             Examples.tinyAmount DEFAULT_SECURITY_CONFIG 86400000))) Hu Hc Hf Hp).
  - vm_compute. repeat split.
Defined.

End CapFacts64.
(** ** The match-submit handler *)

Module SubmitFacts.
Import Store Query SecurityView Footprint Frame MatchSubmit.
Local Open Scope string_scope.

(** Structure validation only reads the clock. *)
Lemma structure_keeps (R : World -> World -> Prop) `{!PreOrder R} payload :
  keeps R (validatePayloadStructure payload).
Proof.
  unfold validatePayloadStructure. descend fail.
Qed.








End SubmitFacts.

Module SubmitClaims.
Import Store Query SecurityView Footprint Frame MatchSubmit SubmitFacts.
Local Open Scope string_scope.




(** On scenario A the doubles are those of the exact formula. *)
Lemma scenario_A_on_doubles :
  let r := RewardCalculator64.calculateReward Examples.scenarioA64 in
  RewardCalculator64.baseReward r = Double.ofZ 25 /\
  RewardCalculator64.placementMultiplier r = Double.ofZ 2 /\
  RewardCalculator64.killBonus r = Double.ofZ 15 /\
  RewardCalculator64.survivalBonus r = Double.ofZ 6 /\
  RewardCalculator64.antiCheatModifier r = Double.ofZ 1 /\
  RewardCalculator64.totalReward r = Double.ofZ 71.
Proof.
  vm_compute. repeat split.
Qed.

(** The security check of the handler has exactly five entries. *)
Lemma handler_security_names payload w :
  map SecurityDb.name
    (SecurityDb.checks
       (fst (SecurityDb.performFullSecurityCheck (securityParamsOf payload)
               SecurityDb.DEFAULT_SECURITY_CONFIG w))) = five.
Proof.
  exact (SecurityResults.checks_names (securityParamsOf payload)
           SecurityDb.DEFAULT_SECURITY_CONFIG w).
Qed.

(** Structure validation leaves the store as it is. *)
Lemma structure_reads payload w : snd (validatePayloadStructure payload w) = w.
Proof.
  unfold validatePayloadStructure, bind, Date_now, ret.
  repeat match goal with
         | |- context [if ?c then _ else _] => destruct c
         end; reflexivity.
Qed.

(** C9. The handler gives [performFullSecurityCheck] neither a reward
    amount nor a bot confidence, so the reward-cap and bot-detection
    sub-checks never run on this path: the check it makes has exactly the
    entries WALLET_VALIDATION, REPLAY_PREVENTION, RATE_LIMIT,
    MATCH_UNIQUENESS and DAILY_MATCH_CAP, in that order.  The handler makes
    that check for every well-formed payload (unless the store client
    cannot be built) and returns its list as it is: in the 403 answer when
    the check failed, in the 200 answer when it passed.  The 400 and 500
    answers, given before the check, carry no list. *)
Theorem C9_five_security_checks payload w :
  let sr := fst (SecurityDb.performFullSecurityCheck (securityParamsOf payload)
                   SecurityDb.DEFAULT_SECURITY_CONFIG w) in
  SecurityDb.rewardAmount (securityParamsOf payload) = None /\
  SecurityDb.botConfidence (securityParamsOf payload) = None /\
  map SecurityDb.name (SecurityDb.checks sr) = five /\
  match fst (handler payload w) with
  | BadRequest e => fst (validatePayloadStructure payload w) = Some e
  | InternalError _ =>
      fst (validatePayloadStructure payload w) = None /\ env_ok w = false
  | SecurityFailed _ cs _ =>
      fst (validatePayloadStructure payload w) = None /\ env_ok w = true /\
      SecurityDb.passed sr = false /\ cs = SecurityDb.checks sr /\
      map SecurityDb.name cs = five
  | Ok d =>
      fst (validatePayloadStructure payload w) = None /\ env_ok w = true /\
      SecurityDb.passed sr = true /\ securityChecks d = Some (SecurityDb.checks sr) /\
      option_map (map SecurityDb.name) (securityChecks d) = Some five
  end.
Proof.
  cbv zeta.
  split; [reflexivity |]. split; [reflexivity |].
  split; [apply handler_security_names |].
  pose proof (handler_security_names payload w) as Hn.
  pose proof (structure_reads payload w) as Hw.
  unfold handler, bind, get, ret.
  destruct (validatePayloadStructure payload w) as [[e |] w0]; cbn [fst snd] in *;
    subst w0; [reflexivity |].
  destruct (env_ok w); cbn [negb fst]; [| split; reflexivity].
  destruct (SecurityDb.performFullSecurityCheck _ _ w) as [sr w1]; cbn [fst] in *.
  destruct (SecurityDb.passed sr); cbn [negb fst]; [| repeat split; exact Hn].
  destruct (MatchValidator.validateMatch _ w1) as [vr w2].
  destruct (MatchValidator.allowed vr).
  - destruct (SecurityDb.recordDailyUsage _ _ _ _ w2) as [u w3].
    destruct (SecurityDb.recordProcessedMatch _ _ _ _ _ w3) as [u' w4].
    cbn [fst securityChecks option_map]. rewrite Hn. repeat split.
  - cbn [fst securityChecks option_map]. rewrite Hn. repeat split.
Qed.

Lemma C9_five_security_checks_witness :
  (exists d w',
     handler Examples.cleanPayload (Store.empty 1000000) = (Ok d, w') /\
     securityChecks d
       = Some (SecurityDb.checks
                 (fst (SecurityDb.performFullSecurityCheck
                         (securityParamsOf Examples.cleanPayload)
                         SecurityDb.DEFAULT_SECURITY_CONFIG (Store.empty 1000000)))) /\
     option_map (map SecurityDb.name) (securityChecks d) = Some five) /\
  (exists e cs rs w',
     handler Examples.cleanPayload
       (snd (handler Examples.cleanPayload (Store.empty 1000000)))
     = (SecurityFailed e cs rs, w') /\
     map SecurityDb.name cs = five /\
     map SecurityDb.check_passed cs = [true; false; true; false; true]) /\
  (exists e w',
     handler Examples.malformedPayload (Store.empty 1000000) = (BadRequest e, w') /\
     fst (validatePayloadStructure Examples.malformedPayload (Store.empty 1000000))
       = Some e).
Proof.
  split; [| split].
  - pose proof (C9_five_security_checks Examples.cleanPayload (Store.empty 1000000))
      as (_ & _ & _ & H).
    destruct (handler Examples.cleanPayload (Store.empty 1000000)) as [res w'] eqn:E.
    assert (Hres : res = fst (handler Examples.cleanPayload (Store.empty 1000000)))
      by (rewrite E; reflexivity).
    assert (Hk : exists d, res = Ok d)
      by (rewrite Hres; vm_compute; eexists; reflexivity).
    destruct Hk as (d & ->). cbn [fst] in H. destruct H as (_ & _ & _ & Hc & Hn).
    exists d, w'. split; [reflexivity |]. split; [exact Hc | exact Hn].
  - set (w1 := snd (handler Examples.cleanPayload (Store.empty 1000000))).
    pose proof (C9_five_security_checks Examples.cleanPayload w1) as (_ & _ & _ & H).
    destruct (handler Examples.cleanPayload w1) as [res w'] eqn:E.
    assert (Hres : res = fst (handler Examples.cleanPayload w1))
      by (rewrite E; reflexivity).
    assert (Hk : exists e cs rs, res = SecurityFailed e cs rs /\
                   map SecurityDb.check_passed cs = [true; false; true; false; true]).
    { rewrite Hres. vm_compute. do 3 eexists. split; reflexivity. }
    destruct Hk as (e & cs & rs & -> & Hp). cbn [fst] in H.
    destruct H as (_ & _ & _ & _ & Hn).
    exists e, cs, rs, w'. split; [reflexivity |]. split; [exact Hn | exact Hp].
  - pose proof (C9_five_security_checks Examples.malformedPayload (Store.empty 1000000))
      as (_ & _ & _ & H).
    destruct (handler Examples.malformedPayload (Store.empty 1000000)) as [res w'] eqn:E.
    assert (Hres : res = fst (handler Examples.malformedPayload (Store.empty 1000000)))
      by (rewrite E; reflexivity).
    assert (Hk : exists e, res = BadRequest e)
      by (rewrite Hres; vm_compute; eexists; reflexivity).
    destruct Hk as (e & ->). cbn [fst] in H.
    exists e, w'. split; [reflexivity | exact H].
Defined.

Lemma modifier_of_flagged payload rs :
  (50 <= rs)%Z ->
  RewardCalculator.antiCheatModifier
    (RewardCalculator.calculateReward (matchDataOf payload rs)) = 0.
Proof.
  intro H. unfold RewardCalculator.calculateReward, matchDataOf.
  cbn [RewardCalculator.antiCheatModifier RewardCalculator.antiCheatPassed].
  assert (E : (rs <? 50)%Z = false) by (apply Z.ltb_ge; exact H).
  rewrite E. reflexivity.
Qed.

Lemma total_of_flagged payload rs :
  (50 <= rs)%Z ->
  RewardCalculator.totalReward
    (RewardCalculator.calculateReward (matchDataOf payload rs)) == 0.
Proof.
  intro H. rewrite RewardFacts.totalReward_clamp.
  unfold RewardCalculator.preClamp. rewrite (modifier_of_flagged payload rs H).
  rewrite Qmult_0_r. reflexivity.
Qed.

(** [calculateReward] uses the modifier 0.5 exactly when the anti-cheat
    passed and the bot confidence is at least 0.7. *)
Lemma modifier_half_iff m :
  RewardCalculator.antiCheatModifier (RewardCalculator.calculateReward m) == 1 # 2
  <-> RewardCalculator.antiCheatPassed m = true /\
      7 # 10 <= RewardCalculator.botConfidence m.
Proof.
  unfold RewardCalculator.calculateReward.
  cbn [RewardCalculator.antiCheatModifier].
  destruct (RewardCalculator.antiCheatPassed m); cbn [negb].
  - destruct (Js.geb (RewardCalculator.botConfidence m) (7 # 10)) eqn:E.
    + apply JsFacts.geb_ge in E. split; [intros _; split; [reflexivity | exact E] |].
      intros _. reflexivity.
    + apply JsFacts.geb_lt in E. split; [discriminate |].
      intros [_ H]. exfalso. exact (Qlt_not_le _ _ E H).
  - split; [discriminate | intros [H _]; discriminate H].
Qed.

Lemma modifier_never_half payload rs :
  ~ RewardCalculator.antiCheatModifier
      (RewardCalculator.calculateReward (matchDataOf payload rs)) == 1 # 2.
Proof.
  unfold RewardCalculator.calculateReward, matchDataOf.
  cbn [RewardCalculator.antiCheatModifier RewardCalculator.antiCheatPassed
       RewardCalculator.botConfidence].
  destruct (rs <? 50)%Z eqn:E; cbn [negb]; [| discriminate].
  apply Z.ltb_lt in E.
  assert (Hlt : inject_Z rs / 100 < 7 # 10).
  { unfold Qlt, Qdiv, Qmult, Qinv, inject_Z. cbn. lia. }
  apply JsFacts.geb_lt in Hlt. rewrite Hlt. discriminate.
Qed.

(** The processed-match table after a record attempt. *)
Lemma recordProcessedMatch_cases m wa p r tx w :
  let w' := snd (SecurityDb.recordProcessedMatch m wa p r tx w) in
  processed_matches w' = processed_matches w \/
  exists row, processed_matches w' = (processed_matches w ++ [row])%list /\
              match_id row = m /\ reward_amount row = r.
Proof.
  cbv zeta.
  unfold SecurityDb.recordProcessedMatch, insert_processed_match, bind, get, ret,
    Date_now, set_processed_matches.
  pose proof (tables_round_trip w) as (_ & _ & _ & Hp & _).
  destruct (round_trip w) as [[code |] w1]; cbn [snd fst] in *; [left; exact Hp |].
  destruct (existsb _ (processed_matches w1)); cbn [snd processed_matches].
  - left. exact Hp.
  - right. eexists. rewrite Hp. split; [reflexivity | split; reflexivity].
Qed.

Lemma recordDailyUsage_processed wa t a m w :
  processed_matches (snd (SecurityDb.recordDailyUsage wa t a m w)) = processed_matches w.
Proof.
  unfold SecurityDb.recordDailyUsage, insert_daily_usage, bind, get, ret, Date_now,
    set_daily_usage.
  pose proof (tables_round_trip w) as (_ & _ & _ & Hp & _).
  destruct (round_trip w) as [[code |] w1]; cbn [snd fst processed_matches] in *; exact Hp.
Qed.

(** An accepted answer carries the reward computed from the payload and
    the validation risk score, and at most one processed-match row is
    written, with that reward. *)
Lemma handler_accepted payload w d w' :
  handler payload w = (Ok d, w') -> allowed d = true ->
  calculatedReward d =
    RewardCalculator.totalReward
      (RewardCalculator.calculateReward (matchDataOf payload (riskScore d))) /\
  (processed_matches w' = processed_matches w \/
   exists row, processed_matches w' = (processed_matches w ++ [row])%list /\
               match_id row = matchId payload /\
               reward_amount row = calculatedReward d).
Proof.
  unfold handler, bind, get, ret.
  pose proof (structure_keeps same_tables payload w) as (_ & _ & _ & Hp0 & _).
  destruct (validatePayloadStructure payload w) as [[e |] w0]; cbn [fst snd] in *;
    [discriminate |].
  destruct (env_ok w0); cbn [negb]; [| discriminate].
  pose proof (SecurityFrame.static_performFullSecurityCheck (securityParamsOf payload)
                SecurityDb.DEFAULT_SECURITY_CONFIG w0) as (_ & _ & _ & Hp1).
  destruct (SecurityDb.performFullSecurityCheck _ _ w0) as [sr w1]; cbn [snd] in Hp1.
  destruct (SecurityDb.passed sr); cbn [negb]; [| discriminate].
  pose proof (ValidatorFacts.tables_validateMatch (matchInputOf payload) w1)
    as (_ & _ & _ & Hp2 & _).
  destruct (MatchValidator.validateMatch _ w1) as [vr w2]; cbn [snd] in Hp2.
  destruct (MatchValidator.allowed vr) eqn:Ea.
  - pose proof (recordDailyUsage_processed (walletAddress payload) match_ 1
                  (matchId payload) w2) as Hp3.
    destruct (SecurityDb.recordDailyUsage _ _ _ _ w2) as [u w3]; cbn [snd] in Hp3.
    pose proof (recordProcessedMatch_cases (matchId payload) (walletAddress payload)
                  (placement payload)
                  (RewardCalculator.totalReward
                     (RewardCalculator.calculateReward
                        (matchDataOf payload (MatchValidator.riskScore vr))))
                  None w3) as Hp4.
    destruct (SecurityDb.recordProcessedMatch _ _ _ _ _ w3) as [u' w4]; cbn [snd] in Hp4.
    intros H _. injection H as <- <-. cbn [calculatedReward riskScore].
    split; [reflexivity |].
    rewrite Hp3, Hp2, Hp1, Hp0 in Hp4. exact Hp4.
  - intros H Hd. injection H as <- <-. cbn [allowed] in Hd. discriminate.
Qed.

(** C8. Whenever the validation risk score is at least 50 the handler
    calls [calculateReward] with [antiCheatPassed = false]: the modifier
    is 0 and the reward 0.  [calculateReward] applies the modifier 0.5
    only when the anti-cheat passed with a bot confidence of at least 0.7,
    which the handler's derivation (passed iff score < 50, confidence =
    score / 100) never produces.  An accepted submission with risk score
    at least 50 returns, and records, a calculated reward of 0. *)
Theorem C8_flagged_matches_earn_nothing :
  (forall payload rs, (50 <= rs)%Z ->
     RewardCalculator.antiCheatPassed (matchDataOf payload rs) = false /\
     RewardCalculator.antiCheatModifier
       (RewardCalculator.calculateReward (matchDataOf payload rs)) = 0 /\
     RewardCalculator.totalReward
       (RewardCalculator.calculateReward (matchDataOf payload rs)) == 0) /\
  (forall m,
     RewardCalculator.antiCheatModifier (RewardCalculator.calculateReward m) == 1 # 2
     <-> RewardCalculator.antiCheatPassed m = true /\
         7 # 10 <= RewardCalculator.botConfidence m) /\
  (forall payload rs,
     ~ RewardCalculator.antiCheatModifier
         (RewardCalculator.calculateReward (matchDataOf payload rs)) == 1 # 2) /\
  (forall payload w d w',
     handler payload w = (Ok d, w') -> allowed d = true -> (50 <= riskScore d)%Z ->
     calculatedReward d == 0 /\
     (processed_matches w' = processed_matches w \/
      exists row, processed_matches w' = (processed_matches w ++ [row])%list /\
                  match_id row = matchId payload /\ reward_amount row == 0)).
Proof.
  split; [| split; [exact modifier_half_iff | split]].
  - intros payload rs H. split; [| split].
    + cbn. apply Z.ltb_ge. exact H.
    + apply modifier_of_flagged. exact H.
    + apply total_of_flagged. exact H.
  - exact modifier_never_half.
  - intros payload w d w' Hh Ha Hr.
    destruct (handler_accepted payload w d w' Hh Ha) as [Hc Hrows].
    assert (H0 : calculatedReward d == 0)
      by (rewrite Hc; apply total_of_flagged; exact Hr).
    split; [exact H0 |].
    destruct Hrows as [Hsame | (row & Hrow & Hid & Hamt)]; [left; exact Hsame |].
    right. exists row. repeat split; [exact Hrow | exact Hid |].
    rewrite Hamt. exact H0.
Qed.

Lemma C8_flagged_matches_earn_nothing_witness :
  (exists d w',
     handler Scenarios.flaggedPayload (Store.empty 1000000) = (Ok d, w') /\
     allowed d = true /\ (50 <= riskScore d)%Z /\ calculatedReward d == 0) /\
  RewardCalculator.antiCheatModifier
    (RewardCalculator.calculateReward (matchDataOf Scenarios.flaggedPayload 95)) = 0.
Proof.
  destruct C8_flagged_matches_earn_nothing as (Hmod & _ & _ & Hacc).
  split.
  - destruct (handler Scenarios.flaggedPayload (Store.empty 1000000)) as [res w']
      eqn:E.
    assert (Hk : exists d, res = Ok d /\ allowed d = true /\ riskScore d = 95%Z).
    { assert (Hres : res = fst (handler Scenarios.flaggedPayload (Store.empty 1000000)))
        by (rewrite E; reflexivity).
      rewrite Hres. vm_compute. eexists. repeat split. }
    destruct Hk as (d & -> & Ha & Hr).
    assert (H50 : (50 <= riskScore d)%Z) by (rewrite Hr; discriminate).
    exists d, w'. split; [reflexivity |]. split; [exact Ha |]. split; [exact H50 |].
    exact (proj1 (Hacc _ _ _ _ E Ha H50)).
  - assert (H : (50 <= 95)%Z) by discriminate.
    exact (proj1 (proj2 (Hmod Scenarios.flaggedPayload 95%Z H))).
Defined.

End SubmitClaims.


(** ** Footprints of the ledger operations *)

Module LedgerFrame.
Import Store Query SecurityDb SecuritySpec Ledger Footprint Frame.
Local Open Scope string_scope.

#[export] Instance preserves_preorder (P : World -> Prop) : PreOrder (preserves P).
Proof. split; [intros w H; exact H | intros a b c H1 H2 H; exact (H2 (H1 H))]. Qed.

#[export] Instance unchanged_preorder {A : Type} (proj : World -> A) :
  PreOrder (unchanged proj).
Proof. split; [intro w; reflexivity | intros a b c; unfold unchanged; congruence]. Qed.

#[export] Instance fewer_faults_preorder : PreOrder fewer_faults.
Proof.
  split; [intro w; apply incl_refl | intros a b c H1 H2; exact (incl_tran H2 H1)].
Qed.

#[export] Instance matches_grow_preorder : PreOrder matches_grow.
Proof.
  split.
  - intro w. exists []. symmetry. apply app_nil_r.
  - intros a b c [l1 H1] [l2 H2]. exists (l1 ++ l2)%list.
    rewrite H2, H1. symmetry. apply app_assoc.
Qed.

#[export] Instance same_world_preorder : PreOrder (fun w w' : World => w' = w).
Proof. split; [intro w; reflexivity | intros a b c H1 H2; congruence]. Qed.

(** Leaves of the store interface that leave a component alone. *)
Ltac unchanged_prim :=
  idtac; match goal with
  | |- keeps (unchanged _) round_trip =>
      let w := fresh "w" in
      intro w; unfold unchanged, round_trip; destruct (faults w); reflexivity
  | |- keeps (unchanged _) (set_nonces _) => intro; reflexivity
  | |- keeps (unchanged _) (set_rate_limits _) => intro; reflexivity
  | |- keeps (unchanged _) (set_daily_usage _) => intro; reflexivity
  | |- keeps (unchanged _) (set_processed_matches _) => intro; reflexivity
  end.

(** Leaves of the store interface consume scripted errors, and add none. *)
Ltac faults_prim :=
  idtac; match goal with
  | |- keeps fewer_faults round_trip =>
      let w := fresh "w" in
      let E := fresh "E" in
      intro w; unfold fewer_faults, round_trip; destruct (faults w) eqn:E;
      cbn [snd faults with_faults];
      [rewrite E; apply incl_refl | apply incl_tl, incl_refl]
  | |- keeps fewer_faults (set_nonces _) => intro; apply incl_refl
  | |- keeps fewer_faults (set_rate_limits _) => intro; apply incl_refl
  | |- keeps fewer_faults (set_daily_usage _) => intro; apply incl_refl
  | |- keeps fewer_faults (set_processed_matches _) => intro; apply incl_refl
  end.

(** *** The rate-limit table *)

Lemma limits_checkAndConsumeNonce n wa cfg :
  keeps (unchanged rate_limits) (checkAndConsumeNonce n wa cfg).
Proof.
  unfold checkAndConsumeNonce, select_nonce, insert_nonce, delete_nonces_lt.
  descend unchanged_prim.
Qed.

Lemma limits_checkMatchUniqueness m :
  keeps (unchanged rate_limits) (checkMatchUniqueness m).
Proof.
  unfold checkMatchUniqueness, select_processed_match. descend unchanged_prim.
Qed.

Lemma limits_checkDailyCap wa t a cfg :
  keeps (unchanged rate_limits) (checkDailyCap wa t a cfg).
Proof. unfold checkDailyCap, select_daily_usage. descend unchanged_prim. Qed.

Lemma limits_rewardCapRun params cfg w :
  unchanged rate_limits w (snd (rewardCapRun params cfg w)).
Proof.
  unfold rewardCapRun. destruct (rewardAmount params); cbn [snd].
  - apply limits_checkDailyCap.
  - reflexivity.
Qed.

Lemma limits_recordDailyUsage wa t a m :
  keeps (unchanged rate_limits) (recordDailyUsage wa t a m).
Proof. unfold recordDailyUsage, insert_daily_usage. descend unchanged_prim. Qed.

Lemma limits_recordProcessedMatch m wa p r tx :
  keeps (unchanged rate_limits) (recordProcessedMatch m wa p r tx).
Proof. unfold recordProcessedMatch, insert_processed_match. descend unchanged_prim. Qed.

Lemma tables_limits w w' : same_tables w w' -> unchanged rate_limits w w'.
Proof. unfold same_tables, unchanged. intuition. Qed.

(** *** The nonce table, the usage table and the processed matches *)

Lemma nonces_recordDailyUsage wa t a m :
  keeps (unchanged nonces) (recordDailyUsage wa t a m).
Proof. unfold recordDailyUsage, insert_daily_usage. descend unchanged_prim. Qed.

Lemma nonces_recordProcessedMatch m wa p r tx :
  keeps (unchanged nonces) (recordProcessedMatch m wa p r tx).
Proof. unfold recordProcessedMatch, insert_processed_match. descend unchanged_prim. Qed.

Lemma daily_recordProcessedMatch m wa p r tx :
  keeps (unchanged daily_usage) (recordProcessedMatch m wa p r tx).
Proof. unfold recordProcessedMatch, insert_processed_match. descend unchanged_prim. Qed.

Lemma matches_recordDailyUsage wa t a m :
  keeps (unchanged processed_matches) (recordDailyUsage wa t a m).
Proof. unfold recordDailyUsage, insert_daily_usage. descend unchanged_prim. Qed.



(** *** The script of store errors *)

Lemma faults_checkAndConsumeNonce n wa cfg :
  keeps fewer_faults (checkAndConsumeNonce n wa cfg).
Proof.
  unfold checkAndConsumeNonce, select_nonce, insert_nonce, delete_nonces_lt.
  descend faults_prim.
Qed.

Lemma faults_checkRateLimit wa e cfg : keeps fewer_faults (checkRateLimit wa e cfg).
Proof.
  unfold checkRateLimit, count_rate_limits, insert_rate_limit. descend faults_prim.
Qed.









Lemma fewer_faults_honest w w' : fewer_faults w w' -> honest w -> honest w'.
Proof. unfold fewer_faults, honest. intros H Hh Hin. apply Hh, H, Hin. Qed.

Lemma honest_hd w : honest w -> hd None (faults w) <> Some "PGRST116".
Proof.
  unfold honest. destruct (faults w) as [|f fs]; cbn; [discriminate|].
  intros H E. apply H. left. exact E.
Qed.


End LedgerFrame.

(** ** The two handlers, stage by stage *)

Module PipelineFrame.
Import Store Query Ledger Footprint Frame LedgerFrame.
Local Open Scope string_scope.

(** A relation kept by the calls of the handlers is kept by the handlers
    and by runs of requests. *)
Section Generic.
Context (R : World -> World -> Prop) `{!PreOrder R}.
Hypothesis R_security : forall params,
  keeps R (SecurityDb.performFullSecurityCheck params SecurityDb.DEFAULT_SECURITY_CONFIG).
Hypothesis R_validate : forall input, keeps R (MatchValidator.validateMatch input).
Hypothesis R_usage : forall wa t a m, keeps R (SecurityDb.recordDailyUsage wa t a m).
Hypothesis R_processed : forall m wa p r tx,
  keeps R (SecurityDb.recordProcessedMatch m wa p r tx).
Hypothesis R_arrive : forall t fs w, R w (Run.arrive t fs w).

Lemma grant_structure_keeps payload : keeps R (RewardGrant.validatePayload payload).
Proof. unfold RewardGrant.validatePayload. descend fail. Qed.

Ltac handler_prim :=
  idtac; match goal with
  | |- keeps _ (MatchSubmit.validatePayloadStructure _) =>
      apply SubmitFacts.structure_keeps; exact _
  | |- keeps _ (RewardGrant.validatePayload _) => apply grant_structure_keeps
  | |- keeps _ (SecurityDb.performFullSecurityCheck _ _) => apply R_security
  | |- keeps _ (MatchValidator.validateMatch _) => apply R_validate
  | |- keeps _ (SecurityDb.recordDailyUsage _ _ _ _) => apply R_usage
  | |- keeps _ (SecurityDb.recordProcessedMatch _ _ _ _ _) => apply R_processed
  end.

Lemma submit_handler_keeps payload : keeps R (MatchSubmit.handler payload).
Proof. unfold MatchSubmit.handler. descend handler_prim. Qed.

Lemma grant_handler_keeps hmac js secret payload tx :
  keeps R (RewardGrant.handler hmac js secret payload tx).
Proof. unfold RewardGrant.handler. descend handler_prim. Qed.

Lemma serveOne_keeps hmac js secret r : keeps R (Pipeline.serveOne hmac js secret r).
Proof.
  intro w. destruct r as [payload | payload tx]; cbn [Pipeline.serveOne].
  - pose proof (submit_handler_keeps payload w) as H.
    destruct (MatchSubmit.handler payload w); exact H.
  - pose proof (grant_handler_keeps hmac js secret payload tx w) as H.
    destruct (RewardGrant.handler _ _ _ payload tx w); exact H.
Qed.

Lemma serve_keeps hmac js secret reqs :
  forall w, R w (snd (Pipeline.serve hmac js secret reqs w)).
Proof.
  induction reqs as [|r reqs IH]; intro w; cbn [Pipeline.serve]; [reflexivity|].
  pose proof (serveOne_keeps hmac js secret (Pipeline.a_request r)
                (Run.arrive (Pipeline.a_time r) (Pipeline.a_errors r) w)) as H.
  destruct (Pipeline.serveOne _ _ _ _ _) as [res w1]; cbn [snd] in H.
  specialize (IH w1).
  destruct (Pipeline.serve _ _ _ reqs w1) as [ress w2]; cbn [snd] in *.
  transitivity (Run.arrive (Pipeline.a_time r) (Pipeline.a_errors r) w);
    [apply R_arrive|].
  transitivity w1; assumption.
Qed.

End Generic.

Lemma structure_world payload w :
  snd (MatchSubmit.validatePayloadStructure payload w) = w.
Proof. apply (SubmitFacts.structure_keeps (fun w w' => w' = w)). Qed.

Lemma grant_structure_world payload w :
  snd (RewardGrant.validatePayload payload w) = w.
Proof. apply (grant_structure_keeps (fun w w' => w' = w)). Qed.

(** The stages of a match submission, by the kind of its answer. *)
Lemma submit_trace payload w :
  let sc := SecurityDb.performFullSecurityCheck (MatchSubmit.securityParamsOf payload)
              SecurityDb.DEFAULT_SECURITY_CONFIG w in
  let vr := MatchValidator.validateMatch (MatchSubmit.matchInputOf payload) (snd sc) in
  let reward :=
    RewardCalculator.totalReward
      (RewardCalculator.calculateReward
         (MatchSubmit.matchDataOf payload (MatchValidator.riskScore (fst vr)))) in
  match fst (MatchSubmit.handler payload w) with
  | MatchSubmit.BadRequest _ | MatchSubmit.InternalError _ =>
      snd (MatchSubmit.handler payload w) = w
  | MatchSubmit.SecurityFailed e cs rs =>
      SecurityDb.passed (fst sc) = false /\
      snd (MatchSubmit.handler payload w) = snd sc /\
      fst (MatchSubmit.validatePayloadStructure payload w) = None /\
      e = SecurityDb.blockReason (fst sc) /\
      cs = SecurityDb.checks (fst sc) /\ rs = SecurityDb.riskScore (fst sc)
  | MatchSubmit.Ok d =>
      fst (MatchSubmit.validatePayloadStructure payload w) = None /\
      SecurityDb.passed (fst sc) = true /\
      MatchSubmit.allowed d = MatchValidator.allowed (fst vr) /\
      MatchSubmit.riskScore d = MatchValidator.riskScore (fst vr) /\
      MatchSubmit.r_matchId d = MatchSubmit.matchId payload /\
      MatchSubmit.calculatedReward d =
        (if MatchValidator.allowed (fst vr) then reward else 0) /\
      snd (MatchSubmit.handler payload w) =
        if MatchValidator.allowed (fst vr)
        then snd (SecurityDb.recordProcessedMatch (MatchSubmit.matchId payload)
                    (MatchSubmit.walletAddress payload) (MatchSubmit.placement payload)
                    reward None
                    (snd (SecurityDb.recordDailyUsage (MatchSubmit.walletAddress payload)
                            match_ 1 (MatchSubmit.matchId payload) (snd vr))))
        else snd vr
  end.
Proof.
  cbv zeta. unfold MatchSubmit.handler, bind, get, ret.
  pose proof (structure_world payload w) as Hw.
  destruct (MatchSubmit.validatePayloadStructure payload w) as [[e|] w0];
    cbn [fst snd] in *; subst w0; [reflexivity|].
  destruct (env_ok w); cbn [negb fst snd]; [|reflexivity].
  destruct (SecurityDb.performFullSecurityCheck _ _ w) as [sr w1]; cbn [fst snd].
  destruct (SecurityDb.passed sr) eqn:Ep; cbn [negb fst snd]; [|repeat split].
  destruct (MatchValidator.validateMatch _ w1) as [vr w2]; cbn [fst snd].
  destruct (MatchValidator.allowed vr) eqn:Ea; cbn [fst snd].
  - destruct (SecurityDb.recordDailyUsage _ _ _ _ w2) as [u w3]; cbn [fst snd].
    destruct (SecurityDb.recordProcessedMatch _ _ _ _ _ w3) as [u' w4]; cbn [fst snd].
    cbn [MatchSubmit.allowed MatchSubmit.riskScore MatchSubmit.r_matchId
         MatchSubmit.calculatedReward].
    repeat split; try reflexivity; try (symmetry; exact Ea).
  - cbn [MatchSubmit.allowed MatchSubmit.riskScore MatchSubmit.r_matchId
         MatchSubmit.calculatedReward].
    repeat split; try reflexivity; try (symmetry; exact Ea).
Qed.

(** The stages of a reward grant, by the kind of its answer. *)
Lemma grant_trace hmac js secret payload tx w :
  let sc := SecurityDb.performFullSecurityCheck (RewardGrant.securityParamsOf payload)
              SecurityDb.DEFAULT_SECURITY_CONFIG w in
  match fst (RewardGrant.handler hmac js secret payload tx w) with
  | RewardGrant.BadRequest _ | RewardGrant.ConfigurationError _
  | RewardGrant.InvalidSignature _ | RewardGrant.InternalError _ =>
      snd (RewardGrant.handler hmac js secret payload tx w) = w
  | RewardGrant.SecurityFailed e cs rs =>
      SecurityDb.passed (fst sc) = false /\
      snd (RewardGrant.handler hmac js secret payload tx w) = snd sc /\
      fst (RewardGrant.validatePayload payload w) = None /\
      e = Js.or_text (SecurityDb.blockReason (fst sc)) (Js.Lit "Security check failed") /\
      cs = SecurityDb.checks (fst sc) /\ rs = SecurityDb.riskScore (fst sc)
  | RewardGrant.ContractFailed _ _ =>
      SecurityDb.passed (fst sc) = true /\
      snd (RewardGrant.handler hmac js secret payload tx w) = snd sc
  | RewardGrant.Granted g =>
      fst (RewardGrant.validatePayload payload w) = None /\
      (exists s, secret = Some s /\
         SecurityDb.verifyHmacSignature hmac (js (RewardGrant.signedFieldsOf payload))
           (RewardGrant.serverSignature payload) s = true) /\
      SecurityDb.passed (fst sc) = true /\
      ContractService.success tx = true /\
      RewardGrant.r_matchId g = RewardGrant.matchId payload /\
      RewardGrant.r_rewardAmount g = RewardGrant.rewardAmount payload /\
      snd (RewardGrant.handler hmac js secret payload tx w) =
        snd (SecurityDb.recordProcessedMatch (RewardGrant.matchId payload)
               (RewardGrant.walletAddress payload) (RewardGrant.placement payload)
               (RewardGrant.rewardAmount payload) (ContractService.txHash tx)
               (snd (SecurityDb.recordDailyUsage (RewardGrant.walletAddress payload)
                       reward (RewardGrant.rewardAmount payload)
                       (RewardGrant.matchId payload) (snd sc))))
  end.
Proof.
  cbv zeta. unfold RewardGrant.handler, bind, get, ret.
  pose proof (grant_structure_world payload w) as Hw.
  destruct (RewardGrant.validatePayload payload w) as [[e|] w0];
    cbn [fst snd] in *; subst w0; [reflexivity|].
  destruct secret as [s|]; [|reflexivity].
  destruct (String.eqb s ""); [reflexivity|].
  destruct (SecurityDb.verifyHmacSignature _ _ _ _) eqn:Es; cbn [negb]; [|reflexivity].
  cbn [fst snd].
  destruct (env_ok w); cbn [negb fst snd]; [|reflexivity].
  destruct (SecurityDb.performFullSecurityCheck _ _ w) as [sr w1]; cbn [fst snd].
  destruct (SecurityDb.passed sr) eqn:Ep; cbn [negb fst snd]; [|repeat split].
  destruct (ContractService.success tx) eqn:Et; cbn [negb fst snd]; [|split; reflexivity].
  destruct (SecurityDb.recordDailyUsage _ _ _ _ w1) as [u w3]; cbn [fst snd].
  destruct (SecurityDb.recordProcessedMatch _ _ _ _ _ w3) as [u' w4]; cbn [fst snd].
  cbn [RewardGrant.r_matchId RewardGrant.r_rewardAmount].
  repeat split; try reflexivity. exists s. split; [reflexivity | exact Es].
Qed.

End PipelineFrame.

(** ** Verdicts of the validator *)

Module ValidatorBounds.
Import Store Query MatchValidator.
Local Open Scope string_scope.

Ltac split_ifs :=
  repeat match goal with
         | |- context [if ?c then _ else _] => destruct c
         end.

Lemma validateDuration_score input :
  (0 <= cr_riskScore (validateDuration input) <= 100)%Z /\
  (reject (validateDuration input) = true ->
   exists code, cr_reasonCode (validateDuration input) = Some code /\ code <> VALID).
Proof.
  unfold validateDuration.
  destruct (Js.lookup DURATION (playerCount input));
    [|cbn; split; [lia | intros _; eexists; split; [reflexivity | discriminate]]].
  split_ifs; cbn; (split; [lia|]); intro H; try discriminate H;
    eexists; (split; [reflexivity | discriminate]).
Qed.

Lemma validateInputVariance_score input :
  (0 <= cr_riskScore (validateInputVariance input))%Z /\
  (reject (validateInputVariance input) = true ->
   exists code, cr_reasonCode (validateInputVariance input) = Some code /\ code <> VALID).
Proof.
  unfold validateInputVariance.
  split_ifs; cbn; (split; [lia|]); intro H; try discriminate H;
    eexists; (split; [reflexivity | discriminate]).
Qed.

Lemma validateKillCount_score input :
  (0 <= cr_riskScore (validateKillCount input))%Z /\
  (reject (validateKillCount input) = true ->
   exists code, cr_reasonCode (validateKillCount input) = Some code /\ code <> VALID).
Proof.
  unfold validateKillCount.
  split_ifs; cbn; (split; [lia|]); intro H; try discriminate H;
    eexists; (split; [reflexivity | discriminate]).
Qed.

Lemma validateFrameData_score input :
  (0 <= cr_riskScore (validateFrameData input))%Z.
Proof.
  unfold validateFrameData.
  generalize (suspiciousFlags (antiCheat input)); intro l.
  split_ifs; cbn [cr_riskScore]; lia.
Qed.

Lemma analyzeWinPatterns_score input w :
  (0 <= cr_riskScore (fst (analyzeWinPatterns input w)))%Z /\
  (reject (fst (analyzeWinPatterns input w)) = true ->
   exists code, cr_reasonCode (fst (analyzeWinPatterns input w)) = Some code /\ code <> VALID).
Proof.
  unfold analyzeWinPatterns, bind, Date_now, ret.
  destruct (select_recent_matches _ _ _ _) as [[rows err] w1].
  destruct err; [cbn; split; [lia | discriminate]|].
  destruct rows; [|cbn; split; [lia | discriminate]].
  split_ifs; cbn; (split; [lia|]); intro H; try discriminate H;
    eexists; (split; [reflexivity | discriminate]).
Qed.

Lemma detectRapidMatches_score input w :
  (0 <= cr_riskScore (fst (detectRapidMatches input w)))%Z.
Proof.
  unfold detectRapidMatches, bind, Date_now, ret.
  destruct (select_recent_matches _ _ _ _) as [[rows err] w1].
  destruct err; [cbn; lia|]. destruct rows; [|cbn; lia].
  split_ifs; cbn; lia.
Qed.

(** The score of every result lies between 0 and 100. *)
Lemma validateMatch_score_range input w :
  (0 <= riskScore (fst (validateMatch input w)) <= 100)%Z.
Proof.
  pose proof (validateDuration_score input) as [Hd _].
  pose proof (validateInputVariance_score input) as [Hv _].
  pose proof (validateKillCount_score input) as [Hk _].
  pose proof (validateFrameData_score input) as Hf.
  pose proof (analyzeWinPatterns_score input w) as [Hw _].
  unfold validateMatch, bind, ret.
  destruct (reject (validateDuration input)); [cbn; lia|].
  destruct (reject (validateInputVariance input)); [cbn; lia|].
  destruct (reject (validateKillCount input)); [cbn; lia|].
  destruct (analyzeWinPatterns input w) as [wp w1]. cbn [fst] in Hw.
  destruct (reject wp); [cbn; lia|].
  pose proof (detectRapidMatches_score input w1) as Hr.
  destruct (detectRapidMatches input w1) as [rr w2]. cbn [fst] in Hr.
  cbv zeta. destruct (_ <=? _)%Z; cbn [fst riskScore]; lia.
Qed.

(** X1. The risk score of a validation result lies between 0 and 100; the
    match is allowed exactly when the score is below 100; an allowed match
    carries the reason code [VALID], a rejected one the score 100 and a
    reason code other than [VALID]. *)
Theorem validateMatch_verdict input w :
  let r := fst (validateMatch input w) in
  (0 <= riskScore r <= 100)%Z /\
  allowed r = (riskScore r <? 100)%Z /\
  (if allowed r then reasonCode r = Some VALID
   else exists code, reasonCode r = Some code /\ code <> VALID).
Proof.
  cbv zeta. split; [apply validateMatch_score_range|].
  pose proof (validateDuration_score input) as [Hd Hdr].
  pose proof (validateInputVariance_score input) as [Hv Hvr].
  pose proof (validateKillCount_score input) as [Hk Hkr].
  pose proof (validateFrameData_score input) as Hf.
  pose proof (analyzeWinPatterns_score input w) as [Hw Hwr].
  unfold validateMatch, bind, ret.
  destruct (reject (validateDuration input));
    [cbn; split; [reflexivity | apply Hdr; reflexivity]|].
  destruct (reject (validateInputVariance input));
    [cbn; split; [reflexivity | apply Hvr; reflexivity]|].
  destruct (reject (validateKillCount input));
    [cbn; split; [reflexivity | apply Hkr; reflexivity]|].
  destruct (analyzeWinPatterns input w) as [wp w1]. cbn [fst] in Hw, Hwr.
  destruct (reject wp); [cbn; split; [reflexivity | apply Hwr; reflexivity]|].
  pose proof (detectRapidMatches_score input w1) as Hr.
  destruct (detectRapidMatches input w1) as [rr w2]. cbn [fst] in Hr.
  cbv zeta. unfold REJECT.
  match goal with |- context [Z.min 100 ?x] => set (s := x) end.
  destruct (100 <=? Z.min 100 s)%Z eqn:E; cbn [fst riskScore allowed reasonCode].
  - apply Z.leb_le in E. split; [symmetry; apply Z.ltb_ge; lia|].
    eexists. split; [reflexivity | discriminate].
  - apply Z.leb_gt in E. split; [symmetry; apply Z.ltb_lt; lia | reflexivity].
Qed.

End ValidatorBounds.

(** ** Shape of a security result *)

Module SecurityBounds.
Import Store Query SecurityDb SecuritySpec SecurityView.
Local Open Scope string_scope.

Lemma weight_of_fixedOrder params c :
  In (name c) (fixedOrder params) -> (30 <= weight c <= 100)%Z.
Proof.
  unfold fixedOrder, weight.
  destruct (rewardAmount params), (botConfidence params); cbn [app In];
    intro H; repeat (destruct H as [<- | H]; [cbn; lia|]); destruct H.
Qed.

Lemma weights_of_checks params cs :
  map name cs = fixedOrder params -> Forall (fun c => (30 <= weight c <= 100)%Z) cs.
Proof.
  intro H. apply Forall_forall. intros c Hc.
  apply (weight_of_fixedOrder params). rewrite <- H. apply in_map, Hc.
Qed.

Lemma failedWeights_cons c cs :
  failedWeights (c :: cs) =
  if check_passed c then failedWeights cs else (weight c + failedWeights cs)%Z.
Proof. reflexivity. Qed.

Lemma failedWeights_nonneg cs :
  Forall (fun c => (30 <= weight c <= 100)%Z) cs -> (0 <= failedWeights cs)%Z.
Proof.
  induction 1 as [|c cs Hc _ IH]; [cbn; lia|].
  rewrite failedWeights_cons. destruct (check_passed c); lia.
Qed.

Lemma failedWeights_failed cs :
  Forall (fun c => (30 <= weight c <= 100)%Z) cs ->
  forallb check_passed cs = false -> (30 <= failedWeights cs)%Z.
Proof.
  induction 1 as [|c cs Hc Hcs IH]; [discriminate|].
  pose proof (failedWeights_nonneg cs Hcs).
  rewrite failedWeights_cons. cbn [forallb].
  destruct (check_passed c); cbn [andb]; [exact IH | lia].
Qed.

Lemma failedWeights_passed cs :
  forallb check_passed cs = true -> failedWeights cs = 0%Z.
Proof.
  induction cs as [|c cs IH]; [reflexivity|].
  rewrite failedWeights_cons. cbn [forallb].
  destruct (check_passed c); cbn [andb]; [exact IH | discriminate].
Qed.

Lemma firstFailure_some outs :
  Forall outcome_ok outs -> forallb check_passed (map entry outs) = false ->
  exists t, option_map blockMessage (firstFailure (map entry outs)) = Some t /\
            Js.truthy t = true.
Proof.
  unfold firstFailure.
  induction 1 as [|o outs Ho _ IH]; cbn; [discriminate|].
  destruct (check_passed (entry o)); cbn; [exact IH|].
  intros _. destruct Ho as (_ & Hm & Ht). exists (blockMessage (entry o)).
  split; [reflexivity|]. rewrite Hm. exact Ht.
Qed.

Lemma suspiciousWeight_cases params cfg :
  suspiciousWeight params cfg = 0%Z \/ suspiciousWeight params cfg = 20%Z.
Proof.
  unfold suspiciousWeight. destruct (botConfidence params); [|auto].
  destruct (Js.geb _ _); [auto|]. destruct (Js.geb _ _); auto.
Qed.

(** A failed check scores at least 30 and carries a block reason. *)
Lemma failed_result params cfg w :
  passed (fst (performFullSecurityCheck params cfg w)) = false ->
  (30 <= riskScore (fst (performFullSecurityCheck params cfg w)) <= 100)%Z /\
  exists t, blockReason (fst (performFullSecurityCheck params cfg w)) = Some t /\
            Js.truthy t = true.
Proof.
  pose proof (SecurityResults.checks_names params cfg w) as Hn.
  apply weights_of_checks in Hn.
  rewrite SecurityResults.riskScore_spec, SecurityResults.blockReason_spec,
          SecurityResults.passed_forallb.
  pose proof (suspiciousWeight_cases params cfg) as Hs.
  intro E. pose proof (failedWeights_failed _ Hn E) as H30. split; [lia|].
  revert E. rewrite SecurityResults.result_eq. unfold assemble; cbn [checks].
  apply firstFailure_some, SecurityResults.allOutcomes_ok.
Qed.

(** X2. The risk score of a security result lies between 0 and 100.  A
    result that passed has no block reason and scores 0, or 20 for a
    suspicious bot confidence; a result that failed scores at least 30 and
    has a block reason, which is not the empty string. *)
Theorem security_result_shape params cfg w :
  let r := fst (performFullSecurityCheck params cfg w) in
  (0 <= riskScore r <= 100)%Z /\
  if passed r
  then blockReason r = None /\ riskScore r = suspiciousWeight params cfg
  else (30 <= riskScore r)%Z /\
       exists t, blockReason r = Some t /\ Js.truthy t = true.
Proof.
  cbv zeta. pose proof (failed_result params cfg w) as Hfail.
  destruct (passed (fst (performFullSecurityCheck params cfg w))) eqn:E.
  - clear Hfail. revert E.
    rewrite SecurityResults.riskScore_spec, SecurityResults.blockReason_spec,
            SecurityResults.passed_forallb.
    intro E. rewrite (SecurityFacts.firstFailure_none _ E).
    rewrite (failedWeights_passed _ E).
    pose proof (suspiciousWeight_cases params cfg) as Hs.
    split; [lia|]. split; [reflexivity | lia].
  - destruct (Hfail eq_refl) as [Hr Ht]. split; [lia|]. split; [lia | exact Ht].
Qed.

End SecurityBounds.

(** ** Decisions of the sub-checks *)

Module CapFacts.
Import Store Query SecurityDb Ledger Footprint Frame.
Local Open Scope string_scope.

Lemma or_num_amount v : Js.or_num (Some v) 0 == v.
Proof.
  unfold Js.or_num. destruct (Qeq_bool v 0) eqn:E; [|reflexivity].
  apply Qeq_bool_iff in E. symmetry. exact E.
Qed.

(** The loop of [checkDailyCap] adds up the amounts of the rows. *)
Lemma usage_sum rows : forall acc,
  fold_left (fun sum row => sum + Js.or_num (Some (amount row)) 0) rows acc
  == acc + fold_right (fun r acc => amount r + acc) 0 rows.
Proof.
  induction rows as [|r rows IH]; intro acc; cbn [fold_left fold_right].
  - ring.
  - rewrite IH, or_num_amount. ring.
Qed.

Lemma select_daily_usage_reached wa t s e w :
  hd None (faults w) = None ->
  fst (select_daily_usage wa t s e w) =
  (Some (filter (fun r =>
           String.eqb (du_wallet r) wa && UsageType_eqb (usage_type r) t
           && (s <=? du_created_at r)%Z && (du_created_at r <? e)%Z) (daily_usage w)),
   None).
Proof.
  intro H. unfold select_daily_usage, bind, get, ret.
  pose proof (round_trip_fst w) as Hf. rewrite H in Hf.
  pose proof (static_round_trip w) as (_ & _ & Hu & _).
  destruct (round_trip w) as [e0 w1]. cbn [fst snd] in *. subst e0. cbn.
  rewrite Hu. reflexivity.
Qed.

Lemma select_daily_usage_failed wa t s e w code :
  hd None (faults w) = Some code ->
  fst (select_daily_usage wa t s e w) = (None, Some code).
Proof.
  intro H. unfold select_daily_usage, bind, get, ret.
  pose proof (round_trip_fst w) as Hf. rewrite H in Hf.
  destruct (round_trip w) as [e0 w1]. cbn [fst snd] in *. subst e0. reflexivity.
Qed.

(** An allowed amount fits under the cap together with what the table
    holds for the day. *)
Lemma checkDailyCap_allowed wa t a cfg w :
  allowed (fst (checkDailyCap wa t a cfg w)) = true ->
  usedOn wa t (clock w) w + a <= capOf t cfg.
Proof.
  unfold checkDailyCap, bind, Date_now.
  destruct (hd None (faults w)) as [code|] eqn:Hf.
  - pose proof (select_daily_usage_failed wa t (dayStartOf (clock w))
                  (dayEndOf (clock w)) w code Hf) as Hs.
    destruct (select_daily_usage _ _ _ _ _) as [[data err] w1].
    cbn [fst] in Hs. injection Hs as -> ->. cbn. discriminate.
  - pose proof (select_daily_usage_reached wa t (dayStartOf (clock w))
                  (dayEndOf (clock w)) w Hf) as Hs.
    destruct (select_daily_usage _ _ _ _ _) as [[data err] w1].
    cbn [fst] in Hs. injection Hs as -> ->.
    fold (capOf t cfg).
    match goal with |- context [fold_left ?f ?l 0] => set (used := fold_left f l 0) end.
    assert (Hu : used == usedOn wa t (clock w) w).
    { unfold used, usedOn. rewrite usage_sum. ring. }
    unfold Js.gtb.
    destruct (Qle_bool (used + a) (capOf t cfg)) eqn:E; cbn; [|discriminate].
    intros _. apply Qle_bool_iff in E. rewrite <- Hu. exact E.
Qed.

End CapFacts.

Module NonceDecision.
Import Store Query SecurityDb SecuritySpec Ledger.
Local Open Scope string_scope.

Lemma existsb_filter {A : Type} (p : A -> bool) l :
  existsb p l = match filter p l with [] => false | _ :: _ => true end.
Proof.
  induction l as [|a l IH]; [reflexivity|]. cbn.
  destruct (p a); cbn; [reflexivity | exact IH].
Qed.

(** X4. [checkAndConsumeNonce] fails closed: a nonce is accepted exactly
    when the lookup reached the store (or was answered with the no-row
    code [PGRST116]), the insert reached the store, and no record for the
    value was in the table, whatever wallet had used it. *)
Theorem nonce_accepted_iff n wa cfg w :
  valid (fst (checkAndConsumeNonce n wa cfg w)) =
  negb (is_real_error (hd None (faults w)))
  && match hd None (tl (faults w)) with None => true | Some _ => false end
  && negb (nonceUsed n w).
Proof.
  destruct w as [ns rl du pm ck ev fs].
  unfold nonceUsed; cbn [nonces faults]. rewrite existsb_filter.
  unfold checkAndConsumeNonce, select_nonce, insert_nonce, delete_nonces_lt,
    bind, Date_now, get, ret, round_trip, set_nonces, with_faults, single.
  remember (filter (fun r => nonce r =? n) ns) as fl eqn:Hfl.
  destruct fl as [|r [|r' rs]];
  (destruct fs as [|[c1|] [|[c2|] fs]];
    repeat (cbn -[String.eqb filter existsb];
            rewrite ?existsb_filter; cbn [nonce]; rewrite <- ?Hfl, ?String.eqb_refl;
            try match goal with
            | |- context [?c =? ?s] => is_var c; destruct (c =? s)
            | |- context [match ?l with [] => _ | _ => _ end] =>
                destruct l as [|[?|] ?]
            end);
    cbn; reflexivity).
Qed.

End NonceDecision.

Module RateFacts.
Import Store Query SecurityDb SecuritySpec Ledger Footprint Frame LedgerFrame.
Local Open Scope string_scope.

Lemma filter_length_le {A : Type} (p q : A -> bool) l :
  (forall x, p x = true -> q x = true) ->
  (List.length (filter p l) <= List.length (filter q l))%nat.
Proof.
  intro H. induction l as [|a l IH]; [apply le_n|]. cbn [filter].
  destruct (p a) eqn:E.
  - rewrite (H a E). cbn [List.length]. lia.
  - destruct (q a); cbn [List.length]; lia.
Qed.

(** What a rate-limit check leaves in the table: nothing new, or one row
    for a request that found fewer than the maximum in its window. *)
Lemma checkRateLimit_rows wa e cfg w :
  let w' := snd (checkRateLimit wa e cfg w) in
  rate_limits w' = rate_limits w \/
  ((requestsSince wa e (clock w - rateLimitWindowMs cfg) w < rateLimitMaxRequests cfg)%Z /\
   rate_limits w' =
     (rate_limits w ++ [{| rl_wallet := wa; rl_endpoint := e;
                           rl_created_at := clock w |}])%list).
Proof.
  destruct w as [ns rl du pm ck ev fs].
  cbv zeta. unfold requestsSince. cbn [clock faults rate_limits].
  unfold checkRateLimit, count_rate_limits, insert_rate_limit,
    bind, Date_now, get, ret, round_trip, set_rate_limits, with_faults.
  cbn [clock faults rate_limits fst snd hd tl].
  destruct fs as [|[c1|] fs]; cbn [clock faults rate_limits fst snd hd tl].
  - destruct (_ <=? _)%Z eqn:E; cbn -[Z.sub]; [left; reflexivity|].
    right. apply Z.leb_gt in E. split; [exact E | reflexivity].
  - left; reflexivity.
  - destruct (_ <=? _)%Z eqn:E; cbn [negb clock faults rate_limits fst snd hd tl];
      [left; reflexivity|].
    apply Z.leb_gt in E.
    destruct fs as [|[c2|] fs]; cbn -[Z.sub];
      [right; split; [exact E | reflexivity] | left; reflexivity
      | right; split; [exact E | reflexivity]].
Qed.

(** X5. [checkRateLimit] fails open and records nothing when its lookup
    meets a store error.  When the lookup goes through, the request is
    allowed exactly when fewer than the maximum of requests of that wallet
    on that endpoint are recorded since the start of the window (the
    window start included); one row is recorded for an allowed request
    unless the insert meets a store error, and none for a refused one. *)
Theorem checkRateLimit_decision wa e cfg w :
  let r := checkRateLimit wa e cfg w in
  let n := requestsSince wa e (clock w - rateLimitWindowMs cfg) w in
  rl_resetAt (fst r) = (clock w + rateLimitWindowMs cfg)%Z /\
  match hd None (faults w) with
  | Some _ => rl_allowed (fst r) = true /\ rate_limits (snd r) = rate_limits w
  | None =>
      rl_allowed (fst r) = (n <? rateLimitMaxRequests cfg)%Z /\
      rate_limits (snd r) =
        if (n <? rateLimitMaxRequests cfg)%Z
        then match hd None (tl (faults w)) with
             | None =>
                 (rate_limits w ++ [{| rl_wallet := wa; rl_endpoint := e;
                                       rl_created_at := clock w |}])%list
             | Some _ => rate_limits w
             end
        else rate_limits w
  end.
Proof.
  destruct w as [ns rl du pm ck ev fs].
  cbv zeta. unfold requestsSince. cbn [clock faults rate_limits].
  rewrite (Z.ltb_antisym (rateLimitMaxRequests cfg)).
  unfold checkRateLimit, count_rate_limits, insert_rate_limit,
    bind, Date_now, get, ret, round_trip, set_rate_limits, with_faults.
  cbn [clock faults rate_limits fst snd hd tl].
  destruct fs as [|[c1|] fs]; cbn [clock faults rate_limits fst snd hd tl].
  - destruct (_ <=? _)%Z; cbn -[Z.sub Z.add]; repeat split; reflexivity.
  - repeat split; reflexivity.
  - destruct (_ <=? _)%Z; cbn [negb clock faults rate_limits fst snd hd tl];
      [repeat split; reflexivity|].
    destruct fs as [|[c2|] fs]; cbn -[Z.sub Z.add]; repeat split; reflexivity.
Qed.

Lemma windowed_checkRateLimit wa e cfg :
  keeps (preserves (windowed cfg)) (checkRateLimit wa e cfg).
Proof.
  intros w Hw.
  destruct (checkRateLimit_rows wa e cfg w) as [H | [Hn H]].
  - intros wallet endpoint s. unfold requestsBetween. rewrite H. apply Hw.
  - intros wallet endpoint s. unfold requestsBetween. rewrite H.
    rewrite filter_app, length_app. cbn [filter rl_wallet rl_endpoint rl_created_at].
    specialize (Hw wallet endpoint s). unfold requestsBetween in Hw.
    destruct ((wa =? wallet) && (e =? endpoint) && (s <=? clock w)%Z
              && (clock w <=? s + rateLimitWindowMs cfg)%Z) eqn:E;
      cbn [List.length]; [|lia].
    apply andb_prop in E as [E E4]. apply andb_prop in E as [E E3].
    apply andb_prop in E as [E1 E2].
    apply String.eqb_eq in E1, E2. subst wallet endpoint.
    apply Z.leb_le in E3, E4.
    unfold requestsSince in Hn.
    match goal with
    | |- context [List.length (filter ?p _)] =>
        match type of Hn with
        | context [List.length (filter ?q _)] =>
            pose proof (filter_length_le p q (rate_limits w)) as Hle
        end
    end.
    assert (Hle' : forall x : RateLimitEntry,
       (rl_wallet x =? wa) && (rl_endpoint x =? e) && (s <=? rl_created_at x)%Z
       && (rl_created_at x <=? s + rateLimitWindowMs cfg)%Z = true ->
       (rl_wallet x =? wa) && (rl_endpoint x =? e)
       && (clock w - rateLimitWindowMs cfg <=? rl_created_at x)%Z = true).
    { intros x Hx. apply andb_prop in Hx as [Hx _]. apply andb_prop in Hx as [Hx H3].
      rewrite Hx. cbn [andb]. apply Z.leb_le in H3. apply Z.leb_le. lia. }
    specialize (Hle Hle'). lia.
Qed.

Lemma limits_windowed cfg w w' :
  unchanged rate_limits w w' -> preserves (windowed cfg) w w'.
Proof.
  intros H Hw wallet endpoint s. unfold requestsBetween. rewrite H. apply Hw.
Qed.

Lemma windowed_performFullSecurityCheck params cfg :
  keeps (preserves (windowed cfg)) (performFullSecurityCheck params cfg).
Proof.
  intro w. rewrite SecurityFacts.performFullSecurityCheck_run. cbn [snd].
  etransitivity; [apply limits_windowed, limits_checkAndConsumeNonce |].
  etransitivity; [apply windowed_checkRateLimit |].
  etransitivity; [apply limits_windowed, limits_checkMatchUniqueness |].
  etransitivity; [apply limits_windowed, limits_checkDailyCap |].
  apply limits_windowed, limits_rewardCapRun.
Qed.

(** X6. The sliding window of the rate limiter: in every store reached by
    a security check, or by any run of requests to the two endpoints, no
    window of the configured length holds more recorded requests of one
    wallet on one endpoint than the configured maximum, if that was so
    before; store errors do not break it. *)
Theorem rate_limit_window_invariant :
  (forall params cfg w,
     windowed cfg w -> windowed cfg (snd (performFullSecurityCheck params cfg w))) /\
  (forall hmac js secret reqs w,
     windowed DEFAULT_SECURITY_CONFIG w ->
     windowed DEFAULT_SECURITY_CONFIG (snd (Pipeline.serve hmac js secret reqs w))).
Proof.
  split.
  - intros params cfg w. apply windowed_performFullSecurityCheck.
  - intros hmac js secret reqs w.
    apply (PipelineFrame.serve_keeps (preserves (windowed DEFAULT_SECURITY_CONFIG))).
    + intros. apply windowed_performFullSecurityCheck.
    + intros input w0. apply limits_windowed, tables_limits,
        ValidatorFacts.tables_validateMatch.
    + intros wa t a m w0. apply limits_windowed, limits_recordDailyUsage.
    + intros m wa p r tx w0. apply limits_windowed, limits_recordProcessedMatch.
    + intros t fs w0. apply limits_windowed. reflexivity.
Qed.

Lemma rate_limit_window_invariant_witness :
  windowed DEFAULT_SECURITY_CONFIG (Store.empty 0) /\
  windowed DEFAULT_SECURITY_CONFIG
    (snd (performFullSecurityCheck (Scenarios.paramsFor Scenarios.nonceA Scenarios.matchA)
            DEFAULT_SECURITY_CONFIG (Store.empty 0))) /\
  windowed DEFAULT_SECURITY_CONFIG Examples.afterRun.
Proof.
  assert (H : windowed DEFAULT_SECURITY_CONFIG (Store.empty 0)).
  { intros wallet endpoint s. unfold requestsBetween. cbn. discriminate. }
  split; [exact H|]. split.
  - exact (proj1 rate_limit_window_invariant _ _ _ H).
  - exact (proj2 rate_limit_window_invariant Examples.toyHmac Examples.toyStringify
             Examples.toySecret Examples.mixedRun (Store.empty 0) H).
Defined.

End RateFacts.

(** ** The table of processed matches *)

Module MatchLedger.
Import Store Query SecurityDb SecuritySpec SecurityView Ledger Footprint Frame LedgerFrame.
Local Open Scope string_scope.

Lemma processed_In m w :
  processed m w = true <-> In m (map match_id (processed_matches w)).
Proof.
  unfold processed. rewrite existsb_exists, in_map_iff. split.
  - intros (r & Hin & He). exists r. split; [now apply String.eqb_eq | exact Hin].
  - intros (r & He & Hin). exists r. split; [exact Hin | now apply String.eqb_eq].
Qed.

(** With distinct match ids the rows selected for an id that has a row
    are exactly one. *)
Lemma filter_unique m rows :
  NoDup (map match_id rows) -> In m (map match_id rows) ->
  exists r, filter (fun r => String.eqb (match_id r) m) rows = [r].
Proof.
  induction rows as [|a rows IH]; cbn [map filter In]; [intros _ []|].
  intros Hnd Hin. inversion Hnd as [|? ? Hna Hnd']; subst.
  destruct (String.eqb (match_id a) m) eqn:E.
  - exists a. f_equal. apply String.eqb_eq in E. subst m.
    clear -Hna. induction rows as [|b rows IH]; [reflexivity|].
    cbn [filter]. destruct (String.eqb (match_id b) (match_id a)) eqn:Eb.
    + exfalso. apply Hna. left. now apply String.eqb_eq.
    + apply IH. intro H. apply Hna. right. exact H.
  - destruct Hin as [Hin|Hin]; [apply String.eqb_neq in E; congruence|].
    apply IH; assumption.
Qed.

Lemma checkMatchUniqueness_processed m w :
  uniqueMatches w -> processed m w = true ->
  hd None (faults w) <> Some "PGRST116" ->
  fst (fst (checkMatchUniqueness m w)) = false.
Proof.
  intros Hu Hp Hh. apply processed_In in Hp.
  destruct (filter_unique m _ Hu Hp) as [r Hr].
  unfold checkMatchUniqueness, select_processed_match, bind, get, ret.
  pose proof (round_trip_fst w) as Hf.
  pose proof (static_round_trip w) as (_ & _ & _ & Hpm).
  destruct (round_trip w) as [[code|] w1]; cbn [fst snd] in *.
  - unfold is_real_error.
    destruct (String.eqb code "PGRST116") eqn:E; [|reflexivity].
    apply String.eqb_eq in E. subst code. congruence.
  - rewrite Hpm, Hr. reflexivity.
Qed.

Lemma refused_of_match_check params cfg w :
  fst (matchResult params cfg w) = false ->
  passed (fst (performFullSecurityCheck params cfg w)) = false.
Proof.
  intro H. rewrite SecurityResults.passed_forallb.
  destruct (forallb _ _) eqn:E; [|reflexivity].
  rewrite forallb_forall in E.
  specialize (E _ (FailureFacts.match_entry_in_checks params cfg w)).
  cbn [check_passed] in E. congruence.
Qed.

Lemma processed_blocks params cfg w :
  uniqueMatches w -> honest w -> processed (matchId params) w = true ->
  fst (matchResult params cfg w) = false.
Proof.
  intros Hu Hh Hp. unfold matchResult, atMatchUniquenessCheck, atRateLimitCheck.
  set (w1 := snd (checkAndConsumeNonce _ _ _ w)).
  set (w2 := snd (checkRateLimit _ _ _ w1)).
  assert (Hs : same_static w w2).
  { transitivity w1; [apply SecurityFrame.static_checkAndConsumeNonce
                     | apply SecurityFrame.static_checkRateLimit]. }
  assert (Hf : fewer_faults w w2).
  { transitivity w1; [apply faults_checkAndConsumeNonce | apply faults_checkRateLimit]. }
  destruct Hs as (_ & _ & _ & Hpm).
  apply checkMatchUniqueness_processed.
  - unfold uniqueMatches. rewrite Hpm. exact Hu.
  - unfold processed. rewrite Hpm. exact Hp.
  - apply honest_hd, (fewer_faults_honest w); assumption.
Qed.


(** X7. A match that has a row in the table of processed matches does not
    pass the security check again, whatever the other sub-checks find and
    whatever store errors occur (the store not answering [PGRST116] of its
    own): the MATCH_UNIQUENESS entry fails, and the table stays as it
    is. *)
Theorem processed_match_refused params cfg w :
  uniqueMatches w -> honest w -> processed (matchId params) w = true ->
  let r := fst (performFullSecurityCheck params cfg w) in
  passed r = false /\
  In {| name := "MATCH_UNIQUENESS"; check_passed := false;
        details := snd (matchResult params cfg w) |} (checks r) /\
  processed_matches (snd (performFullSecurityCheck params cfg w)) = processed_matches w.
Proof.
  intros Hu Hh Hp. cbv zeta.
  pose proof (processed_blocks params cfg w Hu Hh Hp) as Hm.
  split; [apply refused_of_match_check, Hm|]. split.
  - pose proof (FailureFacts.match_entry_in_checks params cfg w) as H.
    rewrite Hm in H. exact H.
  - apply SecurityFrame.static_performFullSecurityCheck.
Qed.

Lemma processed_match_refused_witness :
  uniqueMatches Examples.afterRun /\ honest Examples.afterRun /\
  processed Scenarios.matchB Examples.afterRun = true /\
  passed (fst (performFullSecurityCheck
                 (Scenarios.paramsFor Scenarios.nonceB Scenarios.matchB)
                 DEFAULT_SECURITY_CONFIG Examples.afterRun)) = false.
Proof.
  assert (H1 : uniqueMatches Examples.afterRun).
  { unfold uniqueMatches.
    assert (E : map match_id (processed_matches Examples.afterRun)
                = [Scenarios.matchA; Scenarios.matchB]) by (vm_compute; reflexivity).
    rewrite E. constructor; [|constructor; [intros []|constructor]].
    intros [H|[]]. discriminate H. }
  assert (H2 : honest Examples.afterRun).
  { unfold honest.
    assert (E : faults Examples.afterRun = []) by (vm_compute; reflexivity).
    rewrite E. intros []. }
  assert (H3 : processed Scenarios.matchB Examples.afterRun = true)
    by (vm_compute; reflexivity).
  split; [exact H1|]. split; [exact H2|]. split; [exact H3|].
  exact (proj1 (processed_match_refused
                  (Scenarios.paramsFor Scenarios.nonceB Scenarios.matchB)
                  DEFAULT_SECURITY_CONFIG Examples.afterRun H1 H2 H3)).
Defined.

End MatchLedger.

(** ** One acceptance per match *)

Module OnceFacts.
Import Store Query SecurityDb SecuritySpec SecurityView Ledger Footprint Frame LedgerFrame
  MatchLedger PipelineFrame.
Local Open Scope string_scope.







Section Served.
Variable hmac : list Byte.byte -> list Byte.byte -> list Byte.byte.
Variable js : RewardGrant.SignedFields -> string.
Variable secret : option string.




End Served.



End OnceFacts.

(** ** The daily caps over runs of requests *)

Module CapInvariant.
Import Store Query SecurityDb SecuritySpec SecurityView Ledger Footprint Frame LedgerFrame
  PipelineFrame.
Local Open Scope string_scope.

Lemma dayStartOf_same t now :
  (dayStartOf t <= now)%Z -> (now < dayEndOf t)%Z -> dayStartOf now = dayStartOf t.
Proof.
  unfold dayEndOf, dayStartOf, msPerDay. intros H1 H2.
  f_equal. symmetry.
  apply (Z.div_unique_pos now 86400000 (t / 86400000) (now - t / 86400000 * 86400000)); lia.
Qed.

Lemma UsageType_eqb_eq a b : UsageType_eqb a b = true -> a = b.
Proof. destruct a, b; cbn; congruence. Qed.

(** The usage of a wallet on a day after a record attempt: as before, or
    more by the recorded amount when the row is of that wallet, type and
    day. *)
Lemma usedOn_recordDailyUsage wallet type t wa type' a m w :
  let w' := snd (recordDailyUsage wa type' a m w) in
  usedOn wallet type t w' == usedOn wallet type t w \/
  (wallet = wa /\ type = type' /\ dayStartOf (clock w) = dayStartOf t /\
   usedOn wallet type t w' == usedOn wallet type t w + a).
Proof.
  cbv zeta. unfold usedOn.
  unfold recordDailyUsage, insert_daily_usage, bind, get, ret, Date_now, set_daily_usage.
  pose proof (tables_round_trip w) as (_ & _ & Hd & _).
  destruct (round_trip w) as [[code |] w1]; cbn [snd fst daily_usage] in *;
    rewrite Hd; [left; reflexivity|].
  rewrite filter_app. cbn [filter du_wallet usage_type du_created_at].
  destruct ((wa =? wallet) && UsageType_eqb type' type && (dayStartOf t <=? clock w)%Z
            && (clock w <? dayEndOf t)%Z) eqn:E.
  - right. apply andb_prop in E as [E E4]. apply andb_prop in E as [E E3].
    apply andb_prop in E as [E1 E2]. apply String.eqb_eq in E1.
    apply UsageType_eqb_eq in E2.
    apply Z.leb_le in E3. apply Z.ltb_lt in E4.
    split; [symmetry; exact E1|]. split; [symmetry; exact E2|].
    split; [apply dayStartOf_same; assumption|].
    rewrite fold_right_app. cbn [fold_right amount].
    match goal with |- context [fold_right _ _ ?l] => generalize l end.
    intro l. induction l as [|r l IH]; cbn [fold_right]; [ring|].
    rewrite IH. ring.
  - left. rewrite app_nil_r. reflexivity.
Qed.

Lemma usedOn_same_day wallet type t t' w :
  dayStartOf t' = dayStartOf t ->
  usedOn wallet type t' w = usedOn wallet type t w.
Proof. intro H. unfold usedOn, dayEndOf. rewrite H. reflexivity. Qed.

Lemma usedOn_of_usage wallet type t w w' :
  daily_usage w' = daily_usage w -> usedOn wallet type t w' = usedOn wallet type t w.
Proof. intro H. unfold usedOn. rewrite H. reflexivity. Qed.

(** A check that passes has found room for one more match under the daily
    match cap. *)
Lemma passed_match_fits params cfg w :
  passed (fst (performFullSecurityCheck params cfg w)) = true ->
  usedOn (walletAddress params) match_ (clock w) w + 1 <= dailyMatchCap cfg.
Proof.
  rewrite SecurityFacts.performFullSecurityCheck_run. cbv zeta. cbn [fst].
  set (nc := checkAndConsumeNonce _ _ _ w).
  set (rc := checkRateLimit _ _ _ (snd nc)).
  set (mc := checkMatchUniqueness _ (snd rc)).
  assert (Hs : same_static w (snd mc)).
  { subst mc rc nc.
    etransitivity; [apply SecurityFrame.static_checkAndConsumeNonce |].
    etransitivity; [apply SecurityFrame.static_checkRateLimit |].
    apply SecurityFrame.static_checkMatchUniqueness. }
  destruct Hs as (Hc & _ & Hd & _).
  unfold assemble, outcomes. cbn [passed].
  rewrite !map_app, !forallb_app. cbn [map forallb entry check_passed].
  intro H. apply andb_prop in H as [H _].
  do 4 (apply andb_prop in H as [_ H]). apply andb_prop in H as [H _].
  pose proof (CapFacts.checkDailyCap_allowed (walletAddress params) match_ 1 cfg
                (snd mc) H) as Hal.
  cbn [capOf] in Hal. rewrite Hc in Hal.
  rewrite (usedOn_of_usage _ _ _ _ _ Hd) in Hal. exact Hal.
Qed.

(** A check that passes with a reward amount has found room for it under
    the daily reward cap. *)
Lemma passed_reward_fits params cfg w a :
  rewardAmount params = Some a ->
  passed (fst (performFullSecurityCheck params cfg w)) = true ->
  usedOn (walletAddress params) reward (clock w) w + a <= dailyRewardCap cfg.
Proof.
  intros Ha.
  rewrite SecurityFacts.performFullSecurityCheck_run. cbv zeta. cbn [fst].
  set (nc := checkAndConsumeNonce _ _ _ w).
  set (rc := checkRateLimit _ _ _ (snd nc)).
  set (mc := checkMatchUniqueness _ (snd rc)).
  set (dc := checkDailyCap _ match_ 1 cfg (snd mc)).
  assert (Hs : same_static w (snd dc)).
  { subst dc mc rc nc.
    etransitivity; [apply SecurityFrame.static_checkAndConsumeNonce |].
    etransitivity; [apply SecurityFrame.static_checkRateLimit |].
    etransitivity; [apply SecurityFrame.static_checkMatchUniqueness |].
    apply SecurityFrame.static_checkDailyCap. }
  destruct Hs as (Hc & _ & Hd & _).
  unfold rewardCapRun. rewrite Ha. cbn [fst].
  unfold assemble, outcomes. rewrite Ha. cbn [passed].
  rewrite !map_app, !forallb_app. cbn [map forallb entry check_passed].
  intro H. apply andb_prop in H as [_ H]. apply andb_prop in H as [H _].
  apply andb_prop in H as [H _].
  pose proof (CapFacts.checkDailyCap_allowed (walletAddress params) reward a cfg
                (snd dc)) as Hal.
  cbn [capOf] in Hal. rewrite Hc in Hal.
  rewrite (usedOn_of_usage _ _ _ _ _ Hd) in Hal.
  apply Hal. exact H.
Qed.

Section Served.
Variable hmac : list Byte.byte -> list Byte.byte -> list Byte.byte.
Variable js : RewardGrant.SignedFields -> string.
Variable secret : option string.
Variable wallet : string.
Variable type : UsageType.
Variable t : Z.

Lemma cap_grant payload tx :
  keeps (preserves (withinCap DEFAULT_SECURITY_CONFIG wallet type t))
        (RewardGrant.handler hmac js secret payload tx).
Proof.
  intros w Hw. unfold withinCap in *.
  pose proof (grant_trace hmac js secret payload tx w) as Ht. cbv zeta in Ht.
  pose proof (SecurityFrame.static_performFullSecurityCheck
                (RewardGrant.securityParamsOf payload) DEFAULT_SECURITY_CONFIG w)
    as (Hc & _ & Hd & _).
  destruct (RewardGrant.handler hmac js secret payload tx w) as [res w'];
    cbn [fst snd] in *.
  destruct res as [e | e | e | e | e cs rs | e c | g].
  1-4: subst w'; exact Hw.
  1-2: destruct Ht as (_ & -> & _) || destruct Ht as (_ & ->);
       rewrite (usedOn_of_usage _ _ _ _ _ Hd); exact Hw.
  destruct Ht as (_ & _ & Hp & _ & _ & _ & ->).
  rewrite (usedOn_of_usage _ _ _ _ _ (daily_recordProcessedMatch _ _ _ _ _ _)).
  set (ws := snd (performFullSecurityCheck _ _ w)) in *.
  destruct (usedOn_recordDailyUsage wallet type t (RewardGrant.walletAddress payload)
              reward (RewardGrant.rewardAmount payload) (RewardGrant.matchId payload) ws)
    as [H | (Hwa & Hty & Hday & H)].
  - rewrite H, (usedOn_of_usage _ _ _ _ _ Hd). exact Hw.
  - rewrite H, (usedOn_of_usage _ _ _ _ _ Hd).
    pose proof (passed_reward_fits (RewardGrant.securityParamsOf payload)
                  DEFAULT_SECURITY_CONFIG w (RewardGrant.rewardAmount payload)
                  eq_refl Hp) as Hfit.
    cbn [RewardGrant.securityParamsOf walletAddress] in Hfit.
    rewrite Hc in Hday.
    rewrite <- (usedOn_same_day wallet type t (clock w) w Hday).
    subst wallet type. exact Hfit.
Qed.

Lemma cap_submit payload :
  keeps (preserves (withinCap DEFAULT_SECURITY_CONFIG wallet type t))
        (MatchSubmit.handler payload).
Proof.
  intros w Hw. unfold withinCap in *.
  pose proof (submit_trace payload w) as Ht. cbv zeta in Ht.
  pose proof (SecurityFrame.static_performFullSecurityCheck
                (MatchSubmit.securityParamsOf payload) DEFAULT_SECURITY_CONFIG w)
    as (Hc & _ & Hd & _).
  set (sc := performFullSecurityCheck _ _ w) in *.
  pose proof (ValidatorFacts.tables_validateMatch (MatchSubmit.matchInputOf payload)
                (snd sc)) as (_ & _ & Hd' & _ & Hc' & _).
  set (vr := MatchValidator.validateMatch _ (snd sc)) in *.
  destruct (MatchSubmit.handler payload w) as [res w']; cbn [fst snd] in *.
  destruct res as [e | e | e cs rs | d].
  1-2: subst w'; exact Hw.
  - destruct Ht as (_ & -> & _). rewrite (usedOn_of_usage _ _ _ _ _ Hd). exact Hw.
  - destruct Ht as (_ & Hp & _ & _ & _ & _ & ->).
    destruct (MatchValidator.allowed (fst vr)).
    + rewrite (usedOn_of_usage _ _ _ _ _ (daily_recordProcessedMatch _ _ _ _ _ _)).
      destruct (usedOn_recordDailyUsage wallet type t (MatchSubmit.walletAddress payload)
                  match_ 1 (MatchSubmit.matchId payload) (snd vr))
        as [H | (Hwa & Hty & Hday & H)];
        rewrite H, (usedOn_of_usage _ _ _ _ _ Hd'), (usedOn_of_usage _ _ _ _ _ Hd);
        [exact Hw|].
      pose proof (passed_match_fits (MatchSubmit.securityParamsOf payload)
                    DEFAULT_SECURITY_CONFIG w Hp) as Hfit.
      cbn [MatchSubmit.securityParamsOf walletAddress] in Hfit.
      rewrite Hc', Hc in Hday.
      rewrite <- (usedOn_same_day wallet type t (clock w) w Hday).
      subst wallet type. exact Hfit.
    + rewrite (usedOn_of_usage _ _ _ _ _ Hd'), (usedOn_of_usage _ _ _ _ _ Hd). exact Hw.
Qed.

Lemma cap_serveOne r :
  keeps (preserves (withinCap DEFAULT_SECURITY_CONFIG wallet type t))
        (Pipeline.serveOne hmac js secret r).
Proof.
  intro w. destruct r as [payload | payload tx]; cbn [Pipeline.serveOne].
  - pose proof (cap_submit payload w) as H.
    destruct (MatchSubmit.handler payload w); exact H.
  - pose proof (cap_grant payload tx w) as H.
    destruct (RewardGrant.handler _ _ _ payload tx w); exact H.
Qed.

End Served.

(** *** Match rows count one match each *)

Lemma unit_of_usage w w' :
  daily_usage w' = daily_usage w -> unitMatchRows w -> unitMatchRows w'.
Proof. unfold unitMatchRows. intros ->. exact (fun H => H). Qed.

Lemma unit_recordDailyUsage wa type a m w :
  (type = match_ -> a = 1) ->
  unitMatchRows w -> unitMatchRows (snd (recordDailyUsage wa type a m w)).
Proof.
  intros Ha Hw. unfold unitMatchRows in *.
  unfold recordDailyUsage, insert_daily_usage, bind, get, ret, Date_now, set_daily_usage.
  pose proof (tables_round_trip w) as (_ & _ & Hd & _).
  destruct (round_trip w) as [[code |] w1]; cbn [snd fst daily_usage] in *;
    rewrite Hd; [exact Hw |].
  apply Forall_app. split; [exact Hw |].
  constructor; [| constructor]. cbn [usage_type amount]. exact Ha.
Qed.

Section Units.
Variable hmac : list Byte.byte -> list Byte.byte -> list Byte.byte.
Variable js : RewardGrant.SignedFields -> string.
Variable secret : option string.

Lemma unit_submit payload :
  keeps (preserves unitMatchRows) (MatchSubmit.handler payload).
Proof.
  intros w Hw.
  pose proof (submit_trace payload w) as Ht. cbv zeta in Ht.
  pose proof (SecurityFrame.static_performFullSecurityCheck
                (MatchSubmit.securityParamsOf payload) DEFAULT_SECURITY_CONFIG w)
    as (_ & _ & Hd & _).
  set (sc := performFullSecurityCheck _ _ w) in *.
  pose proof (ValidatorFacts.tables_validateMatch (MatchSubmit.matchInputOf payload)
                (snd sc)) as (_ & _ & Hd' & _).
  set (vr := MatchValidator.validateMatch _ (snd sc)) in *.
  destruct (MatchSubmit.handler payload w) as [res w']; cbn [fst snd] in *.
  destruct res as [e | e | e cs rs | d].
  1-2: subst w'; exact Hw.
  - destruct Ht as (_ & -> & _). exact (unit_of_usage _ _ Hd Hw).
  - destruct Ht as (_ & _ & _ & _ & _ & _ & ->).
    assert (Hv : unitMatchRows (snd vr))
      by exact (unit_of_usage _ _ Hd' (unit_of_usage _ _ Hd Hw)).
    destruct (MatchValidator.allowed (fst vr)); [| exact Hv].
    apply (unit_of_usage _ _ (daily_recordProcessedMatch _ _ _ _ _ _)).
    apply unit_recordDailyUsage; [reflexivity | exact Hv].
Qed.

Lemma unit_grant payload tx :
  keeps (preserves unitMatchRows) (RewardGrant.handler hmac js secret payload tx).
Proof.
  intros w Hw.
  pose proof (grant_trace hmac js secret payload tx w) as Ht. cbv zeta in Ht.
  pose proof (SecurityFrame.static_performFullSecurityCheck
                (RewardGrant.securityParamsOf payload) DEFAULT_SECURITY_CONFIG w)
    as (_ & _ & Hd & _).
  destruct (RewardGrant.handler hmac js secret payload tx w) as [res w'];
    cbn [fst snd] in *.
  destruct res as [e | e | e | e | e cs rs | e c | g].
  1-4: subst w'; exact Hw.
  - destruct Ht as (_ & -> & _). exact (unit_of_usage _ _ Hd Hw).
  - destruct Ht as (_ & ->). exact (unit_of_usage _ _ Hd Hw).
  - destruct Ht as (_ & _ & _ & _ & _ & _ & ->).
    apply (unit_of_usage _ _ (daily_recordProcessedMatch _ _ _ _ _ _)).
    apply unit_recordDailyUsage; [discriminate | exact (unit_of_usage _ _ Hd Hw)].
Qed.

Lemma unit_serveOne r :
  keeps (preserves unitMatchRows) (Pipeline.serveOne hmac js secret r).
Proof.
  intro w. destruct r as [payload | payload tx]; cbn [Pipeline.serveOne].
  - pose proof (unit_submit payload w) as H.
    destruct (MatchSubmit.handler payload w); exact H.
  - pose proof (unit_grant payload tx w) as H.
    destruct (RewardGrant.handler _ _ _ payload tx w); exact H.
Qed.

End Units.

(** X15. Over any run of match submissions and reward grants, whatever
    store errors they meet, the matches recorded for a wallet on a day
    stay within the daily match cap (50) if they were within it before: a
    match row is written only after the check found room for it, and
    every match row the handlers write counts one match. *)
Theorem daily_caps_respected hmac js secret reqs : forall w wallet t,
  unitMatchRows w ->
  usedOn wallet match_ t w <= capOf match_ DEFAULT_SECURITY_CONFIG ->
  unitMatchRows (snd (Pipeline.serve hmac js secret reqs w)) /\
  usedOn wallet match_ t (snd (Pipeline.serve hmac js secret reqs w))
    <= capOf match_ DEFAULT_SECURITY_CONFIG.
Proof.
  induction reqs as [| r reqs IH]; intros w wallet t Hu Hw; cbn [Pipeline.serve];
    [split; assumption |].
  pose proof (cap_serveOne hmac js secret wallet match_ t (Pipeline.a_request r)
                (Run.arrive (Pipeline.a_time r) (Pipeline.a_errors r) w) Hw) as H.
  pose proof (unit_serveOne hmac js secret (Pipeline.a_request r)
                (Run.arrive (Pipeline.a_time r) (Pipeline.a_errors r) w) Hu) as H'.
  destruct (Pipeline.serveOne _ _ _ _ _) as [res w1]; cbn [snd] in H, H'.
  specialize (IH w1 wallet t H' H).
  destruct (Pipeline.serve _ _ _ reqs w1) as [ress w2]; exact IH.
Qed.

Lemma daily_caps_respected_witness :
  unitMatchRows Examples.afterRun /\
  usedOn Scenarios.wallet match_ 1003000 Examples.afterRun == 1 /\
  usedOn Scenarios.wallet match_ 1003000 Examples.afterRun
    <= capOf match_ DEFAULT_SECURITY_CONFIG /\
  usedOn Scenarios.wallet match_ 1003000
    (snd (Pipeline.serve Examples.toyHmac Examples.toyStringify Examples.toySecret
            [Examples.laterArrival] Examples.afterRun)) == 2 /\
  unitMatchRows
    (snd (Pipeline.serve Examples.toyHmac Examples.toyStringify Examples.toySecret
            [Examples.laterArrival] Examples.afterRun)) /\
  usedOn Scenarios.wallet match_ 1003000
    (snd (Pipeline.serve Examples.toyHmac Examples.toyStringify Examples.toySecret
            [Examples.laterArrival] Examples.afterRun))
    <= capOf match_ DEFAULT_SECURITY_CONFIG.
Proof.
  assert (Hu : unitMatchRows Examples.afterRun).
  { unfold unitMatchRows.
    assert (E : daily_usage Examples.afterRun
                = [ {| du_wallet := Scenarios.wallet; usage_type := match_; amount := 1;
                       du_match_id := Scenarios.matchA; du_created_at := 1000000 |};
                    {| du_wallet := Scenarios.wallet; usage_type := reward; amount := 27;
                       du_match_id := Scenarios.matchB; du_created_at := 1001000 |} ])
      by (vm_compute; reflexivity).
    rewrite E. constructor; [reflexivity |]. constructor; [discriminate | constructor]. }
  assert (H1 : usedOn Scenarios.wallet match_ 1003000 Examples.afterRun == 1)
    by (vm_compute; reflexivity).
  assert (Hw : usedOn Scenarios.wallet match_ 1003000 Examples.afterRun
               <= capOf match_ DEFAULT_SECURITY_CONFIG)
    by (rewrite H1; discriminate).
  split; [exact Hu |]. split; [exact H1 |]. split; [exact Hw |].
  split; [vm_compute; reflexivity |].
  exact (daily_caps_respected Examples.toyHmac Examples.toyStringify Examples.toySecret
           [Examples.laterArrival] Examples.afterRun Scenarios.wallet 1003000%Z Hu Hw).
Defined.

End CapInvariant.

(** ** The reward formula on valid and on accepted matches *)

Module RewardBounds.
Import RewardCalculator.

Lemma baseReward_le m : baseReward (calculateReward m) <= 25.
Proof.
  unfold calculateReward; cbn [baseReward].
  unfold BASE_REWARD, Js.lookup, Js.or_num.
  RewardFacts.split_lookups; discriminate.
Qed.

Lemma placementMultiplier_le m : placementMultiplier (calculateReward m) <= 2.
Proof.
  unfold calculateReward; cbn [placementMultiplier].
  unfold PLACEMENT_MULTIPLIERS, Js.lookup, Js.or_num.
  RewardFacts.split_lookups; discriminate.
Qed.

Lemma survivalBonus_le m : survivalBonus (calculateReward m) <= 20.
Proof. unfold calculateReward; cbn [survivalBonus]. apply Q.le_min_r. Qed.

Lemma playerCount_cases q :
  existsb (Js.eqb q) [2; 3; 5] = true -> q == 2 \/ q == 3 \/ q == 5.
Proof.
  cbn. unfold Js.eqb.
  destruct (Qeq_bool q 2) eqn:E2; [left; now apply Qeq_bool_iff|].
  destruct (Qeq_bool q 3) eqn:E3; [right; left; now apply Qeq_bool_iff|].
  destruct (Qeq_bool q 5) eqn:E5; [right; right; now apply Qeq_bool_iff|].
  discriminate.
Qed.

(** What [validateMatchData] asks of a match. *)
Lemma validateMatchData_valid m :
  md_valid (validateMatchData m) = true <->
  (1 <= placement m /\ placement m <= playerCount m) /\
  (playerCount m == 2 \/ playerCount m == 3 \/ playerCount m == 5) /\
  (0 <= kills m /\ kills m < playerCount m) /\
  (5000 <= durationMs m /\ durationMs m <= 600000) /\
  (0 <= botConfidence m /\ botConfidence m <= 1).
Proof.
  unfold validateMatchData, Js.push.
  destruct (Js.ltb (placement m) 1 || Js.gtb (placement m) (playerCount m)) eqn:E1.
  1: { split; [|intros ((H1 & H2) & _)].
       - repeat match goal with |- context [if ?c then _ else _] => destruct c end;
           cbn; discriminate.
       - apply orb_true_iff in E1 as [E|E];
           [apply JsFacts.ltb_lt in E | apply JsFacts.gtb_gt in E]; lra. }
  destruct (negb (existsb (Js.eqb (playerCount m)) [2; 3; 5])) eqn:E2.
  1: { split; [|intros (_ & H & _)].
       - repeat match goal with |- context [if ?c then _ else _] => destruct c end;
           cbn; discriminate.
       - apply negb_true_iff in E2. cbn in E2. unfold Js.eqb in E2.
         destruct H as [H|[H|H]]; apply Qeq_bool_iff in H; rewrite H in E2;
           cbn in E2; rewrite ?orb_true_r in E2; discriminate. }
  destruct (Js.ltb (kills m) 0 || Js.geb (kills m) (playerCount m)) eqn:E3.
  1: { split; [|intros (_ & _ & (H1 & H2) & _)].
       - repeat match goal with |- context [if ?c then _ else _] => destruct c end;
           cbn; discriminate.
       - apply orb_true_iff in E3 as [E|E];
           [apply JsFacts.ltb_lt in E | apply JsFacts.geb_ge in E]; lra. }
  destruct (Js.ltb (durationMs m) 5000 || Js.gtb (durationMs m) 600000) eqn:E4.
  1: { split; [|intros (_ & _ & _ & (H1 & H2) & _)].
       - repeat match goal with |- context [if ?c then _ else _] => destruct c end;
           cbn; discriminate.
       - apply orb_true_iff in E4 as [E|E];
           [apply JsFacts.ltb_lt in E | apply JsFacts.gtb_gt in E]; lra. }
  destruct (Js.ltb (botConfidence m) 0 || Js.gtb (botConfidence m) 1) eqn:E5.
  1: { split; [cbn; discriminate | intros (_ & _ & _ & _ & (H1 & H2))].
       apply orb_true_iff in E5 as [E|E];
         [apply JsFacts.ltb_lt in E | apply JsFacts.gtb_gt in E]; lra. }
  cbn. split; [intros _ | reflexivity].
  apply orb_false_iff in E1 as [E1a E1b]. apply orb_false_iff in E3 as [E3a E3b].
  apply orb_false_iff in E4 as [E4a E4b]. apply orb_false_iff in E5 as [E5a E5b].
  apply JsFacts.ltb_ge in E1a, E3a, E4a, E5a.
  apply JsFacts.gtb_le in E1b, E4b, E5b. apply JsFacts.geb_lt in E3b.
  apply negb_false_iff, playerCount_cases in E2.
  repeat split; assumption.
Qed.

Lemma valid_preClamp m :
  md_valid (validateMatchData m) = true -> 0 <= preClamp m /\ preClamp m < 95.
Proof.
  intro H. apply validateMatchData_valid in H
    as ((Hp1 & Hp2) & Hpc & (Hk1 & Hk2) & (Hd1 & Hd2) & _).
  assert (Hd0 : 0 <= durationMs m) by lra.
  split; [apply RewardFacts.preClamp_nonneg; assumption|].
  unfold preClamp.
  pose proof (RewardFacts.baseReward_pos m) as Hb.
  pose proof (baseReward_le m) as Hb'.
  pose proof (RewardFacts.placementMultiplier_pos m) as Hm.
  pose proof (placementMultiplier_le m) as Hm'.
  pose proof (survivalBonus_le m) as Hs.
  pose proof (RewardFacts.survivalBonus_nonneg m Hd0) as Hs0.
  assert (Hkb : killBonus (calculateReward m) == kills m * 5) by reflexivity.
  assert (Hk5 : kills m < 5) by (destruct Hpc as [E|[E|E]]; rewrite E in Hk2; lra).
  set (b := baseReward (calculateReward m)) in *.
  set (p := placementMultiplier (calculateReward m)) in *.
  set (s := survivalBonus (calculateReward m)) in *.
  set (k := killBonus (calculateReward m)) in *.
  assert (Hbp : b * p <= 50) by nra.
  assert (Hbp0 : 0 <= b * p) by nra.
  destruct (RewardFacts.antiCheatModifier_cases m) as [-> | [-> | ->]]; lra.
Qed.

(** X10. For match data that [validateMatchData] accepts, with kills and
    a duration that are numbers from 0 on, the two caps of
    [calculateReward] are idle: the reward is the value of the formula,
    at least 0 and at most 95. *)
Theorem valid_match_reward m :
  md_valid (validateMatchData m) = true -> 0 <= kills m -> 0 <= durationMs m ->
  totalReward (calculateReward m) == preClamp m /\
  0 <= totalReward (calculateReward m) /\ totalReward (calculateReward m) <= 95.
Proof.
  intros H _ _. destruct (valid_preClamp m H) as [H0 H95].
  assert (E : totalReward (calculateReward m) == preClamp m).
  { rewrite RewardFacts.totalReward_clamp.
    rewrite (Q.max_l (preClamp m) 0 H0). apply Q.min_l. lra. }
  rewrite E. split; [reflexivity |]. split; [exact H0 | lra].
Qed.

Lemma valid_match_reward_witness :
  md_valid (validateMatchData Scenarios.scenarioA) = true /\
  0 <= kills Scenarios.scenarioA /\ 0 <= durationMs Scenarios.scenarioA /\
  totalReward (calculateReward Scenarios.scenarioA) == preClamp Scenarios.scenarioA /\
  0 <= totalReward (calculateReward Scenarios.scenarioA) /\
  totalReward (calculateReward Scenarios.scenarioA) <= 95.
Proof.
  assert (H : md_valid (validateMatchData Scenarios.scenarioA) = true)
    by (vm_compute; reflexivity).
  assert (Hk : 0 <= kills Scenarios.scenarioA) by discriminate.
  assert (Hd : 0 <= durationMs Scenarios.scenarioA) by discriminate.
  split; [exact H |]. split; [exact Hk |]. split; [exact Hd |].
  exact (valid_match_reward Scenarios.scenarioA H Hk Hd).
Defined.

End RewardBounds.

Module RewardOrder.
Import RewardCalculator.

Lemma clamp_monotone x y : x <= y -> Qmin (Qmax x 0) 1000 <= Qmin (Qmax y 0) 1000.
Proof.
  intro H. apply Q.min_le_compat_r. apply Q.max_le_compat_r. exact H.
Qed.

(** The multiplier of an integer placement from 1 to 5 does not grow with
    the placement. *)
Lemma multiplier_antitone (p p' : Z) :
  (1 <= p <= p')%Z -> (p' <= 5)%Z ->
  Js.or_num (Js.lookup PLACEMENT_MULTIPLIERS (inject_Z p')) (1 # 10)
  <= Js.or_num (Js.lookup PLACEMENT_MULTIPLIERS (inject_Z p)) (1 # 10).
Proof.
  intros H H'.
  assert (Hp : (p = 1 \/ p = 2 \/ p = 3 \/ p = 4 \/ p = 5)%Z) by lia.
  assert (Hp' : (p' = 1 \/ p' = 2 \/ p' = 3 \/ p' = 4 \/ p' = 5)%Z) by lia.
  destruct Hp as [-> | [-> | [-> | [-> | ->]]]]; destruct Hp' as [-> | [-> | [-> | [-> | ->]]]];
    try lia; vm_compute; discriminate.
Qed.

(** X11. Among match data that [validateMatchData] accepts, with
    everything else equal, more kills or a longer match never lower the
    reward; and for valid match data with kills and a duration that are
    numbers from 0 on, a better placement (an integer from 1 to 5) never
    pays less than a worse one. *)
Theorem reward_monotone :
  (forall m m',
     md_valid (validateMatchData m) = true -> md_valid (validateMatchData m') = true ->
     placement m' = placement m -> playerCount m' = playerCount m ->
     antiCheatPassed m' = antiCheatPassed m -> botConfidence m' = botConfidence m ->
     kills m <= kills m' -> durationMs m <= durationMs m' ->
     totalReward (calculateReward m) <= totalReward (calculateReward m')) /\
  (forall m m' (p p' : Z),
     md_valid (validateMatchData m) = true -> 0 <= kills m -> 0 <= durationMs m ->
     placement m = inject_Z p -> placement m' = inject_Z p' ->
     (1 <= p <= p')%Z -> (p' <= 5)%Z ->
     playerCount m' = playerCount m -> kills m' = kills m ->
     durationMs m' = durationMs m ->
     antiCheatPassed m' = antiCheatPassed m -> botConfidence m' = botConfidence m ->
     totalReward (calculateReward m') <= totalReward (calculateReward m)).
Proof.
  split.
  - intros m m' _ _ Hp Hc Ha Hb Hk Hd.
    rewrite !RewardFacts.totalReward_clamp. apply clamp_monotone.
    unfold preClamp.
    pose proof (RewardFacts.antiCheatModifier_nonneg m) as Hmod.
    assert (E1 : baseReward (calculateReward m') = baseReward (calculateReward m))
      by (unfold calculateReward; cbn [baseReward]; rewrite Hc; reflexivity).
    assert (E2 : placementMultiplier (calculateReward m')
                 = placementMultiplier (calculateReward m))
      by (unfold calculateReward; cbn [placementMultiplier]; rewrite Hp; reflexivity).
    assert (E3 : antiCheatModifier (calculateReward m')
                 = antiCheatModifier (calculateReward m))
      by (unfold calculateReward; cbn [antiCheatModifier]; rewrite Ha, Hb; reflexivity).
    assert (E4 : killBonus (calculateReward m) <= killBonus (calculateReward m')).
    { unfold calculateReward; cbn [killBonus]. unfold KILL_BONUS. lra. }
    assert (E5 : survivalBonus (calculateReward m) <= survivalBonus (calculateReward m')).
    { unfold calculateReward; cbn [survivalBonus].
      apply Q.min_le_compat_r. unfold SURVIVAL_BONUS_PER_MINUTE.
      setoid_replace (durationMs m / 60000 * 2) with (durationMs m * (1 # 30000)) by field.
      setoid_replace (durationMs m' / 60000 * 2) with (durationMs m' * (1 # 30000)) by field.
      lra. }
    rewrite E1, E2, E3.
    set (b := baseReward (calculateReward m)) in *.
    set (p := placementMultiplier (calculateReward m)) in *.
    set (a := antiCheatModifier (calculateReward m)) in *.
    nra.
  - intros m m' p p' _ _ _ Hp Hp' Hr Hr' Hc Hk Hd Ha Hb.
    rewrite !RewardFacts.totalReward_clamp. apply clamp_monotone.
    unfold preClamp.
    pose proof (RewardFacts.antiCheatModifier_nonneg m) as Hmod.
    pose proof (RewardFacts.baseReward_pos m) as Hbase.
    assert (E1 : baseReward (calculateReward m') = baseReward (calculateReward m))
      by (unfold calculateReward; cbn [baseReward]; rewrite Hc; reflexivity).
    assert (E2 : placementMultiplier (calculateReward m')
                 <= placementMultiplier (calculateReward m)).
    { unfold calculateReward; cbn [placementMultiplier]. rewrite Hp, Hp'.
      apply multiplier_antitone; assumption. }
    assert (E3 : antiCheatModifier (calculateReward m')
                 = antiCheatModifier (calculateReward m))
      by (unfold calculateReward; cbn [antiCheatModifier]; rewrite Ha, Hb; reflexivity).
    assert (E4 : killBonus (calculateReward m') = killBonus (calculateReward m))
      by (unfold calculateReward; cbn [killBonus]; rewrite Hk; reflexivity).
    assert (E5 : survivalBonus (calculateReward m') = survivalBonus (calculateReward m))
      by (unfold calculateReward; cbn [survivalBonus]; rewrite Hd; reflexivity).
    rewrite E1, E3, E4, E5.
    set (b := baseReward (calculateReward m)) in *.
    set (q := placementMultiplier (calculateReward m)) in *.
    set (q' := placementMultiplier (calculateReward m')) in *.
    set (a := antiCheatModifier (calculateReward m)) in *.
    assert (b * q' <= b * q) by nra.
    nra.
Qed.

Lemma reward_monotone_witness :
  totalReward (calculateReward Examples.shorterData)
    <= totalReward (calculateReward Examples.cleanData) /\
  totalReward (calculateReward Examples.secondData)
    <= totalReward (calculateReward Examples.cleanData).
Proof.
  assert (Hs : md_valid (validateMatchData Examples.shorterData) = true)
    by (vm_compute; reflexivity).
  assert (Hc : md_valid (validateMatchData Examples.cleanData) = true)
    by (vm_compute; reflexivity).
  split.
  - apply (proj1 reward_monotone Examples.shorterData Examples.cleanData Hs Hc);
      try reflexivity; vm_compute; discriminate.
  - apply (proj2 reward_monotone Examples.cleanData Examples.secondData 1%Z 2%Z Hc);
      try reflexivity; try lia; vm_compute; discriminate.
Defined.

End RewardOrder.

Module AcceptedFacts.
Import Store Query RewardCalculator MatchSubmit.
Local Open Scope string_scope.

(** What [validatePayloadStructure] asks of a payload. *)
Lemma structure_accepted payload w :
  fst (validatePayloadStructure payload w) = None ->
  SecurityDb.is_eth_address (walletAddress payload) = true /\
  (32 <= String.length (matchId payload))%nat /\
  (32 <= String.length (nonce payload))%nat /\
  1 <= placement payload /\ placement payload <= playerCount payload /\
  (playerCount payload == 2 \/ playerCount payload == 3 \/ playerCount payload == 5) /\
  0 <= durationMs payload /\ 0 <= kills payload /\
  Qabs (inject_Z (clock w) - timestamp payload) <= 300000.
Proof.
  unfold validatePayloadStructure, bind, Date_now, ret.
  destruct (SecurityDb.is_eth_address _) eqn:E1; cbn [negb]; [|discriminate].
  destruct (_ <? 32)%nat eqn:E2; [discriminate|].
  destruct (String.length (nonce payload) <? 32)%nat eqn:E3; [discriminate|].
  destruct (Js.ltb (placement payload) 1 || Js.gtb (placement payload) 5) eqn:E4;
    [discriminate|].
  destruct (negb (existsb _ _)) eqn:E5; [discriminate|].
  destruct (Js.gtb (placement payload) (playerCount payload)) eqn:E6; [discriminate|].
  destruct (Js.ltb (durationMs payload) 0) eqn:E7; [discriminate|].
  destruct (Js.ltb (kills payload) 0) eqn:E8; [discriminate|].
  destruct (Js.gtb _ 300000) eqn:E9; [discriminate|]. intros _.
  apply Nat.ltb_ge in E2, E3.
  apply orb_false_iff in E4 as [E4 _].
  apply JsFacts.ltb_ge in E4, E7, E8. apply JsFacts.gtb_le in E6, E9.
  apply negb_false_iff, RewardBounds.playerCount_cases in E5.
  repeat split; assumption.
Qed.

Lemma duration_limits q cfg :
  Js.lookup MatchValidator.DURATION q = Some cfg ->
  10000 <= MatchValidator.min cfg /\ MatchValidator.max cfg <= 300000.
Proof.
  unfold MatchValidator.DURATION, Js.lookup.
  repeat (destruct (Qeq_bool _ _); [intro H; injection H as <-; cbn; split; discriminate|]).
  discriminate.
Qed.

Lemma validateDuration_accepted input :
  MatchValidator.reject (MatchValidator.validateDuration input) = false ->
  10000 <= MatchValidator.durationMs input /\ MatchValidator.durationMs input <= 300000.
Proof.
  unfold MatchValidator.validateDuration.
  destruct (Js.lookup MatchValidator.DURATION _) as [cfg|] eqn:E; [|discriminate].
  apply duration_limits in E as [Hmin Hmax].
  destruct (Js.ltb _ (MatchValidator.min cfg)) eqn:E1; [discriminate|].
  destruct (Js.gtb _ (MatchValidator.max cfg)) eqn:E2; [discriminate|].
  intros _. apply JsFacts.ltb_ge in E1. apply JsFacts.gtb_le in E2. lra.
Qed.

Lemma validateKillCount_accepted input :
  MatchValidator.reject (MatchValidator.validateKillCount input) = false ->
  MatchValidator.kills input < MatchValidator.playerCount input.
Proof.
  unfold MatchValidator.validateKillCount.
  destruct (Js.geb _ _) eqn:E; [discriminate|].
  intros _. apply JsFacts.geb_lt in E. exact E.
Qed.

(** An allowed match has passed the hard limits of the three pure
    validators. *)
Lemma validateMatch_allowed input w :
  MatchValidator.allowed (fst (MatchValidator.validateMatch input w)) = true ->
  MatchValidator.reject (MatchValidator.validateDuration input) = false /\
  MatchValidator.reject (MatchValidator.validateInputVariance input) = false /\
  MatchValidator.reject (MatchValidator.validateKillCount input) = false.
Proof.
  unfold MatchValidator.validateMatch, bind, ret.
  destruct (MatchValidator.reject (MatchValidator.validateDuration input));
    [discriminate|].
  destruct (MatchValidator.reject (MatchValidator.validateInputVariance input));
    [discriminate|].
  destruct (MatchValidator.reject (MatchValidator.validateKillCount input));
    [discriminate|].
  intros _. repeat split.
Qed.

Lemma survivalBonus_short (m : MatchData) :
  RewardCalculator.durationMs m <= 300000 -> survivalBonus (calculateReward m) <= 10.
Proof.
  intro H. unfold calculateReward; cbn [survivalBonus].
  eapply Qle_trans; [apply Q.le_min_l|].
  unfold SURVIVAL_BONUS_PER_MINUTE. 
  setoid_replace (RewardCalculator.durationMs m / 60000 * 2)
    with (RewardCalculator.durationMs m * (1 # 30000)) by field.
  lra.
Qed.

(** X9. The match data that the handler builds for an allowed submission is
    data that [validateMatchData] accepts, although the handler never
    calls it; the reward it answers is the value of the formula, without
    either cap, at least 0 and at most 85. *)
Theorem accepted_submission_reward payload w d w' :
  handler payload w = (Ok d, w') -> allowed d = true ->
  md_valid (validateMatchData (matchDataOf payload (riskScore d))) = true /\
  calculatedReward d == preClamp (matchDataOf payload (riskScore d)) /\
  0 <= calculatedReward d /\ calculatedReward d <= 85.
Proof.
  intros Hh Ha.
  pose proof (PipelineFrame.submit_trace payload w) as Ht. cbv zeta in Ht.
  rewrite Hh in Ht. cbn [fst snd] in Ht.
  destruct Ht as (Hs & _ & Hal & Hrs & _ & Hcr & _).
  rewrite Ha in Hal. rewrite <- Hal in Hcr. rewrite <- Hrs in Hcr.
  set (sc := SecurityDb.performFullSecurityCheck _ _ w) in *.
  destruct (structure_accepted payload w Hs)
    as (_ & _ & _ & Hp1 & Hp2 & Hpc & _ & Hk0 & _).
  destruct (validateMatch_allowed _ _ (eq_sym Hal)) as (Hd & _ & Hk).
  apply validateDuration_accepted in Hd as [Hd1 Hd2].
  apply validateKillCount_accepted in Hk.
  cbn [matchInputOf MatchValidator.durationMs MatchValidator.kills
       MatchValidator.playerCount] in Hd1, Hd2, Hk.
  pose proof (ValidatorBounds.validateMatch_score_range (matchInputOf payload) (snd sc))
    as Hr. rewrite <- Hrs in Hr.
  set (m := matchDataOf payload (riskScore d)) in *.
  assert (Hv : md_valid (validateMatchData m) = true).
  { apply RewardBounds.validateMatchData_valid. subst m. cbn.
    repeat split; try assumption; try lra.
    - unfold Qle, Qdiv, Qmult, Qinv, inject_Z. cbn. lia.
    - unfold Qle, Qdiv, Qmult, Qinv, inject_Z. cbn. lia. }
  split; [exact Hv|].
  destruct (RewardBounds.valid_preClamp m Hv) as [H0 H95].
  assert (E : totalReward (calculateReward m) == preClamp m).
  { rewrite RewardFacts.totalReward_clamp.
    rewrite (Q.max_l (preClamp m) 0 H0). apply Q.min_l. lra. }
  rewrite Hcr, E. split; [reflexivity|]. split; [exact H0|].
  unfold preClamp.
  pose proof (RewardFacts.baseReward_pos m) as Hb.
  pose proof (RewardBounds.baseReward_le m) as Hb'.
  pose proof (RewardFacts.placementMultiplier_pos m) as Hm.
  pose proof (RewardBounds.placementMultiplier_le m) as Hm'.
  assert (Hd0 : 0 <= RewardCalculator.durationMs m) by (subst m; cbn; lra).
  pose proof (RewardFacts.survivalBonus_nonneg m Hd0) as Hs0.
  pose proof (survivalBonus_short m Hd2) as Hs10.
  assert (Hkb : killBonus (calculateReward m) == RewardCalculator.kills m * 5) by reflexivity.
  assert (Hk5 : RewardCalculator.kills m < 5).
  { subst m; cbn. destruct Hpc as [E'|[E'|E']]; rewrite E' in Hk; lra. }
  set (b := baseReward (calculateReward m)) in *.
  set (p := placementMultiplier (calculateReward m)) in *.
  set (s := survivalBonus (calculateReward m)) in *.
  set (k := killBonus (calculateReward m)) in *.
  assert (Hbp : b * p <= 50) by nra.
  assert (Hbp0 : 0 <= b * p) by nra.
  destruct (RewardFacts.antiCheatModifier_cases m) as [-> | [-> | ->]]; lra.
Qed.

Lemma accepted_submission_reward_witness :
  exists d w',
    handler Examples.cleanPayload (Store.empty 1000000) = (Ok d, w') /\
    allowed d = true /\
    md_valid (validateMatchData (matchDataOf Examples.cleanPayload (riskScore d))) = true /\
    calculatedReward d == preClamp (matchDataOf Examples.cleanPayload (riskScore d)) /\
    0 <= calculatedReward d /\ calculatedReward d <= 85.
Proof.
  destruct (handler Examples.cleanPayload (Store.empty 1000000)) as [res w'] eqn:E.
  assert (Hk : exists d, res = Ok d /\ allowed d = true).
  { assert (Hres : res = fst (handler Examples.cleanPayload (Store.empty 1000000)))
      by (rewrite E; reflexivity).
    rewrite Hres. vm_compute. eexists. split; reflexivity. }
  destruct Hk as (d & -> & Ha).
  exists d, w'. split; [reflexivity|]. split; [exact Ha|].
  exact (accepted_submission_reward Examples.cleanPayload (Store.empty 1000000) d w' E Ha).
Defined.

End AcceptedFacts.


(** ** Hexadecimal text, signatures and contract identifiers *)

Module HexFacts.
Import SecurityDb.
Local Open Scope string_scope.

(** The two hexadecimal digits of a byte. *)
Lemma hexByte_digits (b : Byte.byte) :
  exists c1 c2,
    Js.padStart 2 "0" (Js.toString16 (Byte.to_N b)) = String c1 (String c2 "") /\
    In c1 (list_ascii_of_string "0123456789abcdef") /\
    In c2 (list_ascii_of_string "0123456789abcdef").
Proof.
  destruct b; vm_compute; do 2 eexists; (split; [reflexivity|]); split; tauto.
Qed.

(** The digits determine the byte. *)
Lemma hexByte_inv (b : Byte.byte) :
  Byte.of_N
    (N.of_hex_uint
       (match HexadecimalString.NilZero.uint_of_string
                (Js.padStart 2 "0" (Js.toString16 (Byte.to_N b))) with
        | Some d => d
        | None => Hexadecimal.Nil
        end)) = Some b.
Proof. destruct b; vm_compute; reflexivity. Qed.

Lemma hexByte_inj (a b : Byte.byte) :
  Js.padStart 2 "0" (Js.toString16 (Byte.to_N a))
  = Js.padStart 2 "0" (Js.toString16 (Byte.to_N b)) -> a = b.
Proof.
  intro H. pose proof (hexByte_inv a) as Ha. rewrite H, hexByte_inv in Ha.
  congruence.
Qed.

Lemma concat_cons (x : string) xs :
  String.concat "" (x :: xs) = x ++ String.concat "" xs.
Proof.
  destruct xs as [|y ys]; cbn [String.concat]; [|reflexivity].
  clear. induction x as [|c x IH]; [reflexivity|]. cbn. rewrite <- IH. reflexivity.
Qed.

Lemma hexOf_cons b bs :
  hexOf (b :: bs) = Js.padStart 2 "0" (Js.toString16 (Byte.to_N b)) ++ hexOf bs.
Proof. unfold hexOf. cbn [map]. apply concat_cons. Qed.

Lemma hexOf_length bs : String.length (hexOf bs) = (2 * List.length bs)%nat.
Proof.
  induction bs as [|b bs IH]; [reflexivity|]. rewrite hexOf_cons.
  destruct (hexByte_digits b) as (c1 & c2 & -> & _). cbn [append String.length List.length].
  rewrite IH. lia.
Qed.

Lemma hexOf_digits bs :
  Forall (fun c => In c (list_ascii_of_string "0123456789abcdef"))
         (list_ascii_of_string (hexOf bs)).
Proof.
  induction bs as [|b bs IH]; [constructor|]. rewrite hexOf_cons.
  destruct (hexByte_digits b) as (c1 & c2 & E & H1 & H2). rewrite E.
  cbn [append list_ascii_of_string].
  constructor; [exact H1|]. constructor; [exact H2 | exact IH].
Qed.

Lemma hexOf_inj bs : forall bs', hexOf bs = hexOf bs' -> bs = bs'.
Proof.
  induction bs as [|b bs IH]; intros [|b' bs'] H.
  - reflexivity.
  - pose proof (hexOf_length (b' :: bs')) as L. rewrite <- H in L. discriminate.
  - pose proof (hexOf_length (b :: bs)) as L. rewrite H in L. discriminate.
  - rewrite !hexOf_cons in H.
    destruct (hexByte_digits b) as (c1 & c2 & E & _).
    destruct (hexByte_digits b') as (c1' & c2' & E' & _).
    rewrite E, E' in H. cbn [append] in H. injection H as H1 H2 H3.
    f_equal; [|apply IH; exact H3].
    apply hexByte_inj. rewrite E, E'. congruence.
Qed.

(** *** The comparison loop *)

Lemma charCodeAt_cons c s i : Js.charCodeAt (String c s) (S i) = Js.charCodeAt s i.
Proof. reflexivity. Qed.

Lemma N_of_ascii_inj a b : N_of_ascii a = N_of_ascii b -> a = b.
Proof.
  intro H. rewrite <- (ascii_N_embedding a), <- (ascii_N_embedding b), H. reflexivity.
Qed.

Lemma loop_cons c s d e n r :
  fold_left (fun result i =>
      N.lor result (N.lxor (Js.charCodeAt (String c s) i) (Js.charCodeAt (String d e) i)))
    (seq 0 (S n)) r
  = fold_left (fun result i =>
      N.lor result (N.lxor (Js.charCodeAt s i) (Js.charCodeAt e i)))
    (seq 0 n) (N.lor r (N.lxor (N_of_ascii c) (N_of_ascii d))).
Proof.
  cbn [seq fold_left]. rewrite <- seq_shift.
  change (Js.charCodeAt (String c s) 0) with (N_of_ascii c).
  change (Js.charCodeAt (String d e) 0) with (N_of_ascii d).
  generalize (N.lor r (N.lxor (N_of_ascii c) (N_of_ascii d))). generalize (seq 0 n).
  intro l. induction l as [|i l IH]; intro r0; [reflexivity|].
  cbn [map fold_left]. rewrite !charCodeAt_cons. apply IH.
Qed.

Lemma loop_zero s : forall e r,
  String.length s = String.length e ->
  (fold_left (fun result i =>
      N.lor result (N.lxor (Js.charCodeAt s i) (Js.charCodeAt e i)))
     (seq 0 (String.length s)) r = 0%N
   <-> r = 0%N /\ s = e).
Proof.
  induction s as [|c s IH]; intros [|d e] r Hl; try discriminate.
  - cbn. split; [intro H; split; [exact H | reflexivity] | intros [H _]; exact H].
  - cbn [String.length] in *. injection Hl as Hl.
    rewrite loop_cons, (IH e _ Hl). rewrite N.lor_eq_0_iff, N.lxor_eq_0_iff.
    split.
    + intros [[Hr Hc] ->]. apply N_of_ascii_inj in Hc. subst d.
      split; [exact Hr | reflexivity].
    + intros [Hr H]. injection H as -> ->.
      split; [split; [exact Hr | reflexivity] | reflexivity].
Qed.

Lemma verify_eqb hmac payload signature secret :
  verifyHmacSignature hmac payload signature secret =
  String.eqb signature (hexOf (hmac (Js.encode secret) (Js.encode payload))).
Proof.
  unfold verifyHmacSignature. cbv zeta.
  set (expected := hexOf _).
  destruct (Nat.eqb (String.length signature) (String.length expected)) eqn:El;
    cbn [negb].
  - apply Nat.eqb_eq in El.
    pose proof (loop_zero signature expected 0%N El) as H.
    destruct (String.eqb signature expected) eqn:E.
    + apply N.eqb_eq. apply H. split; [reflexivity | now apply String.eqb_eq].
    + apply N.eqb_neq. intro H0. apply H in H0 as [_ H0].
      apply String.eqb_neq in E. contradiction.
  - symmetry. apply String.eqb_neq. intro H. subst signature.
    rewrite Nat.eqb_refl in El. discriminate.
Qed.

(** X12. The constant-time loop of [verifyHmacSignature] decides equality of
    strings: a signature is accepted exactly when it is the lower-case
    hexadecimal text of the HMAC of the payload under the secret.  An
    accepted signature has two characters per byte of the HMAC, all of
    them lower-case hexadecimal digits. *)
Theorem verifyHmacSignature_exact hmac payload signature secret :
  let expected := hexOf (hmac (Js.encode secret) (Js.encode payload)) in
  verifyHmacSignature hmac payload signature secret = String.eqb signature expected /\
  (if verifyHmacSignature hmac payload signature secret
   then String.length signature
        = (2 * List.length (hmac (Js.encode secret) (Js.encode payload)))%nat /\
        Forall (fun c => In c (list_ascii_of_string "0123456789abcdef"))
               (list_ascii_of_string signature)
   else signature <> expected).
Proof.
  cbv zeta. split; [apply verify_eqb|]. rewrite verify_eqb.
  destruct (String.eqb signature _) eqn:E.
  - apply String.eqb_eq in E. subst signature. split; [apply hexOf_length | apply hexOf_digits].
  - apply String.eqb_neq. exact E.
Qed.

(** X13. [generateSecureNonce] writes two lower-case hexadecimal digits per
    random byte (64 characters for the 32 bytes it draws, enough for the
    length check of the handlers), and different bytes give different
    nonces. *)
Theorem generateSecureNonce_format :
  (forall random,
     String.length (generateSecureNonce random) = (2 * List.length random)%nat /\
     Forall (fun c => In c (list_ascii_of_string "0123456789abcdef"))
            (list_ascii_of_string (generateSecureNonce random))) /\
  (forall random random',
     generateSecureNonce random = generateSecureNonce random' -> random = random').
Proof.
  split.
  - intro random. split; [apply hexOf_length | apply hexOf_digits].
  - intros random random'. apply hexOf_inj.
Qed.

Lemma generateSecureNonce_format_witness :
  generateSecureNonce [Byte.x0a; Byte.xff] = generateSecureNonce [Byte.x0a; Byte.xff] /\
  [Byte.x0a; Byte.xff] = [Byte.x0a; Byte.xff].
Proof.
  assert (H : generateSecureNonce [Byte.x0a; Byte.xff]
              = generateSecureNonce [Byte.x0a; Byte.xff]) by reflexivity.
  split; [exact H|].
  exact (proj2 generateSecureNonce_format [Byte.x0a; Byte.xff] [Byte.x0a; Byte.xff] H).
Defined.

End HexFacts.

Module Bytes32Facts.
Import ContractService.
Local Open Scope string_scope.
Local Open Scope Z_scope.

Lemma byte_range (b : Byte.byte) : 0 <= Z.of_N (Byte.to_N b) < 256.
Proof. pose proof (Byte.to_N_bounded b). lia. Qed.

(** Shifting by a byte and or-ing a byte in is multiplying and adding. *)
Lemma shift_or h b :
  0 <= b < 256 -> Z.lor (Z.shiftl h 8) b = h * 256 + b.
Proof.
  intro Hb. rewrite Z.shiftl_mul_pow2 by lia. change (2 ^ 8) with 256.
  rewrite <- Z.lxor_lor, <- Z.add_nocarry_lxor; try reflexivity.
  all: apply Z.bits_inj'; intros n Hn; rewrite Z.land_spec, Z.bits_0;
    destruct (Z.lt_ge_cases n 8) as [Hlt|Hge].
  all: try (replace (h * 256) with (h * 2 ^ 8) by reflexivity;
            rewrite Z.mul_pow2_bits_low by lia; reflexivity).
  all: rewrite andb_comm;
       replace (Z.testbit b n) with false; [reflexivity|];
       symmetry; destruct (Z.eq_dec b 0) as [->|Hnz]; [apply Z.bits_0|];
       apply Z.bits_above_log2; [lia|];
       apply Z.lt_le_trans with 8; [apply Z.log2_lt_pow2; lia | lia].
Qed.

Lemma keep_256 x : Z.land x (Z.shiftl 1 256 - 1) = x mod 2 ^ 256.
Proof.
  rewrite Z.sub_1_r. change (Z.pred (Z.shiftl 1 256)) with (Z.ones 256).
  apply Z.land_ones. lia.
Qed.

(** The loop of [matchIdToBytes32] computes, modulo [2^256], the number
    whose base-256 digits are the bytes. *)
Lemma hash_loop data : forall x,
  fold_left
    (fun hash b =>
       let hash := Z.lor (Z.shiftl hash 8) (Z.of_N (Byte.to_N b)) in
       Z.land hash (Z.shiftl 1 256 - 1)) data (x mod 2 ^ 256)
  = fold_left (fun v b => v * 256 + Z.of_N (Byte.to_N b)) data x mod 2 ^ 256.
Proof.
  induction data as [|b data IH]; intro x; cbn [fold_left]; [reflexivity|].
  cbv zeta. rewrite shift_or by apply byte_range. rewrite keep_256.
  rewrite <- IH. f_equal.
  rewrite Z.add_mod, Z.mul_mod, Z.mod_mod by lia.
  rewrite <- Z.mul_mod, <- Z.add_mod by lia. reflexivity.
Qed.

Lemma digits_shift data : forall x,
  fold_left (fun v b => v * 256 + Z.of_N (Byte.to_N b)) data x
  = x * 256 ^ Z.of_nat (List.length data)
    + fold_left (fun v b => v * 256 + Z.of_N (Byte.to_N b)) data 0.
Proof.
  induction data as [|b data IH]; intro x; cbn [fold_left List.length].
  - cbn. lia.
  - rewrite IH, (IH (0 * 256 + _)). rewrite Nat2Z.inj_succ, Z.pow_succ_r by lia. ring.
Qed.

Lemma long_digits data x :
  (32 <= List.length data)%nat ->
  fold_left (fun v b => v * 256 + Z.of_N (Byte.to_N b)) data x mod 2 ^ 256
  = fold_left (fun v b => v * 256 + Z.of_N (Byte.to_N b)) data 0 mod 2 ^ 256.
Proof.
  intro H. rewrite digits_shift.
  replace (Z.of_nat (List.length data)) with (32 + (Z.of_nat (List.length data) - 32)) by lia.
  rewrite Z.pow_add_r by lia. change (256 ^ 32) with (2 ^ 256).
  rewrite Z.add_mod by lia.
  replace (x * (2 ^ 256 * 256 ^ (Z.of_nat (List.length data) - 32)))
    with (x * 256 ^ (Z.of_nat (List.length data) - 32) * 2 ^ 256) by ring.
  rewrite Z.mod_mul by lia. rewrite Z.add_0_l, Z.mod_mod by lia. reflexivity.
Qed.

Lemma encode_app s1 s2 : Js.encode (s1 ++ s2) = (Js.encode s1 ++ Js.encode s2)%list.
Proof.
  unfold Js.encode, list_byte_of_string.
  induction s1 as [|c s1 IH]; [reflexivity|]. cbn. rewrite <- IH. reflexivity.
Qed.

Lemma encode_length s : List.length (Js.encode s) = String.length s.
Proof.
  unfold Js.encode, list_byte_of_string.
  induction s as [|c s IH]; [reflexivity|]. cbn. rewrite <- IH. reflexivity.
Qed.

(** X14. [matchIdToBytes32] keeps the last 32 characters of a match id only:
    whatever precedes them does not change the result, so match ids of the
    length the handlers ask for can share one [bytes32]. *)
Theorem matchIdToBytes32_suffix prefix s :
  (32 <= String.length s)%nat ->
  matchIdToBytes32 (prefix ++ s) = matchIdToBytes32 s.
Proof.
  intro H. unfold matchIdToBytes32. cbv zeta.
  rewrite encode_app, fold_left_app.
  pose proof (hash_loop (Js.encode prefix) 0) as H1.
  pose proof (hash_loop (Js.encode s) 0) as H2.
  pose proof (hash_loop (Js.encode s)
                (fold_left (fun v b => v * 256 + Z.of_N (Byte.to_N b))
                   (Js.encode prefix) 0))%Z as H3.
  change (0 mod 2 ^ 256)%Z with 0%Z in H1, H2. cbv zeta in H1, H2, H3.
  rewrite H1, H2, H3, long_digits by (rewrite encode_length; exact H).
  reflexivity.
Qed.

Lemma matchIdToBytes32_suffix_witness :
  (32 <= String.length Scenarios.matchA)%nat /\
  matchIdToBytes32 ("season-2/" ++ Scenarios.matchA) = matchIdToBytes32 Scenarios.matchA.
Proof.
  assert (H : (32 <= String.length Scenarios.matchA)%nat) by (vm_compute; lia).
  split; [exact H|].
  exact (matchIdToBytes32_suffix "season-2/" Scenarios.matchA H).
Defined.

End Bytes32Facts.

(** ** What the two handlers leave in the store *)

Module RecordFacts.
Import Store Query SecurityDb Ledger Footprint Frame LedgerFrame PipelineFrame.
Local Open Scope string_scope.

(** The usage table after a record attempt. *)
Lemma recordDailyUsage_cases wa t a m w :
  let w' := snd (recordDailyUsage wa t a m w) in
  clock w' = clock w /\
  (daily_usage w' = daily_usage w \/
   daily_usage w' =
     (daily_usage w ++ [{| du_wallet := wa; usage_type := t; amount := a;
                           du_match_id := m; du_created_at := clock w |}])%list).
Proof.
  cbv zeta.
  unfold recordDailyUsage, insert_daily_usage, bind, get, ret, Date_now, set_daily_usage.
  pose proof (tables_round_trip w) as (_ & _ & Hd & _ & Hc & _).
  destruct (round_trip w) as [[code |] w1]; cbn [snd fst daily_usage clock] in *.
  - split; [exact Hc | left; exact Hd].
  - split; [exact Hc | right; rewrite Hd; reflexivity].
Qed.

(** The table of processed matches after a record attempt. *)
Lemma recordProcessedMatch_rows m wa p r tx w :
  let w' := snd (recordProcessedMatch m wa p r tx w) in
  processed_matches w' = processed_matches w \/
  processed_matches w' =
    (processed_matches w ++
       [{| match_id := m; pm_wallet := wa; pm_placement := p; reward_amount := r;
           tx_hash := tx; processed_at := clock w |}])%list.
Proof.
  cbv zeta.
  unfold recordProcessedMatch, insert_processed_match, bind, get, ret,
    Date_now, set_processed_matches.
  pose proof (tables_round_trip w) as (_ & _ & _ & Hp & _).
  destruct (round_trip w) as [[code |] w1]; cbn [snd fst] in *; [left; exact Hp |].
  destruct (existsb _ (processed_matches w1)); cbn [snd processed_matches].
  - left. exact Hp.
  - right. rewrite Hp. reflexivity.
Qed.

(** What [validatePayload] asks of a reward grant. *)
Lemma grant_structure_accepted payload w :
  fst (RewardGrant.validatePayload payload w) = None ->
  is_eth_address (RewardGrant.walletAddress payload) = true /\
  (32 <= String.length (RewardGrant.matchId payload))%nat /\
  (32 <= String.length (RewardGrant.nonce payload))%nat /\
  0 < RewardGrant.rewardAmount payload /\ RewardGrant.rewardAmount payload <= 1000 /\
  Qabs (inject_Z (clock w) - RewardGrant.timestamp payload) <= 300000 /\
  (32 <= String.length (RewardGrant.serverSignature payload))%nat.
Proof.
  unfold RewardGrant.validatePayload, bind, Date_now, ret.
  destruct (is_eth_address _) eqn:E1; cbn [negb]; [|discriminate].
  destruct (_ <? 32)%nat eqn:E2; [discriminate|].
  destruct (String.length (RewardGrant.nonce payload) <? 32)%nat eqn:E3; [discriminate|].
  destruct (Js.leb _ 0 || Js.gtb _ 1000) eqn:E4; [discriminate|].
  destruct (Js.gtb _ 300000) eqn:E5; [discriminate|].
  destruct (String.length (RewardGrant.serverSignature payload) <? 32)%nat eqn:E6;
    [discriminate|].
  intros _. apply Nat.ltb_ge in E2, E3, E6.
  apply orb_false_iff in E4 as [E4 E4'].
  apply JsFacts.gtb_le in E4', E5.
  assert (H0 : 0 < RewardGrant.rewardAmount payload).
  { unfold Js.leb in E4. destruct (Qlt_le_dec 0 (RewardGrant.rewardAmount payload))
      as [H|H]; [exact H|]. apply Qle_bool_iff in H. congruence. }
  repeat split; assumption.
Qed.

(** X8. What a match submission leaves in the store, by the kind of its
    answer: nothing at all when the payload is refused or the environment
    is missing; no usage row and no processed-match row when the security
    check fails or the match is rejected; for an allowed match at most one
    match-usage row of amount 1 and at most one processed-match row
    carrying the reward of the answer. *)
Theorem submission_footprint payload w :
  let w' := snd (MatchSubmit.handler payload w) in
  match fst (MatchSubmit.handler payload w) with
  | MatchSubmit.BadRequest _ | MatchSubmit.InternalError _ => w' = w
  | MatchSubmit.SecurityFailed _ _ _ =>
      daily_usage w' = daily_usage w /\ processed_matches w' = processed_matches w
  | MatchSubmit.Ok d =>
      if MatchSubmit.allowed d
      then
        (daily_usage w' = daily_usage w \/
         daily_usage w' =
           (daily_usage w ++
              [{| du_wallet := MatchSubmit.walletAddress payload; usage_type := match_;
                  amount := 1; du_match_id := MatchSubmit.matchId payload;
                  du_created_at := clock w |}])%list) /\
        (processed_matches w' = processed_matches w \/
         processed_matches w' =
           (processed_matches w ++
              [{| match_id := MatchSubmit.matchId payload;
                  pm_wallet := MatchSubmit.walletAddress payload;
                  pm_placement := MatchSubmit.placement payload;
                  reward_amount := MatchSubmit.calculatedReward d;
                  tx_hash := None; processed_at := clock w |}])%list)
      else
        daily_usage w' = daily_usage w /\ processed_matches w' = processed_matches w
  end.
Proof.
  cbv zeta. pose proof (submit_trace payload w) as Ht. cbv zeta in Ht.
  pose proof (SecurityFrame.static_performFullSecurityCheck
                (MatchSubmit.securityParamsOf payload)
                SecurityDb.DEFAULT_SECURITY_CONFIG w) as (Hc & _ & Hd & Hp).
  set (sc := SecurityDb.performFullSecurityCheck _ _ w) in *.
  pose proof (ValidatorFacts.tables_validateMatch (MatchSubmit.matchInputOf payload)
                (snd sc)) as (_ & _ & Hd' & Hp' & Hc' & _).
  set (vr := MatchValidator.validateMatch _ (snd sc)) in *.
  destruct (fst (MatchSubmit.handler payload w)) as [e | e | e cs rs | d].
  - exact Ht.
  - exact Ht.
  - destruct Ht as (_ & -> & _). split; assumption.
  - destruct Ht as (_ & _ & Ha & _ & _ & Hr & ->). rewrite Ha.
    destruct (MatchValidator.allowed (fst vr)).
    + rewrite Hr.
      match goal with
      | |- context [SecurityDb.recordDailyUsage ?a ?b ?c ?e (snd vr)] =>
          pose proof (recordDailyUsage_cases a b c e (snd vr)) as [Hcu Hu];
          pose proof (matches_recordDailyUsage a b c e (snd vr)) as Hpu;
          set (wu := snd (SecurityDb.recordDailyUsage a b c e (snd vr))) in *
      end.
      match goal with
      | |- context [SecurityDb.recordProcessedMatch ?a ?b ?c ?e ?f wu] =>
          pose proof (recordProcessedMatch_rows a b c e f wu) as Hr';
          pose proof (daily_recordProcessedMatch a b c e f wu) as Hdu;
          set (wp := snd (SecurityDb.recordProcessedMatch a b c e f wu)) in *
      end.
      unfold unchanged in Hdu, Hpu. cbv zeta in Hu, Hr'.
      rewrite Hdu, Hpu, Hcu, Hc', Hc, Hd', Hd, Hp', Hp in *.
      split; assumption.
    + split; congruence.
Qed.

(** X17. A reward is granted only for a payload that carries the HMAC of
    its fields under the configured secret, for an amount above 0 and at
    most 1000, after the security check passed and the contract answered
    success.  Answers before the security check leave the store untouched;
    a failed check or a failed contract call leaves no usage row and no
    processed-match row; a grant writes at most one reward usage row of
    the amount and one processed-match row with the transaction hash. *)
Theorem grant_guards hmac js secret payload tx w :
  let w' := snd (RewardGrant.handler hmac js secret payload tx w) in
  match fst (RewardGrant.handler hmac js secret payload tx w) with
  | RewardGrant.BadRequest _ | RewardGrant.ConfigurationError _
  | RewardGrant.InvalidSignature _ | RewardGrant.InternalError _ => w' = w
  | RewardGrant.SecurityFailed _ _ _ | RewardGrant.ContractFailed _ _ =>
      daily_usage w' = daily_usage w /\ processed_matches w' = processed_matches w
  | RewardGrant.Granted g =>
      (exists s, secret = Some s /\
         RewardGrant.serverSignature payload =
           SecurityDb.hexOf (hmac (Js.encode s)
                               (Js.encode (js (RewardGrant.signedFieldsOf payload))))) /\
      0 < RewardGrant.rewardAmount payload /\
      RewardGrant.rewardAmount payload <= 1000 /\
      SecurityDb.passed
        (fst (SecurityDb.performFullSecurityCheck (RewardGrant.securityParamsOf payload)
                SecurityDb.DEFAULT_SECURITY_CONFIG w)) = true /\
      ContractService.success tx = true /\
      RewardGrant.r_rewardAmount g = RewardGrant.rewardAmount payload /\
      (daily_usage w' = daily_usage w \/
       daily_usage w' =
         (daily_usage w ++
            [{| du_wallet := RewardGrant.walletAddress payload; usage_type := reward;
                amount := RewardGrant.rewardAmount payload;
                du_match_id := RewardGrant.matchId payload;
                du_created_at := clock w |}])%list) /\
      (processed_matches w' = processed_matches w \/
       processed_matches w' =
         (processed_matches w ++
            [{| match_id := RewardGrant.matchId payload;
                pm_wallet := RewardGrant.walletAddress payload;
                pm_placement := RewardGrant.placement payload;
                reward_amount := RewardGrant.rewardAmount payload;
                tx_hash := ContractService.txHash tx;
                processed_at := clock w |}])%list)
  end.
Proof.
  cbv zeta. pose proof (grant_trace hmac js secret payload tx w) as Ht. cbv zeta in Ht.
  pose proof (SecurityFrame.static_performFullSecurityCheck
                (RewardGrant.securityParamsOf payload)
                SecurityDb.DEFAULT_SECURITY_CONFIG w) as (Hc & _ & Hd & Hp).
  set (sc := SecurityDb.performFullSecurityCheck _ _ w) in *.
  destruct (fst (RewardGrant.handler hmac js secret payload tx w))
    as [e | e | e | e | e cs rs | e c | g]; try exact Ht.
  - destruct Ht as (_ & -> & _). split; assumption.
  - destruct Ht as [_ ->]. split; assumption.
  - destruct Ht as (Hs & (s & Hsec & Hv) & Hpass & Htx & _ & Hamt & ->).
    destruct (grant_structure_accepted payload w Hs) as (_ & _ & _ & H0 & H1000 & _).
    rewrite HexFacts.verify_eqb in Hv. apply String.eqb_eq in Hv.
    split; [exists s; split; assumption|].
    split; [exact H0|]. split; [exact H1000|].
    split; [exact Hpass|]. split; [exact Htx|]. split; [exact Hamt|].
    match goal with
    | |- context [SecurityDb.recordDailyUsage ?a ?b ?c ?e (snd sc)] =>
        pose proof (recordDailyUsage_cases a b c e (snd sc)) as [Hcu Hu];
        pose proof (matches_recordDailyUsage a b c e (snd sc)) as Hpu;
        set (wu := snd (SecurityDb.recordDailyUsage a b c e (snd sc))) in *
    end.
    match goal with
    | |- context [SecurityDb.recordProcessedMatch ?a ?b ?c ?e ?f wu] =>
        pose proof (recordProcessedMatch_rows a b c e f wu) as Hr';
        pose proof (daily_recordProcessedMatch a b c e f wu) as Hdu;
        set (wp := snd (SecurityDb.recordProcessedMatch a b c e f wu)) in *
    end.
    unfold unchanged in Hdu, Hpu. cbv zeta in Hu, Hr'.
    rewrite Hdu, Hpu, Hcu, Hc, Hd, Hp in *.
    split; assumption.
Qed.

End RecordFacts.

(** ** Validation while the match history is unreachable *)

Module ValidatorOutage.
Import Store Query MatchValidator Footprint Frame.
Local Open Scope string_scope.

(** X18. [validateMatch] reads the store and writes nothing; when its two
    history lookups meet store errors it decides from the four checks on
    the match alone: the pattern checks add no flag and no risk. *)
Theorem validateMatch_fails_open input w c1 c2 :
  hd None (faults w) = Some c1 -> hd None (tl (faults w)) = Some c2 ->
  let r := fst (validateMatch input w) in
  let score :=
    (cr_riskScore (validateDuration input) + cr_riskScore (validateInputVariance input)
     + cr_riskScore (validateKillCount input) + cr_riskScore (validateFrameData input))%Z in
  same_tables w (snd (validateMatch input w)) /\
  if reject (validateDuration input) || reject (validateInputVariance input)
     || reject (validateKillCount input)
  then allowed r = false /\ riskScore r = 100%Z
  else riskScore r = Z.min 100 score /\
       allowed r = (score <? 100)%Z /\
       flags r = (cr_flags (validateDuration input)
                  ++ cr_flags (validateInputVariance input)
                  ++ cr_flags (validateKillCount input)
                  ++ cr_flags (validateFrameData input))%list.
Proof.
  intros H1 H2. cbv zeta. split; [apply ValidatorFacts.tables_validateMatch|].
  destruct w as [ns rl du pm ck ev fs]. cbn [faults] in H1, H2.
  destruct fs as [|f1 [|f2 fs]]; cbn [hd tl] in H1, H2; try discriminate.
  subst f1 f2.
  unfold validateMatch, analyzeWinPatterns, detectRapidMatches, select_recent_matches,
    bind, Date_now, get, ret, round_trip, with_faults.
  destruct (reject (validateDuration input)); cbn [orb fst allowed riskScore];
    [split; reflexivity|].
  destruct (reject (validateInputVariance input)); cbn [orb fst allowed riskScore];
    [split; reflexivity|].
  destruct (reject (validateKillCount input)); cbn [orb fst allowed riskScore];
    [split; reflexivity|].
  cbn [faults fst snd clock reject cr_riskScore cr_flags].
  rewrite !Z.add_0_l, !Z.add_0_r, !app_nil_r. cbn [app].
  match goal with |- context [Z.min 100 ?s] => set (score := s) end.
  unfold REJECT.
  destruct (100 <=? Z.min 100 score)%Z eqn:E; cbn [fst riskScore allowed flags].
  - apply Z.leb_le in E. repeat split; try reflexivity.
    + symmetry. apply Z.ltb_ge. lia.
    + rewrite <- !app_assoc. reflexivity.
  - apply Z.leb_gt in E. repeat split; try reflexivity.
    + symmetry. apply Z.ltb_lt. lia.
    + rewrite <- !app_assoc. reflexivity.
Qed.

Lemma validateMatch_fails_open_witness :
  hd None (faults Examples.historyDownWorld) = Some "08006" /\
  hd None (tl (faults Examples.historyDownWorld)) = Some "08006" /\
  same_tables Examples.historyDownWorld
    (snd (validateMatch Scenarios.streakInput Examples.historyDownWorld)).
Proof.
  assert (H1 : hd None (faults Examples.historyDownWorld) = Some "08006") by reflexivity.
  assert (H2 : hd None (tl (faults Examples.historyDownWorld)) = Some "08006")
    by reflexivity.
  split; [exact H1|]. split; [exact H2|].
  exact (proj1 (validateMatch_fails_open Scenarios.streakInput Examples.historyDownWorld
                  "08006" "08006" H1 H2)).
Defined.

End ValidatorOutage.

(** ** Requests of other wallets *)

Module AccountFacts.
Import Store Query SecurityDb SecuritySpec SecurityView Ledger Footprint Frame LedgerFrame
  PipelineFrame.
Local Open Scope string_scope.

#[export] Instance sameAccount_preorder wallet : PreOrder (sameAccount wallet).
Proof.
  split.
  - intro w. split; intros; reflexivity.
  - intros a b c [H1 H2] [H3 H4]. split; intros.
    + rewrite H3. apply H1.
    + rewrite H4. apply H2.
Qed.

Lemma account_of_tables wallet w w' :
  unchanged daily_usage w w' -> unchanged rate_limits w w' -> sameAccount wallet w w'.
Proof.
  unfold unchanged. intros Hd Hr.
  split; intros; [unfold usedOn; rewrite Hd | unfold requestsSince; rewrite Hr];
    reflexivity.
Qed.

Lemma static_usage w w' : same_static w w' -> unchanged daily_usage w w'.
Proof. intros (_ & _ & H & _). exact H. Qed.

(** A rate-limit check of one wallet leaves the counts of another as they
    are. *)
Lemma account_checkRateLimit wallet wa e cfg w :
  wa <> wallet -> sameAccount wallet w (snd (checkRateLimit wa e cfg w)).
Proof.
  intro Hne.
  pose proof (SecurityFrame.static_checkRateLimit wa e cfg w) as (_ & _ & Hd & _).
  split; intros.
  - unfold usedOn. rewrite Hd. reflexivity.
  - unfold requestsSince.
    destruct (RateFacts.checkRateLimit_rows wa e cfg w) as [H | [_ H]]; rewrite H;
      [reflexivity|].
    rewrite filter_app. cbn [filter rl_wallet]. apply String.eqb_neq in Hne.
    rewrite Hne. cbn [andb]. rewrite app_nil_r. reflexivity.
Qed.

Lemma account_performFullSecurityCheck wallet params cfg w :
  walletAddress params <> wallet ->
  sameAccount wallet w (snd (performFullSecurityCheck params cfg w)).
Proof.
  intro Hne. rewrite SecurityFacts.performFullSecurityCheck_run. cbn [snd].
  etransitivity;
    [apply account_of_tables;
       [apply static_usage, SecurityFrame.static_checkAndConsumeNonce
       | apply limits_checkAndConsumeNonce] |].
  etransitivity; [apply account_checkRateLimit; exact Hne |].
  etransitivity;
    [apply account_of_tables;
       [apply static_usage, SecurityFrame.static_checkMatchUniqueness
       | apply limits_checkMatchUniqueness] |].
  etransitivity;
    [apply account_of_tables;
       [apply static_usage, SecurityFrame.static_checkDailyCap
       | apply limits_checkDailyCap] |].
  apply account_of_tables;
    [apply static_usage, SecurityFrame.static_rewardCapRun | apply limits_rewardCapRun].
Qed.

(** A usage row of one wallet does not count for another. *)
Lemma account_recordDailyUsage wallet wa t a m w :
  wa <> wallet -> sameAccount wallet w (snd (recordDailyUsage wa t a m w)).
Proof.
  intro Hne. split; intros.
  - destruct (CapInvariant.usedOn_recordDailyUsage wallet type t0 wa t a m w)
      as [H | (Hwa & _)]; [exact H | congruence].
  - unfold requestsSince. rewrite (limits_recordDailyUsage wa t a m w). reflexivity.
Qed.

Lemma account_recordProcessedMatch wallet m wa p r tx w :
  sameAccount wallet w (snd (recordProcessedMatch m wa p r tx w)).
Proof.
  apply account_of_tables;
    [apply daily_recordProcessedMatch | apply limits_recordProcessedMatch].
Qed.

Lemma account_validateMatch wallet input w :
  sameAccount wallet w (snd (MatchValidator.validateMatch input w)).
Proof.
  pose proof (ValidatorFacts.tables_validateMatch input w) as (_ & Hr & Hd & _).
  apply account_of_tables; assumption.
Qed.

Section Served.
Variable hmac : list Byte.byte -> list Byte.byte -> list Byte.byte.
Variable js : RewardGrant.SignedFields -> string.
Variable secret : option string.
Variable wallet : string.

Lemma account_submit payload w :
  MatchSubmit.walletAddress payload <> wallet ->
  sameAccount wallet w (snd (MatchSubmit.handler payload w)).
Proof.
  intro Hne. pose proof (submit_trace payload w) as Ht. cbv zeta in Ht.
  pose proof (account_performFullSecurityCheck wallet
                (MatchSubmit.securityParamsOf payload) DEFAULT_SECURITY_CONFIG w Hne)
    as Hs.
  set (sc := performFullSecurityCheck _ _ w) in *.
  pose proof (account_validateMatch wallet (MatchSubmit.matchInputOf payload) (snd sc))
    as Hv.
  set (vr := MatchValidator.validateMatch _ (snd sc)) in *.
  destruct (MatchSubmit.handler payload w) as [res w']; cbn [fst snd] in *.
  destruct res as [e | e | e cs rs | d].
  1-2: subst w'; reflexivity.
  - destruct Ht as (_ & -> & _). exact Hs.
  - destruct Ht as (_ & _ & _ & _ & _ & _ & ->).
    destruct (MatchValidator.allowed (fst vr)); [|etransitivity; eassumption].
    etransitivity; [exact Hs|]. etransitivity; [exact Hv|].
    etransitivity; [apply account_recordDailyUsage; exact Hne|].
    apply account_recordProcessedMatch.
Qed.

Lemma account_grant payload tx w :
  RewardGrant.walletAddress payload <> wallet ->
  sameAccount wallet w (snd (RewardGrant.handler hmac js secret payload tx w)).
Proof.
  intro Hne. pose proof (grant_trace hmac js secret payload tx w) as Ht. cbv zeta in Ht.
  pose proof (account_performFullSecurityCheck wallet
                (RewardGrant.securityParamsOf payload) DEFAULT_SECURITY_CONFIG w Hne)
    as Hs.
  set (sc := performFullSecurityCheck _ _ w) in *.
  destruct (RewardGrant.handler hmac js secret payload tx w) as [res w'];
    cbn [fst snd] in *.
  destruct res as [e | e | e | e | e cs rs | e c | g].
  1-4: subst w'; reflexivity.
  - destruct Ht as (_ & -> & _). exact Hs.
  - destruct Ht as (_ & ->). exact Hs.
  - destruct Ht as (_ & _ & _ & _ & _ & _ & ->).
    etransitivity; [exact Hs|].
    etransitivity; [apply account_recordDailyUsage; exact Hne|].
    apply account_recordProcessedMatch.
Qed.

Lemma account_serveOne r w :
  walletOf r <> wallet ->
  sameAccount wallet w (snd (Pipeline.serveOne hmac js secret r w)).
Proof.
  destruct r as [payload | payload tx]; cbn [Pipeline.serveOne walletOf]; intro Hne.
  - pose proof (account_submit payload w Hne) as H.
    destruct (MatchSubmit.handler payload w); exact H.
  - pose proof (account_grant payload tx w Hne) as H.
    destruct (RewardGrant.handler _ _ _ payload tx w); exact H.
Qed.

End Served.

(** X19. The limits are kept per spelling of the wallet address: a run of
    requests none of which names exactly the string [wallet] leaves the
    usage recorded for [wallet] on every day and the requests recorded for
    it on every endpoint as they were, so it consumes nothing of its daily
    caps or of its rate limit.  (The address check accepts hexadecimal
    letters of either case, and no address is normalised.) *)
Theorem other_wallets_consume_nothing hmac js secret wallet reqs : forall w,
  Forall (fun r => walletOf (Pipeline.a_request r) <> wallet) reqs ->
  sameAccount wallet w (snd (Pipeline.serve hmac js secret reqs w)).
Proof.
  induction reqs as [|r reqs IH]; intros w H; cbn [Pipeline.serve]; [reflexivity|].
  inversion H as [|r' reqs' Hr Hreqs]; subst.
  pose proof (account_serveOne hmac js secret wallet (Pipeline.a_request r)
                (Run.arrive (Pipeline.a_time r) (Pipeline.a_errors r) w) Hr) as H1.
  destruct (Pipeline.serveOne _ _ _ _ _) as [res w1]; cbn [snd] in H1.
  specialize (IH w1 Hreqs).
  destruct (Pipeline.serve _ _ _ reqs w1) as [ress w2]; cbn [snd] in *.
  etransitivity; [|exact IH]. etransitivity; [|exact H1].
  apply account_of_tables; reflexivity.
Qed.

Lemma other_wallets_consume_nothing_witness :
  is_eth_address Examples.walletUpper = true /\
  Forall (fun r => walletOf (Pipeline.a_request r) <> Examples.walletUpper)
         Examples.mixedRun /\
  sameAccount Examples.walletUpper (Store.empty 0) Examples.afterRun.
Proof.
  assert (H : Forall (fun r => walletOf (Pipeline.a_request r) <> Examples.walletUpper)
                     Examples.mixedRun).
  { repeat constructor; intro E; vm_compute in E; discriminate E. }
  split; [reflexivity|]. split; [exact H|].
  exact (other_wallets_consume_nothing Examples.toyHmac Examples.toyStringify
           Examples.toySecret Examples.walletUpper Examples.mixedRun (Store.empty 0) H).
Defined.

End AccountFacts.
